(** * train_unconditional.py: a shallow embedding and its verified properties

    The development follows the script
    [examples/unconditional_image_generation/train_unconditional.py]:

    - [Torch]: the tensor operations the script calls (1-D indexing,
      [res[..., None]], [expand], broadcasting arithmetic, [F.mse_loss],
      [mean]), on row-major tensors;
    - [_extract_into_tensor] and the two training objectives;
    - [Py]: the string and list functions used by the resume code
      ([startswith], [split], [int], [sorted], [os.path.basename]);
    - the checkpoint-resume computation of [main];
    - the training loop of [main] as a state machine that emits events;
    - the EMA store / copy_to / restore blocks and the sampling run.

    Tensor elements are exact rationals ([Q]); rounding of machine floats is
    outside the model. *)

From Stdlib Require Import ZArith QArith List String Ascii Bool Lia Arith.
From Stdlib Require Import Sorting.Sorted Sorting.Permutation.
Import ListNotations.

Set Implicit Arguments.

Close Scope Q_scope.
Open Scope string_scope.
Open Scope list_scope.
Open Scope nat_scope.

(* [String] shadows two list functions; the lists' versions are meant. *)
Abbreviation length := Datatypes.length.
Abbreviation concat := List.concat.

(* ===================================================================== *)
(** ** Small list helpers *)
(* ===================================================================== *)

(** [mapM f l]: apply a fallible function to every element, failing as soon
    as one application fails (a Python comprehension whose body can raise). *)
Fixpoint mapM {A B : Type} (f : A -> option B) (l : list A) : option (list B) :=
  match l with
  | [] => Some []
  | x :: l' =>
      match f x with
      | None => None
      | Some y =>
          match mapM f l' with
          | None => None
          | Some ys => Some (y :: ys)
          end
      end
  end.

(** [chunks n sz l]: the first [n] consecutive blocks of [sz] elements. *)
Fixpoint chunks {A : Type} (n sz : nat) (l : list A) : list (list A) :=
  match n with
  | O => []
  | S n' => firstn sz l :: chunks n' sz (skipn sz l)
  end.

(** [map2 f l1 l2]: elementwise combination, as long as both lists last. *)
Fixpoint map2 {A B C : Type} (f : A -> B -> C) (l1 : list A) (l2 : list B) : list C :=
  match l1, l2 with
  | x :: l1', y :: l2' => f x y :: map2 f l1' l2'
  | _, _ => []
  end.

(* ===================================================================== *)
(** ** Exceptions and results *)
(* ===================================================================== *)

(** The Python exceptions the modelled code can raise. *)
Inductive exn : Type :=
| ValueError (msg : string)
| IndexError
| ZeroDivisionError
| RuntimeError (msg : string).

(** The outcome of a computation that may raise. *)
Inductive result (A : Type) : Type :=
| Ok (a : A)
| Raise (e : exn).

Arguments Ok {A} _.
Arguments Raise {A} _.

Definition rbind {A B} (r : result A) (k : A -> result B) : result B :=
  match r with
  | Ok a => k a
  | Raise e => Raise e
  end.

Definition of_option {A} (e : exn) (o : option A) : result A :=
  match o with
  | Some a => Ok a
  | None => Raise e
  end.

(** A comprehension (or a [key=] function applied to each element) whose
    body may raise: the first exception, left to right, is the outcome. *)
Fixpoint mapR {A B : Type} (f : A -> result B) (l : list A) : result (list B) :=
  match l with
  | [] => Ok []
  | x :: l' =>
      rbind (f x) (fun y => rbind (mapR f l') (fun ys => Ok (y :: ys)))
  end.

(* ===================================================================== *)
(** ** Tensors *)
(* ===================================================================== *)

Module Torch.

(** A tensor is a shape with its elements in row-major order. *)
Record tensor (A : Type) : Type := mkT { shape : list nat; data : list A }.

Arguments mkT {A} _ _.

Definition numel (s : list nat) : nat := fold_right Nat.mul 1 s.

Definition rank {A} (t : tensor A) : nat := length (shape t).

Definition well_formed {A} (t : tensor A) : Prop :=
  length (data t) = numel (shape t).

Section Indexing.
Context {A : Type}.

(** [arr[i]] for one integer index of a 1-D array: indices in
    [[0, len)] select directly, indices in [[-len, 0)] count from the end,
    anything else is an [IndexError] ([None]). *)
Definition index1 (arr : list A) (i : Z) : option A :=
  let n := Z.of_nat (length arr) in
  if ((0 <=? i) && (i <? n))%Z then nth_error arr (Z.to_nat i)
  else if ((- n <=? i) && (i <? 0))%Z then nth_error arr (Z.to_nat (i + n))
  else None.

(** An index the array accepts, and the position it selects. *)
Definition in_bounds (arr : list A) (i : Z) : Prop :=
  (- Z.of_nat (length arr) <= i < Z.of_nat (length arr))%Z.

Definition position (arr : list A) (i : Z) : nat :=
  Z.to_nat (if (i <? 0)%Z then i + Z.of_nat (length arr) else i).

(** [arr[timesteps]] for a 1-D index tensor: one element per index. *)
Definition index_select (arr : list A) (timesteps : list Z) : option (tensor A) :=
  match mapM (index1 arr) timesteps with
  | Some vs => Some (mkT [length timesteps] vs)
  | None => None
  end.

(** [res[..., None]]: a trailing singleton dimension, same elements. *)
Definition unsqueeze_last (t : tensor A) : tensor A :=
  mkT (shape t ++ [1]) (data t).

(** Shape test of [expand]: dimension by dimension (ranks already
    aligned), sizes agree or the source size is 1. *)
Fixpoint expandable (src tgt : list nat) : bool :=
  match src, tgt with
  | [], [] => true
  | s :: src', t :: tgt' => ((s =? t) || (s =? 1)) && expandable src' tgt'
  | _, _ => false
  end.

(** Elements of the expanded tensor: a size-1 dimension is repeated. *)
Fixpoint expand_data (src tgt : list nat) (d : list A) : list A :=
  match src, tgt with
  | s :: src', t :: tgt' =>
      let rows := map (expand_data src' tgt') (chunks s (numel src') d) in
      if s =? t then concat rows else concat (repeat (concat rows) t)
  | _, _ => d
  end.

(** [t.expand(tgt)]: new leading dimensions are allowed, the others must
    pass [expandable]; otherwise a [RuntimeError] ([None]).  Sizes are
    naturals, so the [-1] placeholder of [expand] is not in the model. *)
Definition expand (t : tensor A) (tgt : list nat) : option (tensor A) :=
  if length tgt <? rank t then None
  else
    let src := repeat 1 (length tgt - rank t) ++ shape t in
    if expandable src tgt then Some (mkT tgt (expand_data src tgt (data t)))
    else None.

(** Shape of a broadcast of two shapes of equal rank. *)
Fixpoint broadcast_dims (s1 s2 : list nat) : option (list nat) :=
  match s1, s2 with
  | [], [] => Some []
  | a :: s1', b :: s2' =>
      match broadcast_dims s1' s2' with
      | None => None
      | Some r =>
          if a =? b then Some (a :: r)
          else if a =? 1 then Some (b :: r)
          else if b =? 1 then Some (a :: r)
          else None
      end
  | _, _ => None
  end.

(** [torch.broadcast_shapes]: the shorter shape is padded on the left. *)
Definition broadcast_shapes (s1 s2 : list nat) : option (list nat) :=
  let k := Nat.max (length s1) (length s2) in
  broadcast_dims (repeat 1 (k - length s1) ++ s1) (repeat 1 (k - length s2) ++ s2).
End Indexing.

Definition map_t {A B} (f : A -> B) (t : tensor A) : tensor B :=
  mkT (shape t) (map f (data t)).

(** A binary elementwise operation with broadcasting. *)
Definition binop {A B C} (f : A -> B -> C) (x : tensor A) (y : tensor B)
  : option (tensor C) :=
  match broadcast_shapes (shape x) (shape y) with
  | None => None
  | Some s =>
      match expand x s, expand y s with
      | Some x', Some y' => Some (mkT s (map2 f (data x') (data y')))
      | _, _ => None
      end
  end.

(** *** Arithmetic on rational tensors *)

Definition Qsum (l : list Q) : Q := fold_right Qplus 0%Q l.

Definition sq_err (p c : Q) : Q := ((p - c) * (p - c))%Q.

(** [t.mean()]: the sum of all elements over their number. *)
Definition mean (t : tensor Q) : Q :=
  (Qsum (data t) / inject_Z (Z.of_nat (length (data t))))%Q.

(** [F.mse_loss(input, target, reduction="none")]. *)
Definition mse_loss_none (input target : tensor Q) : option (tensor Q) :=
  binop sq_err input target.

(** [F.mse_loss(input, target)], default reduction ["mean"]. *)
Definition mse_loss (input target : tensor Q) : option Q :=
  match mse_loss_none input target with
  | Some t => Some (mean t)
  | None => None
  end.

End Torch.

Import Torch.

(* ===================================================================== *)
(** ** [_extract_into_tensor] *)
(* ===================================================================== *)

Section Extract.
(** Element type of [arr], element type after [.float()], and the cast. *)
Context {A F : Type} (float : A -> F).

(** The loop [while len(res.shape) < len(broadcast_shape): res = res[..., None]].
    [fuel] bounds the number of iterations. *)
Fixpoint pad_rank (fuel : nat) (res : tensor F) (broadcast_shape : list nat)
  : tensor F :=
  match fuel with
  | O => res
  | S fuel' =>
      if rank res <? length broadcast_shape
      then pad_rank fuel' (unsqueeze_last res) broadcast_shape
      else res
  end.

(** [_extract_into_tensor(arr, timesteps, broadcast_shape)].  The conversion
    [torch.from_numpy] and the device move [.to(timesteps.device)] keep the
    values.  A bad index is an [IndexError], a shape that [expand] refuses a
    [RuntimeError].  The loop gets [len(broadcast_shape)] iterations of fuel,
    which it never exhausts (lemma [pad_rank_exits]). *)
Definition _extract_into_tensor (arr : list A) (timesteps : list Z)
    (broadcast_shape : list nat) : result (tensor F) :=
  match index_select arr timesteps with
  | None => Raise IndexError
  | Some picked =>
      let res := map_t float picked in
      let res := pad_rank (length broadcast_shape) res broadcast_shape in
      of_option (RuntimeError "expand") (expand res broadcast_shape)
  end.
End Extract.


(* ===================================================================== *)
(** ** The training objective (lines 700--712 of the script) *)
(* ===================================================================== *)


(** [loss] of one batch.  [alphas_cumprod] is the scheduler's table of
    cumulative products; it is a float tensor already, so [.float()] is the
    identity on it.  A shape mismatch inside a tensor operation is a
    [RuntimeError].

    Division is exact rational division: where [1 - alpha_t] is zero a float
    tensor holds [inf], which the model does not represent, and the mean of
    an empty tensor is [nan]; the theorems stay away from both. *)
Definition training_loss (prediction_type : string) (alphas_cumprod : list Q)
    (model_output noise clean_images : tensor Q) (timesteps : list Z)
  : result Q :=
  if String.eqb prediction_type "epsilon" then
    of_option (RuntimeError "mse_loss") (mse_loss model_output noise)
  else if String.eqb prediction_type "sample" then
    rbind (of_option IndexError (nth_error (shape clean_images) 0)) (fun bsz =>
    rbind (_extract_into_tensor (fun a : Q => a) alphas_cumprod timesteps
                                [bsz; 1; 1; 1]) (fun alpha_t =>
    rbind (of_option (RuntimeError "div")
             (binop Qdiv alpha_t (map_t (fun a => 1 - a)%Q alpha_t)))
          (fun snr_weights =>
    rbind (of_option (RuntimeError "mse_loss")
             (mse_loss_none model_output clean_images)) (fun sq =>
    rbind (of_option (RuntimeError "mul") (binop Qmult snr_weights sq))
          (fun loss =>
    Ok (mean loss))))))
  else
    Raise (ValueError ("Unsupported prediction type: " ++ prediction_type)%string).

(** *** The objectives as the specification words them *)

(** Signal-to-noise weight of a sample whose timestep has cumulative
    product [a]. *)
Definition snr_weight (a : Q) : Q := (a / (1 - a))%Q.

(** Weight of the sample at batch position [i]. *)
Definition sample_weight (alphas_cumprod : list Q) (timesteps : list Z) (i : nat) : Q :=
  snr_weight (nth (Z.to_nat (nth i timesteps 0%Z)) alphas_cumprod 0%Q).

(** Mean over all [N] elements of [weight * (prediction - clean)^2], the
    element at flat position [p] belonging to sample [p / per_sample]. *)
Definition snr_weighted_mse (alphas_cumprod : list Q) (timesteps : list Z)
    (per_sample : nat) (prediction clean : list Q) : Q :=
  let N := length prediction in
  (Qsum (map (fun p =>
               sample_weight alphas_cumprod timesteps (p / per_sample)
               * ((nth p prediction 0 - nth p clean 0)
                  * (nth p prediction 0 - nth p clean 0)))%Q
            (seq 0 N))
   / inject_Z (Z.of_nat N))%Q.

(** Plain mean squared error of two element lists. *)
Definition mean_squared_error (prediction target : list Q) : Q :=
  let N := length prediction in
  (Qsum (map (fun p => (nth p prediction 0 - nth p target 0)
                       * (nth p prediction 0 - nth p target 0))%Q
            (seq 0 N))
   / inject_Z (Z.of_nat N))%Q.

(* ===================================================================== *)
(** ** Python strings and lists used by the resume code *)
(* ===================================================================== *)

Module Py.

(** Order of keyed elements. *)
Definition key_le {A} (a b : Z * A) : Prop := (fst a <= fst b)%Z.

(** [s.startswith(p)]. *)
Definition startswith (s p : string) : bool := String.prefix p s.

(** [s.split(sep)] for a one-character separator: the pieces between the
    separators, empty pieces included. *)
Fixpoint split (sep : ascii) (s : string) : list string :=
  match s with
  | EmptyString => [EmptyString]
  | String c s' =>
      if Ascii.eqb c sep then EmptyString :: split sep s'
      else
        match split sep s' with
        | piece :: rest => String c piece :: rest
        | [] => [String c EmptyString]
        end
  end.

(** [os.path.basename(p)]: what follows the last ["/"]. *)
Definition basename (p : string) : string :=
  last (split "/"%char p) EmptyString.

(** ASCII white space, as stripped by [int]: tab, line feed, vertical tab,
    form feed, carriage return and the space. *)
Definition is_space (c : ascii) : bool :=
  let n := nat_of_ascii c in
  ((9 <=? n) && (n <=? 13)) || (n =? 32).

Definition digit_val (c : ascii) : option Z :=
  let n := nat_of_ascii c in
  if (48 <=? n) && (n <=? 57) then Some (Z.of_nat (n - 48)) else None.

Fixpoint lstrip (cs : list ascii) : list ascii :=
  match cs with
  | c :: cs' => if is_space c then lstrip cs' else cs
  | [] => []
  end.

Definition strip (cs : list ascii) : list ascii :=
  rev (lstrip (rev (lstrip cs))).

(** Decimal digits, single underscores allowed between two digits. *)
Fixpoint int_body (acc : Z) (after_digit : bool) (cs : list ascii) : option Z :=
  match cs with
  | [] => if after_digit then Some acc else None
  | c :: cs' =>
      match digit_val c with
      | Some d => int_body (10 * acc + d) true cs'
      | None =>
          if Ascii.eqb c "_"%char && after_digit then int_body acc false cs'
          else None
      end
  end.

(** [int(s)] in base 10 on ASCII text: surrounding white space, an optional
    sign, digits.  [None] is [ValueError].  (Non-ASCII digits and spaces,
    which [int] also accepts, are outside the model.) *)
Definition int (s : string) : option Z :=
  match strip (list_ascii_of_string s) with
  | "-"%char :: cs => option_map Z.opp (int_body 0 false cs)
  | "+"%char :: cs => int_body 0 false cs
  | cs => int_body 0 false cs
  end.

(** Insertion of a keyed element before the first element whose key is not
    smaller: with [fold_right] this is a stable sort. *)
Fixpoint insert_keyed {A} (x : Z * A) (l : list (Z * A)) : list (Z * A) :=
  match l with
  | [] => [x]
  | y :: l' => if (fst x <=? fst y)%Z then x :: l else y :: insert_keyed x l'
  end.

Definition sort_keyed {A} (l : list (Z * A)) : list (Z * A) :=
  fold_right insert_keyed [] l.

(** [sorted(l, key=key)]: every key is computed first (an exception of
    [key] is the outcome); the sort is stable. *)
Definition sorted {A} (key : A -> result Z) (l : list A) : result (list A) :=
  rbind (mapR (fun x => rbind (key x) (fun k => Ok (k, x))) l) (fun keyed =>
  Ok (map snd (sort_keyed keyed))).

(** Truth value of an optional string ([None] and [""] are false). *)
Definition truthy (o : option string) : bool :=
  match o with
  | None => false
  | Some EmptyString => false
  | Some _ => true
  end.

(** [math.ceil(a / b)] on integers.  (The script divides as floats; the
    model is exact.) *)
Definition ceil_div (a b : Z) : result Z :=
  if (b =? 0)%Z then Raise ZeroDivisionError else Ok (- ((- a) / b))%Z.

(** [a // b] and [a % b]: floor division and its remainder. *)
Definition floordiv (a b : Z) : result Z :=
  if (b =? 0)%Z then Raise ZeroDivisionError else Ok (a / b)%Z.

Definition pymod (a b : Z) : result Z :=
  if (b =? 0)%Z then Raise ZeroDivisionError else Ok (a mod b)%Z.

End Py.

(* ===================================================================== *)
(** ** Resuming from a checkpoint (lines 626--663 of the script) *)
(* ===================================================================== *)

(** [int(x.split("-")[1])]: the number between the first and the second
    dash.  No dash is an [IndexError], no number a [ValueError]. *)
Definition checkpoint_number (x : string) : result Z :=
  rbind (of_option IndexError (nth_error (Py.split "-"%char x) 1)) (fun piece =>
  of_option (ValueError "invalid literal for int()") (Py.int piece)).

(** The ["latest"] branch: the entries of the output directory whose name
    starts with ["checkpoint"], sorted by number; the last one, or [None]. *)
Definition latest_checkpoint (listing : list string) : result (option string) :=
  let dirs := filter (fun d => Py.startswith d "checkpoint") listing in
  rbind (Py.sorted checkpoint_number dirs) (fun dirs =>
  Ok (if 0 <? length dirs then Some (last dirs EmptyString) else None)).

(** What the resume code leaves behind for the training loop. *)
Record resumed : Type := mkResumed {
  r_global_step : Z;
  r_first_epoch : Z;
  r_resume_step : option Z;                  (* unbound on a fresh run *)
  r_resume_from_checkpoint : option string;  (* [args.resume_from_checkpoint] afterwards *)
  r_printed : list string;                   (* [accelerator.print] calls *)
  r_loaded : option string                   (* directory given to [load_state] *)
}.

Definition missing_checkpoint_warning (requested : string) : string :=
  ("Checkpoint '" ++ requested
   ++ "' does not exist. Starting a new training run.")%string.

Section Resume.
(** [accelerator.load_state(os.path.join(output_dir, path))], a call into
    the persistence layer: [None] when it returns, [Some e] when it raises
    [e].  Its argument here is [path], inside the output directory. *)
Variable load_state : string -> option exn.

(** [os.listdir(args.output_dir)]; the script has created the directory. *)
Variable listing : list string.

Definition resume_from (resume_from_checkpoint : option string)
    (gradient_accumulation_steps len_train_dataloader : Z) : result resumed :=
  rbind (Py.ceil_div len_train_dataloader gradient_accumulation_steps)
        (fun num_update_steps_per_epoch =>
  if Py.truthy resume_from_checkpoint then
    let requested := match resume_from_checkpoint with
                     | Some s => s
                     | None => EmptyString
                     end in
    rbind (if negb (String.eqb requested "latest")
           then Ok (Some (Py.basename requested))
           else latest_checkpoint listing) (fun path =>
    match path with
    | None =>
        Ok (mkResumed 0 0 None None
                      [missing_checkpoint_warning requested] None)
    | Some path =>
        match load_state path with
        | Some e => Raise e
        | None =>
            rbind (checkpoint_number path) (fun global_step =>
            let resume_global_step :=
              (global_step * gradient_accumulation_steps)%Z in
            rbind (Py.floordiv global_step num_update_steps_per_epoch)
                  (fun first_epoch =>
            rbind (Py.pymod resume_global_step
                     (num_update_steps_per_epoch
                      * gradient_accumulation_steps)%Z)
                  (fun resume_step =>
            Ok (mkResumed global_step first_epoch (Some resume_step)
                          resume_from_checkpoint
                          [("Resuming from checkpoint " ++ path)%string]
                          (Some path)))))
        end
    end)
  else
    Ok (mkResumed 0 0 None resume_from_checkpoint [] None)).
End Resume.

(* ===================================================================== *)
(** ** Stateful code that may raise *)
(* ===================================================================== *)

(** A command runs on a state and leaves a state together with its outcome.
    When it raises, the state is the one reached at the moment of the
    exception: mutations made before it stay. *)
Definition M (S A : Type) : Type := S -> S * result A.

Definition ret {S A} (a : A) : M S A := fun s => (s, Ok a).

Definition bind {S A B} (m : M S A) (k : A -> M S B) : M S B :=
  fun s =>
    match m s with
    | (s', Ok a) => k a s'
    | (s', Raise e) => (s', Raise e)
    end.

Definition raise {S A} (e : exn) : M S A := fun s => (s, Raise e).

Definition get {S} : M S S := fun s => (s, Ok s).

Definition modify {S} (f : S -> S) : M S unit := fun s => (f s, Ok tt).

Definition lift {S A} (r : result A) : M S A := fun s => (s, r).

Definition when {S} (b : bool) (m : M S unit) : M S unit :=
  if b then m else ret tt.

Declare Scope cmd_scope.
Delimit Scope cmd_scope with cmd.
Notation "x <- m ;; k" := (bind m (fun x => k))
  (at level 61, m at next level, right associativity) : cmd_scope.
Notation "m ;; k" := (bind m (fun _ => k))
  (at level 61, right associativity) : cmd_scope.
Open Scope cmd_scope.

(* ===================================================================== *)
(** ** The training loop (lines 667--740 of the script) *)
(* ===================================================================== *)

(** The command-line arguments the loop reads. *)
Record args : Type := mkArgs {
  gradient_accumulation_steps : Z;
  use_ema : bool;
  checkpointing_steps : Z;
  prediction_type : string;
  resume_from_checkpoint : option string
}.

Section TrainingLoop.
(** What the data loader yields; the loop does not look inside. *)
Variable batch : Type.

(** The calls of the loop into its collaborators, in the order made. *)
Inductive event : Type :=
| EvProgress                        (* progress_bar.update(1) *)
| EvForward (b : batch)             (* model(noisy_images, timesteps) *)
| EvBackward (b : batch)            (* accelerator.backward(loss) *)
| EvClipGradNorm (max_norm : Q)     (* accelerator.clip_grad_norm_ *)
| EvOptimizerStep                   (* the optimizer's update *)
| EvLrStep                          (* the schedule's advance *)
| EvZeroGrad                        (* gradients set to zero *)
| EvEmaStep                         (* ema_model.step(model.parameters()) *)
| EvGlobalStep (now : Z)            (* global_step += 1 *)
| EvSaveState (step : Z)            (* accelerator.save_state(checkpoint-<step>) *)
| EvLog (step : Z).                 (* accelerator.log(logs, step) *)

Record loop_state : Type := mkLoop {
  global_step : Z;
  acc_step : Z;             (* micro-steps the accelerator has counted *)
  sync_gradients : bool;    (* accelerator.sync_gradients *)
  trace : list event
}.

Definition emit (e : event) : M loop_state unit :=
  modify (fun s => mkLoop (global_step s) (acc_step s) (sync_gradients s)
                          (trace s ++ [e])).

(** Modelled from the spec: entering [accelerator.accumulate(model)], which
    lives in the accelerate library.  "Every [accum_steps] micro-steps
    constitutes one optimization step": the accelerator counts the
    micro-step and raises [sync_gradients] on every [accum_steps]-th. *)
Definition accumulate (accum_steps : Z) : M loop_state unit :=
  modify (fun s =>
            let n := (acc_step s + 1)%Z in
            mkLoop (global_step s) n ((n mod accum_steps =? 0)%Z) (trace s)).

(** Modelled from the spec: the optimizer and the schedule returned by
    [accelerator.prepare].  The script calls them at every micro-step;
    they act at an optimization-step boundary only ("accumulation happens
    locally"). *)
Definition optimizer_step : M loop_state unit :=
  s <- get ;; when (sync_gradients s) (emit EvOptimizerStep).

Definition lr_scheduler_step : M loop_state unit :=
  s <- get ;; when (sync_gradients s) (emit EvLrStep).

Definition optimizer_zero_grad : M loop_state unit :=
  s <- get ;; when (sync_gradients s) (emit EvZeroGrad).

Definition supported_prediction_type (p : string) : bool :=
  String.eqb p "epsilon" || String.eqb p "sample".

(** The body of the loop for a batch that is not skipped (lines 680--739).
    The loss value itself is [training_loss]; here only its one way of
    raising from the script's own code matters. *)
Definition train_step (a : args) (is_main_process : bool) (b : batch)
  : M loop_state unit :=
  accumulate (gradient_accumulation_steps a) ;;
  emit (EvForward b) ;;
  (if supported_prediction_type (prediction_type a) then ret tt
   else raise (ValueError ("Unsupported prediction type: "
                           ++ prediction_type a)%string)) ;;
  emit (EvBackward b) ;;
  s <- get ;;
  when (sync_gradients s) (emit (EvClipGradNorm 1%Q)) ;;
  optimizer_step ;;
  lr_scheduler_step ;;
  optimizer_zero_grad ;;
  s <- get ;;
  when (sync_gradients s)
    (when (use_ema a) (emit EvEmaStep) ;;
     emit EvProgress ;;
     modify (fun s => mkLoop (global_step s + 1)%Z (acc_step s)
                             (sync_gradients s) (trace s)) ;;
     s <- get ;;
     emit (EvGlobalStep (global_step s)) ;;
     r <- lift (Py.pymod (global_step s) (checkpointing_steps a)) ;;
     when (r =? 0)%Z
       (when is_main_process (emit (EvSaveState (global_step s))))) ;;
  s <- get ;;
  emit (EvLog (global_step s)).

(** [for step, batch in enumerate(train_dataloader)], from index [step].
    [resume_step] is read only when [args.resume_from_checkpoint] is true,
    and then the resume code has bound it. *)
Fixpoint epoch_loop (a : args) (is_main_process : bool)
    (epoch first_epoch resume_step : Z) (step : Z) (batches : list batch)
  : M loop_state unit :=
  match batches with
  | [] => ret tt
  | b :: rest =>
      (if Py.truthy (resume_from_checkpoint a)
          && (epoch =? first_epoch)%Z && (step <? resume_step)%Z
       then
         r <- lift (Py.pymod step (gradient_accumulation_steps a)) ;;
         when (r =? 0)%Z (emit EvProgress)
       else train_step a is_main_process b) ;;
      epoch_loop a is_main_process epoch first_epoch resume_step
                 (step + 1)%Z rest
  end.

(** One pass over the batches the data loader yields in this epoch. *)
Definition run_epoch (a : args) (is_main_process : bool)
    (epoch first_epoch resume_step : Z) (batches : list batch)
  : M loop_state unit :=
  epoch_loop a is_main_process epoch first_epoch resume_step 0%Z batches.

(** The batches that went through a forward pass, in order. *)
Fixpoint forwarded (tr : list event) : list batch :=
  match tr with
  | [] => []
  | EvForward b :: tr' => b :: forwarded tr'
  | _ :: tr' => forwarded tr'
  end.

(** Events of the optimizer side: none of them may occur for a skipped
    batch. *)
Definition is_training_event (e : event) : bool :=
  match e with
  | EvForward _ | EvBackward _ | EvClipGradNorm _ | EvOptimizerStep
  | EvLrStep | EvZeroGrad | EvEmaStep | EvGlobalStep _ => true
  | _ => false
  end.

(** *** The loop as the specification words it *)

(** The calls of one optimization step, in the order of the
    specification, after the forward and backward pass of the micro-step
    that completes it; [g] is [global_step] before the step. *)
Definition optimization_step_events (a : args) (is_main_process : bool) (g : Z)
  : list event :=
  [EvClipGradNorm 1%Q; EvOptimizerStep; EvLrStep; EvZeroGrad]
  ++ (if use_ema a then [EvEmaStep] else [])
  ++ [EvProgress; EvGlobalStep (g + 1)%Z]
  ++ (if ((g + 1) mod checkpointing_steps a =? 0)%Z && is_main_process
      then [EvSaveState (g + 1)%Z] else []).

(** The calls of one micro-step; [boundary] tells whether it completes an
    optimization step. *)
Definition micro_step_events (a : args) (is_main_process : bool) (b : batch)
    (g : Z) (boundary : bool) : list event :=
  if boundary
  then [EvForward b; EvBackward b]
       ++ optimization_step_events a is_main_process g
       ++ [EvLog (g + 1)%Z]
  else [EvForward b; EvBackward b; EvLog g].
End TrainingLoop.

Arguments EvProgress {batch}.
Arguments EvClipGradNorm {batch} _.
Arguments EvOptimizerStep {batch}.
Arguments EvLrStep {batch}.
Arguments EvZeroGrad {batch}.
Arguments EvEmaStep {batch}.
Arguments EvGlobalStep {batch} _.
Arguments EvSaveState {batch} _.
Arguments EvLog {batch} _.

(* ===================================================================== *)
(** ** Sampling and saving with the EMA weights (lines 797--854) *)
(* ===================================================================== *)

Section Evaluation.
(** Parameter collections, image batches, the noise scheduler. *)
Variables params images scheduler : Type.

(** The network and the EMA tracker, as the evaluation code sees them.
    [torch_rng] is the state of the global random generator, which training
    advances; [epoch] is the loop variable. *)
Record net_state : Type := mkNet {
  live : params;                  (* unet.parameters() *)
  shadow : params;                (* ema_model.shadow_params *)
  temp_stored : option params;    (* ema_model.temp_stored_params *)
  torch_rng : Z;
  epoch : Z
}.

(** [DDPMPipeline(unet, scheduler)(generator, batch_size,
    num_inference_steps, output_type="numpy").images]: it reads the
    network, draws from the generator it is given (here: the seed the
    generator was made from), and returns images or raises.  It hands back
    the parameters as it leaves them. *)
Variable pipeline_call :
  scheduler -> Z -> Z -> Z -> params -> params * result images.

(** [pipeline.save_pretrained(output_dir)]. *)
Variable save_pretrained : scheduler -> string -> params -> params * result unit.

(** Modelled from the spec: [EMAModel.store], [copy_to] and [restore] of
    diffusers, "a save/swap/restore triple enabling temporary substitution
    of live parameters with the shadow".  [restore] without a stored copy
    raises. *)
Definition ema_store : M net_state unit :=
  modify (fun s => mkNet (live s) (shadow s) (Some (live s))
                         (torch_rng s) (epoch s)).

Definition ema_copy_to : M net_state unit :=
  modify (fun s => mkNet (shadow s) (shadow s) (temp_stored s)
                         (torch_rng s) (epoch s)).

Definition ema_restore : M net_state unit :=
  s <- get ;;
  match temp_stored s with
  | None =>
      raise (RuntimeError
               "This ExponentialMovingAverage has no `store()`ed weights to `restore()`")
  | Some p =>
      modify (fun s => mkNet p (shadow s) None (torch_rng s) (epoch s))
  end.

(** A call into a collaborator that works on the live parameters. *)
Definition on_live {A} (f : params -> params * result A) : M net_state A :=
  fun s =>
    let (p, r) := f (live s) in
    (mkNet p (shadow s) (temp_stored s) (torch_rng s) (epoch s), r).

(** [torch.Generator(device).manual_seed(0)]: a fresh generator; its state
    is its seed. *)
Definition manual_seed (seed : Z) : Z := seed.

(** Lines 799--820: the sample images of an epoch. *)
Definition sample_images_block (use_ema : bool) (noise_scheduler : scheduler)
    (eval_batch_size ddpm_num_inference_steps : Z) : M net_state images :=
  when use_ema (ema_store ;; ema_copy_to) ;;
  let generator := manual_seed 0 in
  imgs <- on_live (pipeline_call noise_scheduler generator eval_batch_size
                                 ddpm_num_inference_steps) ;;
  when use_ema ema_restore ;;
  ret imgs.

(** Lines 840--854: saving the model. *)
Definition save_model_block (use_ema : bool) (noise_scheduler : scheduler)
    (output_dir : string) : M net_state unit :=
  when use_ema (ema_store ;; ema_copy_to) ;;
  on_live (save_pretrained noise_scheduler output_dir) ;;
  when use_ema ema_restore.
End Evaluation.


(* ===================================================================== *)
(** ** Checkpoint names (line 731 of the script) *)
(* ===================================================================== *)

(** The character of a decimal digit. *)
Definition digit_char (d : Z) : ascii := ascii_of_nat (48 + Z.to_nat d).

(** The decimal digits of a natural number in front of [tail], most
    significant first.  [fuel] bounds the number of digits. *)
Fixpoint str_digits (fuel : nat) (n : Z) (tail : list ascii) : list ascii :=
  match fuel with
  | O => tail
  | S fuel' =>
      let d := digit_char (n mod 10) in
      if (n <? 10)%Z then d :: tail
      else str_digits fuel' (n / 10)%Z (d :: tail)
  end.

(** [str(n)], which an f-string applies to an integer: decimal digits, a
    minus sign in front of a negative number.  A number has no more decimal
    digits than bits, so the fuel is never what ends the recursion (lemma
    [str_digits_value]). *)
Definition py_str (n : Z) : string :=
  if (n <? 0)%Z
  then String "-"%char
         (string_of_list_ascii
            (str_digits (S (Z.to_nat (Z.log2 (- n)))) (- n)%Z []))
  else string_of_list_ascii (str_digits (S (Z.to_nat (Z.log2 n))) n []).

(** [f"checkpoint-{global_step}"], the last component of [save_path]. *)
Definition checkpoint_name (global_step : Z) : string :=
  ("checkpoint-" ++ py_str global_step)%string.

(* ===================================================================== *)
(** ** The epochs of a run (lines 667--743 of the script) *)
(* ===================================================================== *)

(** The same command line without [--resume_from_checkpoint]. *)
Definition without_resume (a : args) : args :=
  mkArgs (gradient_accumulation_steps a) (use_ema a) (checkpointing_steps a)
         (prediction_type a) None.

(** Accumulation groups begun by the first [x] batches of an epoch. *)
Definition ceil_steps (a : args) (x : Z) : Z :=
  ((x + gradient_accumulation_steps a - 1) / gradient_accumulation_steps a)%Z.

Section Epochs.
Variable batch : Type.

(** The steps at which [accelerator.save_state] was called. *)
Fixpoint saved_steps (tr : list (event batch)) : list Z :=
  match tr with
  | [] => []
  | EvSaveState g :: tr' => g :: saved_steps tr'
  | _ :: tr' => saved_steps tr'
  end.

(** [enumerate(train_dataloader)] in a given epoch: the batches in the order
    the loader yields them there. *)
Variable loader : Z -> list batch.

(** What follows the inner loop in an epoch (lines 742--857: the barriers,
    the validation pass, sampling and saving).  It reads the loop's variables
    and leaves them as they are; [Some e] when it raises [e]. *)
Variable epoch_tail : Z -> loop_state batch -> option exn.

(** [for epoch in range(first_epoch, args.num_epochs)], from [epoch], with
    [n] epochs to go. *)
Fixpoint epochs_from (a : args) (is_main_process : bool)
    (first_epoch resume_step : Z) (epoch : Z) (n : nat)
  : M (loop_state batch) unit :=
  match n with
  | O => ret tt
  | S n' =>
      run_epoch a is_main_process epoch first_epoch resume_step (loader epoch) ;;
      s <- get ;;
      match epoch_tail epoch s with
      | Some e => raise e
      | None => ret tt
      end ;;
      epochs_from a is_main_process first_epoch resume_step (epoch + 1)%Z n'
  end.

Definition training_epochs (a : args) (is_main_process : bool)
    (num_epochs first_epoch resume_step : Z) : M (loop_state batch) unit :=
  epochs_from a is_main_process first_epoch resume_step first_epoch
              (Z.to_nat (num_epochs - first_epoch)).
End Epochs.

(** Lines 626--627: ["Total optimization steps"]. *)
Definition max_train_steps (num_epochs len_train_dataloader
    gradient_accumulation_steps : Z) : result Z :=
  rbind (Py.ceil_div len_train_dataloader gradient_accumulation_steps)
        (fun num_update_steps_per_epoch =>
  Ok (num_epochs * num_update_steps_per_epoch)%Z).

(* ===================================================================== *)
(** ** The validation pass (lines 747--792 of the script) *)
(* ===================================================================== *)

(** What one iteration of the validation loop works on: the network's
    output for the noisy images, the noise and the timesteps drawn, and the
    images of the batch. *)
Record eval_batch : Type := mkEval {
  ev_model_output : tensor Q;
  ev_noise : tensor Q;
  ev_test_images : tensor Q;
  ev_timesteps : list Z
}.

(** [for step, batch in enumerate(eval_dataloader)]: the loss of each batch,
    computed as in training, is added to [total_loss]; [num_batches] counts. *)
Fixpoint validation_totals (prediction_type : string) (alphas_cumprod : list Q)
    (batches : list eval_batch) (total_loss : Q) (num_batches : Z)
  : result (Q * Z) :=
  match batches with
  | [] => Ok (total_loss, num_batches)
  | b :: rest =>
      rbind (training_loss prediction_type alphas_cumprod (ev_model_output b)
                           (ev_noise b) (ev_test_images b) (ev_timesteps b))
            (fun loss =>
      validation_totals prediction_type alphas_cumprod rest
                        (total_loss + loss)%Q (num_batches + 1)%Z)
  end.

(** [average_loss = total_loss / num_batches]. *)
Definition validation_loss (prediction_type : string) (alphas_cumprod : list Q)
    (batches : list eval_batch) : result Q :=
  rbind (validation_totals prediction_type alphas_cumprod batches 0%Q 0%Z)
        (fun totals =>
  if (snd totals =? 0)%Z then Raise ZeroDivisionError
  else Ok (fst totals / inject_Z (snd totals))%Q).

(* ===================================================================== *)
(** ** The end of an epoch (lines 795--857 of the script) *)
(* ===================================================================== *)

(** The command-line arguments the end of an epoch reads. *)
Record end_args : Type := mkEndArgs {
  e_use_ema : bool;
  e_logger : string;
  e_push_to_hub : bool;
  e_save_images_epochs : Z;
  e_save_model_epochs : Z;
  e_num_epochs : Z;
  e_eval_batch_size : Z;
  e_ddpm_num_inference_steps : Z;
  e_output_dir : string
}.

Section EpochEnd.
Variables params images scheduler : Type.

Variable pipeline_call :
  scheduler -> Z -> Z -> Z -> params -> params * result images.
Variable save_pretrained : scheduler -> string -> params -> params * result unit.

(** [(images * 255).round().astype("uint8")]. *)
Variable to_uint8 : images -> images.

(** [tracker.add_images("test_samples", ..., epoch)] of tensorboard and
    [accelerator.get_tracker("wandb").log(..., step=global_step)]:
    [Some e] when the call raises [e]. *)
Variable tensorboard_add_images : images -> Z -> option exn.
Variable wandb_log : images -> Z -> Z -> option exn.

(** [repo.push_to_hub(commit_message=f"Epoch {epoch}", blocking=False)]. *)
Variable push_to_hub : Z -> option exn.

(** A call into a collaborator that does not touch the network. *)
Definition outside {S : Type} (o : option exn) : M S unit :=
  match o with
  | Some e => raise e
  | None => ret tt
  end.

(** Lines 797--857.  In [epoch % n == 0 or epoch == last] the remainder is
    computed first, so a zero [n] raises. *)
Definition epoch_end (c : end_args) (is_main_process : bool)
    (noise_scheduler : scheduler) (epoch global_step : Z)
  : M (net_state params) unit :=
  when is_main_process
    (r <- lift (Py.pymod epoch (e_save_images_epochs c)) ;;
     when ((r =? 0)%Z || (epoch =? e_num_epochs c - 1)%Z)
       (imgs <- sample_images_block pipeline_call (e_use_ema c) noise_scheduler
                                    (e_eval_batch_size c)
                                    (e_ddpm_num_inference_steps c) ;;
        let images_processed := to_uint8 imgs in
        if String.eqb (e_logger c) "tensorboard"
        then outside (tensorboard_add_images images_processed epoch)
        else if String.eqb (e_logger c) "wandb"
        then outside (wandb_log images_processed epoch global_step)
        else ret tt) ;;
     r <- lift (Py.pymod epoch (e_save_model_epochs c)) ;;
     when ((r =? 0)%Z || (epoch =? e_num_epochs c - 1)%Z)
       (save_model_block save_pretrained (e_use_ema c) noise_scheduler
                         (e_output_dir c) ;;
        when (e_push_to_hub c) (outside (push_to_hub epoch)))).

(** *** What the end of an epoch may do to the network *)

(** The outcome [r] is an exception raised by the sampling pipeline or by
    the save, called on the swapped-in shadow parameters of [s]. *)
Definition swap_failure {A : Type} (c : end_args) (noise_scheduler : scheduler)
    (s : net_state params) (r : result A) : Prop :=
  exists p e,
    r = Raise e
    /\ (pipeline_call noise_scheduler 0%Z (e_eval_batch_size c)
                      (e_ddpm_num_inference_steps c) (shadow s)
        = (p, Raise e)
        \/ save_pretrained noise_scheduler (e_output_dir c) (shadow s)
           = (p, Raise e)).

(** The shadow is the one of [s]; the live parameters are those of [s]
    unless the outcome is a [swap_failure]. *)
Definition network_kept {A : Type} (c : end_args) (noise_scheduler : scheduler)
    (s : net_state params) (out : net_state params * result A) : Prop :=
  shadow (fst out) = shadow s
  /\ (live (fst out) = live s \/ swap_failure c noise_scheduler s (snd out)).
End EpochEnd.

(* ===================================================================== *)
(** ** The checkpoint hooks (lines 392--419 of the script) *)
(* ===================================================================== *)

Section Hooks.
(** A model's (or the EMA tracker's) configuration and weights; the entries
    of the [weights] list accelerate hands to the save hook. *)
Variables params weight : Type.

(** What [from_pretrained] raises for a folder where nothing was saved. *)
Variable not_found : exn.

(** The objects the hooks work on.  The lists [models] and [weights] are the
    caller's: the hooks pop from them in place.  [files d sub] is what
    [save_pretrained] last wrote to folder [sub] of directory [d]
    ([os.path.join(d, sub)], or [from_pretrained(d, subfolder=sub)]). *)
Record hook_state : Type := mkHook {
  objects : nat -> params;        (* the state of each model object *)
  ema_shadow : params;            (* the state of [ema_model] *)
  files : string -> string -> option params;
  models : list nat;
  weights : list weight
}.

Definition write_file (d sub : string) (p : params)
    (fs : string -> string -> option params) : string -> string -> option params :=
  fun d' sub' =>
    if String.eqb d' d && String.eqb sub' sub then Some p else fs d' sub'.

Definition set_object (m : nat) (p : params) (objs : nat -> params)
  : nat -> params :=
  fun m' => if Nat.eqb m' m then p else objs m'.

(** [l.pop()]: the last element, removed from the list; [IndexError] on an
    empty list. *)
Definition pop_weights : M hook_state unit :=
  st <- get ;;
  match weights st with
  | [] => raise IndexError
  | _ :: _ =>
      modify (fun st => mkHook (objects st) (ema_shadow st) (files st)
                               (models st) (removelast (weights st)))
  end.

Definition pop_models : M hook_state nat :=
  st <- get ;;
  match models st with
  | [] => raise IndexError
  | m0 :: _ =>
      modify (fun st => mkHook (objects st) (ema_shadow st) (files st)
                               (removelast (models st)) (weights st)) ;;
      ret (last (models st) m0)
  end.

(** [for i, model in enumerate(models)] of the save hook. *)
Fixpoint save_each (output_dir : string) (iterated : list nat)
  : M hook_state unit :=
  match iterated with
  | [] => ret tt
  | model :: rest =>
      modify (fun st =>
                mkHook (objects st) (ema_shadow st)
                       (write_file output_dir "unet" (objects st model) (files st))
                       (models st) (weights st)) ;;
      pop_weights ;;
      save_each output_dir rest
  end.

(** [save_model_hook(models, weights, output_dir)]. *)
Definition save_model_hook (use_ema : bool) (output_dir : string)
  : M hook_state unit :=
  when use_ema
    (modify (fun st =>
               mkHook (objects st) (ema_shadow st)
                      (write_file output_dir "unet_ema" (ema_shadow st) (files st))
                      (models st) (weights st))) ;;
  st <- get ;;
  save_each output_dir (models st).

Definition read_file (d sub : string) : M hook_state params :=
  st <- get ;;
  match files st d sub with
  | Some p => ret p
  | None => raise not_found
  end.

(** [for i in range(len(models))] of the load hook. *)
Fixpoint load_each (input_dir : string) (n : nat) : M hook_state unit :=
  match n with
  | O => ret tt
  | S n' =>
      model <- pop_models ;;
      load_model <- read_file input_dir "unet" ;;
      modify (fun st => mkHook (set_object model load_model (objects st))
                               (ema_shadow st) (files st) (models st)
                               (weights st)) ;;
      load_each input_dir n'
  end.

(** [load_model_hook(models, input_dir)]. *)
Definition load_model_hook (use_ema : bool) (input_dir : string)
  : M hook_state unit :=
  when use_ema
    (load_model <- read_file input_dir "unet_ema" ;;
     modify (fun st => mkHook (objects st) load_model (files st) (models st)
                              (weights st))) ;;
  st <- get ;;
  load_each input_dir (length (models st)).
End Hooks.

(* ===================================================================== *)
(** ** A resumed run beside the uninterrupted one (lines 659--677) *)
(* ===================================================================== *)



Section RunTraces.
Variable batch : Type.





End RunTraces.
(* ===================================================================== *)
(** ** Properties of the tensor operations *)
(* ===================================================================== *)

Lemma nth_error_repeat_lt {T : Type} (x : T) n i :
  i < n -> nth_error (repeat x n) i = Some x.
Proof.
  revert i; induction n as [|n IH]; intros i Hi; [lia|].
  destruct i; simpl; [easy|]. apply IH; lia.
Qed.

Section ListFacts.
Context {A B : Type}.

Lemma mapM_length (f : A -> option B) l r :
  mapM f l = Some r -> length r = length l.
Proof.
  revert r; induction l as [|x l IH]; simpl; intros r H.
  - now inversion H.
  - destruct (f x); [|discriminate].
    destruct (mapM f l); [|discriminate].
    inversion H; subst; simpl. f_equal. now apply IH.
Qed.

Lemma mapM_nth (f : A -> option B) l r i x :
  mapM f l = Some r -> nth_error l i = Some x ->
  exists y, f x = Some y /\ nth_error r i = Some y.
Proof.
  revert r i; induction l as [|a l IH]; simpl; intros r i H Hi.
  - destruct i; discriminate.
  - destruct (f a) eqn:Ea; [|discriminate].
    destruct (mapM f l) eqn:El; [|discriminate].
    inversion H; subst. destruct i as [|i]; simpl in *.
    + inversion Hi; subst. eauto.
    + eapply IH; eauto.
Qed.

Lemma mapM_total (f : A -> option B) l :
  (forall x, In x l -> exists y, f x = Some y) -> exists r, mapM f l = Some r.
Proof.
  induction l as [|a l IH]; simpl; intros H; eauto.
  destruct (H a) as [y Hy]; auto. rewrite Hy.
  destruct IH as [r Hr]; auto. rewrite Hr. eauto.
Qed.

Lemma mapM_fails (f : A -> option B) l x :
  In x l -> f x = None -> mapM f l = None.
Proof.
  induction l as [|a l IH]; simpl; intros Hin Hx; [easy|].
  destruct Hin as [->|Hin].
  - now rewrite Hx.
  - destruct (f a); auto. now rewrite IH.
Qed.

Lemma chunks_singletons (l : list A) :
  chunks (length l) 1 l = map (fun x => [x]) l.
Proof. induction l as [|x l IH]; simpl; [easy|]. now rewrite IH. Qed.

Lemma concat_repeat_repeat (x : A) m t :
  concat (repeat (repeat x m) t) = repeat x (t * m).
Proof.
  induction t as [|t IH]; simpl; [easy|].
  now rewrite IH, repeat_app.
Qed.

Lemma nth_error_flat_repeat (g : A -> B) (l : list A) n i off :
  off < n ->
  nth_error (flat_map (fun x => repeat (g x) n) l) (i * n + off)
  = option_map g (nth_error l i).
Proof.
  intros Hoff. revert i; induction l as [|x l IH]; intros i; simpl.
  - destruct i; simpl; now rewrite ?nth_error_nil.
  - destruct i as [|i]; simpl.
    + rewrite nth_error_app1 by (rewrite repeat_length; lia).
      now apply nth_error_repeat_lt.
    + rewrite nth_error_app2 by (rewrite repeat_length; lia).
      rewrite repeat_length.
      replace (n + i * n + off - n) with (i * n + off) by lia.
      apply IH.
Qed.

Lemma flat_map_length_const (g : A -> list B) (l : list A) n :
  (forall x, length (g x) = n) -> length (flat_map g l) = length l * n.
Proof.
  intros Hg. induction l as [|x l IH]; simpl; [easy|].
  rewrite length_app, Hg, IH. lia.
Qed.
End ListFacts.

Section ExpandFacts.
Context {A : Type}.

Lemma numel_ones k : numel (repeat 1 k) = 1.
Proof.
  induction k as [|k IH]; [reflexivity|].
  cbn [repeat numel fold_right]. fold (numel (repeat 1 k)).
  rewrite IH. reflexivity.
Qed.

Lemma expandable_ones dims : expandable (repeat 1 (length dims)) dims = true.
Proof.
  induction dims as [|t dims IH]; simpl; [easy|].
  rewrite IH. now rewrite orb_true_r.
Qed.

(** One element seen through singleton dimensions fills the target. *)
Lemma expand_data_ones (dims : list nat) (x : A) :
  expand_data (repeat 1 (length dims)) dims [x] = repeat x (numel dims).
Proof.
  induction dims as [|t dims IH]; [reflexivity|].
  cbn [length repeat expand_data].
  rewrite numel_ones. cbn [chunks firstn map].
  rewrite IH. cbn [concat]. rewrite app_nil_r.
  destruct (Nat.eqb_spec 1 t) as [<-|_].
  - cbn [numel fold_right]. fold (numel dims). now rewrite Nat.mul_1_l.
  - rewrite concat_repeat_repeat. reflexivity.
Qed.

(** A batch vector of shape [(B, 1, ..., 1)] expanded to [(B, dims)]:
    every element is repeated over the trailing dimensions. *)
Lemma expand_data_batch (dims : list nat) (d : list A) :
  expand_data (length d :: repeat 1 (length dims)) (length d :: dims) d
  = flat_map (fun x => repeat x (numel dims)) d.
Proof.
  cbn [expand_data]. rewrite Nat.eqb_refl, numel_ones, chunks_singletons.
  rewrite map_map, flat_map_concat_map. f_equal.
  apply map_ext. intros x. apply expand_data_ones.
Qed.
End ExpandFacts.

Section ExtractFacts.
Context {A F : Type} (float : A -> F).

Lemma pad_rank_shape fuel (res : tensor F) bs :
  length bs - rank res <= fuel ->
  pad_rank fuel res bs
  = mkT (shape res ++ repeat 1 (length bs - rank res)) (data res).
Proof.
  revert res; induction fuel as [|fuel IH]; intros res Hf; simpl.
  - replace (length bs - rank res) with 0 by lia.
    simpl. rewrite app_nil_r. now destruct res.
  - destruct (Nat.ltb_spec (rank res) (length bs)) as [Hlt|Hge].
    + rewrite IH by (unfold rank, unsqueeze_last in *; simpl;
                     rewrite length_app; simpl; lia).
      unfold rank, unsqueeze_last in *; simpl.
      rewrite length_app; simpl.
      replace (length bs - length (shape res))
        with (S (length bs - (length (shape res) + 1))) by lia.
      simpl. now rewrite <- app_assoc.
    + replace (length bs - rank res) with 0 by lia.
      simpl. rewrite app_nil_r. now destruct res.
Qed.

(** The loop leaves with its condition false: the fuel is never what
    stops it. *)
Lemma pad_rank_exits (res : tensor F) bs :
  (rank (pad_rank (length bs) res bs) <? length bs) = false.
Proof.
  rewrite pad_rank_shape by lia. unfold rank; simpl.
  rewrite length_app, repeat_length. apply Nat.ltb_ge. lia.
Qed.

Lemma index1_in_bounds (arr : list A) (t : Z) :
  in_bounds arr t ->
  exists v, index1 arr t = Some v /\ nth_error arr (position arr t) = Some v.
Proof.
  unfold in_bounds, position. intros Ht. unfold index1.
  destruct (Z.ltb_spec t 0) as [Hneg|Hpos].
  - replace ((0 <=? t)%Z) with false by (symmetry; apply Z.leb_gt; lia).
    replace ((- Z.of_nat (length arr) <=? t)%Z) with true
      by (symmetry; apply Z.leb_le; lia).
    cbn [andb].
    destruct (nth_error arr (Z.to_nat (t + Z.of_nat (length arr)))) eqn:E; eauto.
    apply nth_error_None in E. lia.
  - replace ((0 <=? t)%Z) with true by (symmetry; apply Z.leb_le; lia).
    replace ((t <? Z.of_nat (length arr))%Z) with true
      by (symmetry; apply Z.ltb_lt; lia).
    cbn [andb].
    destruct (nth_error arr (Z.to_nat t)) eqn:E; eauto.
    apply nth_error_None in E. lia.
Qed.

Lemma index1_out_of_bounds (arr : list A) (t : Z) :
  ~ in_bounds arr t -> index1 arr t = None.
Proof.
  unfold in_bounds. intros Ht. unfold index1.
  destruct (Z.leb_spec 0 t), (Z.ltb_spec t (Z.of_nat (length arr))); cbn [andb];
    try lia;
    destruct (Z.leb_spec (- Z.of_nat (length arr)) t), (Z.ltb_spec t 0);
    cbn [andb]; try lia; reflexivity.
Qed.

(** What [_extract_into_tensor] returns once the lookups succeeded. *)
Lemma extract_value (arr : list A) ts dims vs :
  mapM (index1 arr) ts = Some vs ->
  _extract_into_tensor float arr ts (length ts :: dims)
  = Ok (mkT (length ts :: dims)
          (flat_map (fun x => repeat (float x) (numel dims)) vs)).
Proof.
  intros Hvs. unfold _extract_into_tensor, index_select. rewrite Hvs.
  rewrite pad_rank_shape by lia.
  unfold expand, rank, map_t; cbn [shape data length].
  rewrite length_app, repeat_length. cbn [length].
  replace (S (length dims) - 1) with (length dims) by lia.
  replace (S (length dims) <? 1 + length dims) with false
    by (symmetry; apply Nat.ltb_ge; lia).
  replace (S (length dims) - (1 + length dims)) with 0 by lia.
  cbn [repeat app expandable].
rewrite Nat.eqb_refl, expandable_ones. cbn [orb andb of_option].
f_equal. f_equal.
  pose proof (mapM_length _ _ Hvs) as Hlen.
  rewrite <- Hlen, <- (length_map float vs).
  rewrite expand_data_batch.
  rewrite flat_map_concat_map, map_map, <- flat_map_concat_map.
  reflexivity.
Qed.
End ExtractFacts.

Example extract_demo :
  _extract_into_tensor (fun x : Z => x) [10; 20; 30]%Z [2; 0]%Z [2; 1; 3]
  = Ok (mkT [2; 1; 3] [30; 30; 30; 10; 10; 10]%Z).
Proof. reflexivity. Qed.

(** C8, as stated, fails: an index below zero but not below [-len(arr)] is
    outside [[0, len(arr))], and the lookup succeeds, counting from the end
    of the array. *)
Lemma extract_negative_index_succeeds :
  ~ (0 <= -1 < Z.of_nat (length [10; 20; 30]%Z))%Z /\
  _extract_into_tensor (fun x : Z => x) [10; 20; 30]%Z [-1]%Z [1; 2]
  = Ok (mkT [1; 2] [30; 30]%Z).
Proof. split; [lia | reflexivity]. Qed.

(** C8 (amended): for a 1-D array [arr], a batch of indices and a
    [broadcast_shape] whose first dimension is the batch length,
    [_extract_into_tensor] returns a tensor of that shape whose every element
    at batch position [i] is [arr[timesteps[i]]] (cast by [.float()]), as long
    as every index lies in [[-len(arr), len(arr))], a negative index counting
    from the end; it fails as soon as one index lies outside that range. *)
Theorem extract_into_tensor_spec {A F : Type} (float : A -> F)
    (arr : list A) (timesteps : list Z) (dims : list nat) :
  ((forall t, In t timesteps -> in_bounds arr t) ->
   exists r,
     _extract_into_tensor float arr timesteps (length timesteps :: dims) = Ok r
     /\ shape r = length timesteps :: dims
     /\ well_formed r
     /\ forall i off, i < length timesteps -> off < numel dims ->
          exists v,
            nth_error arr (position arr (nth i timesteps 0%Z)) = Some v
            /\ nth_error (data r) (i * numel dims + off) = Some (float v))
  /\
  ((exists t, In t timesteps /\ ~ in_bounds arr t) ->
   forall broadcast_shape,
     _extract_into_tensor float arr timesteps broadcast_shape = Raise IndexError).
Proof.
  split.
  - intros Hin.
    destruct (mapM_total (index1 arr) timesteps) as [vs Hvs].
    { intros t Ht. destruct (index1_in_bounds (Hin t Ht)) as [v [Hv _]]. eauto. }
    eexists. split; [apply extract_value; exact Hvs|].
    cbn [shape data]. split; [reflexivity|]. split.
    + unfold well_formed; cbn [shape data numel fold_right]. fold (numel dims).
      rewrite (flat_map_length_const _ vs (n:=numel dims))
        by (intros; apply repeat_length).
      now rewrite (mapM_length _ _ Hvs).
    + intros i off Hi Hoff.
      rewrite nth_error_flat_repeat by assumption.
      assert (Hnth : nth_error timesteps i = Some (nth i timesteps 0%Z))
        by (apply nth_error_nth'; assumption).
      destruct (mapM_nth _ _ _ Hvs Hnth) as [y [Hy Hry]].
      rewrite Hry. cbn [option_map].
      destruct (@index1_in_bounds A arr (nth i timesteps 0%Z)) as [v [Hv Hpos]].
      { apply Hin. eapply nth_error_In; eauto. }
      exists v. split; [assumption|]. congruence.
  - intros [t [Ht Hout]] bs. unfold _extract_into_tensor, index_select.
    rewrite (mapM_fails (index1 arr) timesteps t Ht (index1_out_of_bounds Hout)).
    reflexivity.
Qed.

Lemma extract_into_tensor_spec_witness :
  (exists r,
     _extract_into_tensor (fun x : Z => x) [10; 20; 30]%Z [2; -3]%Z [2; 4] = Ok r
     /\ shape r = [2; 4])
  /\ _extract_into_tensor (fun x : Z => x) [10; 20; 30]%Z [2; 3]%Z [2; 4]
     = Raise IndexError.
Proof.
  destruct (extract_into_tensor_spec (fun x : Z => x) [10; 20; 30]%Z [2; -3]%Z [4])
    as [Hok _].
  destruct (extract_into_tensor_spec (fun x : Z => x) [10; 20; 30]%Z [2; 3]%Z [4])
    as [_ Hfail].
  split.
  - destruct Hok as [r [Hr [Hs _]]].
    + intros t [<-|[<-|[]]]; unfold in_bounds; simpl; lia.
    + exists r. split; assumption.
  - apply Hfail. exists 3%Z. split; [simpl; auto|].
    unfold in_bounds; simpl; lia.
Defined.

(* ===================================================================== *)
(** ** The training objective *)
(* ===================================================================== *)

Section Map2Facts.
Context {A B C : Type} (f : A -> B -> C).

Lemma length_map2 l1 l2 :
  length (map2 f l1 l2) = Nat.min (length l1) (length l2).
Proof.
  revert l2; induction l1 as [|x l1 IH]; intros [|y l2]; simpl; auto.
Qed.

Lemma nth_map2 l1 l2 p d d1 d2 :
  p < length l1 -> p < length l2 ->
  nth p (map2 f l1 l2) d = f (nth p l1 d1) (nth p l2 d2).
Proof.
  revert l2 p; induction l1 as [|x l1 IH]; intros [|y l2] [|p]; simpl;
    intros H1 H2; try lia; auto.
  apply IH; lia.
Qed.
End Map2Facts.

Lemma map2_map_r {A B C} (f : A -> B -> C) (g : A -> B) (l : list A) :
  map2 f l (map g l) = map (fun a => f a (g a)) l.
Proof. induction l as [|x l IH]; simpl; [easy|]. now rewrite IH. Qed.

Lemma flat_map_repeat_1 {A B} (g : A -> B) (l : list A) :
  flat_map (fun x => repeat (g x) 1) l = map g l.
Proof. induction l as [|x l IH]; simpl; [easy|]. now f_equal. Qed.

Lemma nth_flat_repeat {A B} (g : A -> B) (l : list A) n p d d' :
  p < length l * n ->
  nth p (flat_map (fun x => repeat (g x) n) l) d = g (nth (p / n) l d').
Proof.
  intros Hp.
  assert (Hn : n <> 0) by (intros ->; lia).
  assert (Hdiv : p / n < length l).
  { apply Nat.Div0.div_lt_upper_bound. lia. }
  apply nth_error_nth.
  rewrite (Nat.div_mod_eq p n) at 1.
  replace (n * (p / n) + p mod n) with (p / n * n + p mod n) by lia.
  rewrite nth_error_flat_repeat by (apply Nat.mod_upper_bound; assumption).
  rewrite (nth_error_nth' l d' Hdiv). reflexivity.
Qed.

Section SameShape.
Context {A : Type}.

Lemma chunks_concat n m (d : list A) :
  length d = n * m -> concat (chunks n m d) = d.
Proof.
  revert d; induction n as [|n IH]; intros d Hd; simpl in *.
  - destruct d; [reflexivity | discriminate].
  - rewrite IH by (rewrite length_skipn; lia).
    apply firstn_skipn.
Qed.

Lemma chunks_lengths n m (d : list A) c :
  length d = n * m -> In c (chunks n m d) -> length c = m.
Proof.
  revert d; induction n as [|n IH]; intros d Hd Hin; simpl in *; [easy|].
  destruct Hin as [<-|Hin].
  - rewrite length_firstn. lia.
  - apply (IH (skipn m d)); [rewrite length_skipn; lia | assumption].
Qed.

Lemma expand_data_same (s : list nat) (d : list A) :
  length d = numel s -> expand_data s s d = d.
Proof.
  revert d; induction s as [|a s IH]; intros d Hd; [reflexivity|].
  cbn [expand_data]. rewrite Nat.eqb_refl.
  cbn [numel fold_right] in Hd. fold (numel s) in Hd.
  rewrite <- (chunks_concat a (numel s) d Hd) at 2.
  f_equal. rewrite <- (map_id (chunks a (numel s) d)) at 2.
  apply map_ext_in. intros c Hc. apply IH.
  eapply chunks_lengths; eauto.
Qed.

Lemma expandable_same (s : list nat) : expandable s s = true.
Proof. induction s as [|a s IH]; simpl; [easy|]. now rewrite Nat.eqb_refl, IH. Qed.

Lemma expand_same (t : tensor A) :
  well_formed t -> expand t (shape t) = Some t.
Proof.
  intros Hwf. unfold expand, rank.
  rewrite Nat.ltb_irrefl, Nat.sub_diag. cbn [repeat app].
  rewrite expandable_same, expand_data_same by assumption.
  now destruct t.
Qed.

Lemma broadcast_dims_same (s : list nat) : broadcast_dims s s = Some s.
Proof. induction s as [|a s IH]; simpl; [easy|]. now rewrite IH, Nat.eqb_refl. Qed.

Lemma broadcast_shapes_same (s : list nat) : broadcast_shapes s s = Some s.
Proof.
  unfold broadcast_shapes. rewrite Nat.max_id, Nat.sub_diag.
  apply broadcast_dims_same.
Qed.

Lemma broadcast_dims_ones (dims : list nat) :
  broadcast_dims (repeat 1 (length dims)) dims = Some dims.
Proof.
  induction dims as [|t dims IH]; [reflexivity|].
  cbn [length repeat broadcast_dims]. rewrite IH.
  destruct (Nat.eqb_spec 1 t) as [<-|_]; reflexivity.
Qed.
End SameShape.

(** An elementwise operation on two tensors of one shape. *)
Lemma binop_same_shape {A B C} (f : A -> B -> C) (x : tensor A) (y : tensor B) :
  shape x = shape y -> well_formed x -> well_formed y ->
  binop f x y = Some (mkT (shape x) (map2 f (data x) (data y))).
Proof.
  intros Hs Hx Hy. unfold binop. rewrite <- Hs, broadcast_shapes_same.
  rewrite (expand_same Hx). rewrite Hs, (expand_same Hy). reflexivity.
Qed.

(** A per-sample column [(B, 1, 1, 1)] against a batch [(B, C, H, W)]. *)
Lemma binop_batch_column {A B C} (f : A -> B -> C) (ws : list A) (y : tensor B)
    (dims : list nat) :
  length dims = 3 ->
  shape y = length ws :: dims -> well_formed y ->
  binop f (mkT [length ws; 1; 1; 1] ws) y
  = Some (mkT (length ws :: dims)
              (map2 f (flat_map (fun w => repeat w (numel dims)) ws) (data y))).
Proof.
  intros Hd Hs Hy.
  destruct dims as [|c [|h [|w [|]]]]; try discriminate.
  unfold binop. cbn [shape]. rewrite Hs.
  unfold broadcast_shapes. cbn [length Nat.max Nat.sub repeat app].
  change [length ws; 1; 1; 1] with (length ws :: repeat 1 (length [c; h; w])).
  cbn [broadcast_dims]. fold (broadcast_dims (repeat 1 (length [c; h; w])) [c; h; w]).
  rewrite broadcast_dims_ones, Nat.eqb_refl.
  assert (Hx : expand (mkT (length ws :: repeat 1 (length [c; h; w])) ws)
                      (length ws :: [c; h; w])
               = Some (mkT (length ws :: [c; h; w])
                           (flat_map (fun w0 => repeat w0 (numel [c; h; w])) ws))).
  { unfold expand, rank. cbn [shape data].
    cbn [length repeat Nat.ltb Nat.leb Nat.sub app].
    change [1; 1; 1] with (repeat 1 (length [c; h; w])).
    cbn [expandable]. rewrite Nat.eqb_refl, expandable_ones. cbn [orb andb].
    now rewrite expand_data_batch. }
  rewrite Hx. rewrite <- Hs, (expand_same Hy). reflexivity.
Qed.

Lemma Qsum_all_zero (l : list Q) :
  Forall (fun x => x == 0)%Q l -> (Qsum l == 0)%Q.
Proof.
  induction 1 as [|x l Hx _ IH]; simpl; [reflexivity|].
  rewrite Hx, IH. reflexivity.
Qed.

Lemma mean_squared_error_self (d : list Q) : (mean_squared_error d d == 0)%Q.
Proof.
  unfold mean_squared_error.
  assert (H : (Qsum (map (fun p => (nth p d 0 - nth p d 0) * (nth p d 0 - nth p d 0))
                         (seq 0 (length d))) == 0)%Q).
  { apply Qsum_all_zero. apply Forall_forall. intros x Hx.
    apply in_map_iff in Hx. destruct Hx as [p [<- _]]. ring. }
  rewrite H. unfold Qdiv. ring.
Qed.

(** The elements of [F.mse_loss(..., reduction="none")] by position. *)
Lemma sq_err_by_position (dp dc : list Q) :
  length dp = length dc ->
  map2 sq_err dp dc
  = map (fun p => (nth p dp 0 - nth p dc 0) * (nth p dp 0 - nth p dc 0))%Q
        (seq 0 (length dp)).
Proof.
  intros Hlen.
  set (F := fun p => ((nth p dp 0 - nth p dc 0) * (nth p dp 0 - nth p dc 0))%Q).
  apply (nth_ext _ _ 0%Q (F 0)).
  - rewrite length_map2, length_map, length_seq. lia.
  - intros p Hp. rewrite length_map2 in Hp.
    rewrite (nth_map2 sq_err dp dc 0%Q 0%Q 0%Q) by lia.
    rewrite map_nth, seq_nth by lia. reflexivity.
Qed.

Lemma map_by_position {A B} (f : A -> B) (l : list A) (d : A) :
  map f l = map (fun i => f (nth i l d)) (seq 0 (length l)).
Proof.
  apply (nth_ext _ _ (f d) (f (nth 0 l d))).
  - now rewrite !length_map, length_seq.
  - intros p Hp. rewrite length_map in Hp.
    rewrite map_nth.
    rewrite (map_nth (fun i => f (nth i l d)) (seq 0 (length l)) 0 p).
    now rewrite seq_nth by lia.
Qed.

Lemma mapM_index1_nonneg {A} (arr : list A) (d : A) (ts : list Z) :
  (forall t, In t ts -> (0 <= t < Z.of_nat (length arr))%Z) ->
  mapM (index1 arr) ts = Some (map (fun t => nth (Z.to_nat t) arr d) ts).
Proof.
  induction ts as [|t ts IH]; intros Hin; [reflexivity|].
  cbn [mapM map].
  assert (Ht : (0 <= t < Z.of_nat (length arr))%Z) by (apply Hin; now left).
  unfold index1 at 1.
  replace ((0 <=? t)%Z) with true by (symmetry; apply Z.leb_le; lia).
  replace ((t <? Z.of_nat (length arr))%Z) with true
    by (symmetry; apply Z.ltb_lt; lia).
  cbn [andb].
  rewrite (nth_error_nth' arr d) by lia.
  rewrite IH by (intros; apply Hin; now right). reflexivity.
Qed.

(** The broadcast product of the per-sample weights with the squared errors,
    element by element. *)
Lemma weighted_errors_by_position (W : nat -> Q) (B n : nat) (dp dc : list Q) :
  length dp = B * n -> length dc = B * n ->
  map2 Qmult (flat_map (fun w => repeat w n) (map W (seq 0 B))) (map2 sq_err dp dc)
  = map (fun p => W (p / n)%nat
                  * ((nth p dp 0 - nth p dc 0) * (nth p dp 0 - nth p dc 0)))%Q
        (seq 0 (length dp)).
Proof.
  intros Hp Hc.
  set (G := fun p => (W (p / n)%nat
                      * ((nth p dp 0 - nth p dc 0) * (nth p dp 0 - nth p dc 0)))%Q).
  assert (HE : flat_map (fun w => repeat w n) (map W (seq 0 B))
               = flat_map (fun i => repeat (W i) n) (seq 0 B)).
  { rewrite !flat_map_concat_map, map_map. reflexivity. }
  rewrite HE.
  assert (HlenE : length (flat_map (fun i => repeat (W i) n) (seq 0 B)) = B * n).
  { rewrite (flat_map_length_const _ (seq 0 B) (n:=n))
      by (intros; apply repeat_length).
    now rewrite length_seq. }
  apply (nth_ext _ _ 0%Q (G 0)).
  - rewrite !length_map2, length_map, length_seq, HlenE. lia.
  - intros p Hlt. rewrite !length_map2, HlenE in Hlt.
    rewrite (nth_map2 Qmult _ _ 0%Q 0%Q 0%Q)
      by (rewrite ?length_map2, ?HlenE; lia).
    rewrite (nth_flat_repeat W (seq 0 B) n 0%Q 0) by (rewrite length_seq; lia).
    rewrite (nth_map2 sq_err dp dc 0%Q 0%Q 0%Q) by lia.
    rewrite map_nth, !seq_nth.
    + reflexivity.
    + lia.
    + apply Nat.Div0.div_lt_upper_bound. lia.
Qed.

(** C6: in noise mode ([prediction_type = "epsilon"]) the training loss of a
    batch is the plain mean squared error between the network's prediction
    and the injected noise; when the prediction is the noise, the loss is
    zero. *)
Theorem epsilon_loss_is_mse (alphas_cumprod : list Q)
    (model_output noise clean_images : tensor Q) (timesteps : list Z) :
  shape model_output = shape noise ->
  well_formed model_output -> well_formed noise ->
  0 < numel (shape model_output) ->
  exists loss,
    training_loss "epsilon" alphas_cumprod model_output noise clean_images timesteps
    = Ok loss
    /\ loss = mean_squared_error (data model_output) (data noise)
    /\ (model_output = noise -> (loss == 0)%Q).
Proof.
  intros Hs Hp Hn _.
  unfold training_loss. simpl String.eqb. cbv iota.
  unfold mse_loss, mse_loss_none.
  rewrite (binop_same_shape sq_err Hs Hp Hn). cbn [of_option].
  assert (Hlen : length (data model_output) = length (data noise)).
  { unfold well_formed in *. congruence. }
  assert (Heq : mean (mkT (shape model_output)
                          (map2 sq_err (data model_output) (data noise)))
                = mean_squared_error (data model_output) (data noise)).
  { unfold mean, mean_squared_error. cbn [data].
    rewrite sq_err_by_position by assumption.
    now rewrite length_map, length_seq. }
  eexists. split; [reflexivity|]. split; [exact Heq|].
  intros ->. rewrite Heq. apply mean_squared_error_self.
Qed.

Lemma epsilon_loss_is_mse_witness :
  exists loss,
    training_loss "epsilon" [] (mkT [2; 1] [1 # 2; 3 # 1]%Q)
                  (mkT [2; 1] [1 # 2; 3 # 1]%Q) (mkT [] []) []
    = Ok loss
    /\ (loss == 0)%Q.
Proof.
  destruct (epsilon_loss_is_mse [] (model_output := mkT [2; 1] [1 # 2; 3 # 1]%Q)
              (noise := mkT [2; 1] [1 # 2; 3 # 1]%Q) (mkT [] []) [])
    as [loss [H1 [_ H3]]];
    [reflexivity | reflexivity | reflexivity | simpl; lia |].
  exists loss. split; [exact H1 | apply H3; reflexivity].
Defined.

(** C5: in direct-sample mode ([prediction_type = "sample"]) the training
    loss of a batch of shape [(B, C, H, W)] is the mean, over all elements,
    of [snr_weight * (prediction - clean_image)^2], the weight of an element
    being [alpha_bar_t / (1 - alpha_bar_t)] at the timestep of the sample the
    element belongs to; the weight multiplies each element before the mean
    and nothing divides by the weights.  (The batch is not empty and no
    [alpha_bar_t] is 1, as in a real schedule: there the rationals of the
    model are the numbers of the script.) *)
Theorem sample_loss_is_snr_weighted_mse (alphas_cumprod : list Q)
    (model_output noise clean_images : tensor Q) (timesteps : list Z)
    (B C H W : nat) :
  shape model_output = [B; C; H; W] ->
  shape clean_images = [B; C; H; W] ->
  well_formed model_output -> well_formed clean_images ->
  length timesteps = B ->
  (forall t, In t timesteps -> (0 <= t < Z.of_nat (length alphas_cumprod))%Z) ->
  (forall a, In a alphas_cumprod -> ~ (a == 1)%Q) ->
  0 < B * numel [C; H; W] ->
  training_loss "sample" alphas_cumprod model_output noise clean_images timesteps
  = Ok (snr_weighted_mse alphas_cumprod timesteps (numel [C; H; W])
                         (data model_output) (data clean_images)).
Proof.
  intros Hsp Hsc Hwp Hwc Hlen Hts _ _.
  unfold training_loss. simpl String.eqb. cbv iota.
  rewrite Hsc. cbn [nth_error of_option rbind].
  subst B.
  rewrite (extract_value (fun a : Q => a) alphas_cumprod timesteps [1; 1; 1]
             (mapM_index1_nonneg alphas_cumprod 0%Q timesteps Hts)).
  cbn [of_option rbind].
  set (vs := map (fun t => nth (Z.to_nat t) alphas_cumprod 0%Q) timesteps).
  assert (Hflat : flat_map (fun x : Q => repeat x (numel [1; 1; 1])) vs = vs).
  { change (numel [1; 1; 1]) with 1.
    rewrite (flat_map_repeat_1 (fun x : Q => x)). apply map_id. }
  rewrite Hflat.
  assert (Hvs : length vs = length timesteps) by (unfold vs; apply length_map).
  (* snr_weights = alpha_t / (1 - alpha_t) *)
  rewrite binop_same_shape;
    [ | reflexivity
      | unfold well_formed; cbn [shape data numel fold_right]; lia
      | unfold well_formed, map_t; cbn [shape data numel fold_right];
        rewrite length_map; lia ].
  cbn [of_option rbind shape data map_t].
  rewrite map2_map_r.
  change (map (fun a : Q => (a / (1 - a))%Q) vs) with (map snr_weight vs).
  (* the squared errors *)
  unfold mse_loss_none.
  rewrite (binop_same_shape sq_err (x:=model_output) (y:=clean_images))
    by (congruence || assumption).
  cbn [of_option rbind].
  (* the broadcast product *)
  assert (Hws : length (map snr_weight vs) = length timesteps)
    by (rewrite length_map; exact Hvs).
  rewrite <- Hws at 1.
  rewrite (@binop_batch_column Q Q Q Qmult (map snr_weight vs)
             (mkT (shape model_output)
                  (map2 sq_err (data model_output) (data clean_images)))
             [C; H; W]);
    [ | reflexivity
      | cbn [shape]; rewrite Hsp; f_equal; symmetry; exact Hws
      | unfold well_formed in *; cbn [shape data];
        rewrite length_map2, Hwp, Hwc, Hsp, Hsc; apply Nat.min_id ].
  cbn [of_option rbind]. f_equal.
  unfold mean, snr_weighted_mse. cbn [data].
  assert (Hdp : length (data model_output) = length timesteps * numel [C; H; W]).
  { unfold well_formed in Hwp. rewrite Hwp, Hsp. reflexivity. }
  assert (Hdc : length (data clean_images) = length timesteps * numel [C; H; W]).
  { unfold well_formed in Hwc. rewrite Hwc, Hsc. reflexivity. }
  assert (HW : map snr_weight vs
               = map (sample_weight alphas_cumprod timesteps)
                     (seq 0 (length timesteps))).
  { unfold vs. rewrite map_map.
    rewrite (map_by_position
               (fun t => snr_weight (nth (Z.to_nat t) alphas_cumprod 0%Q))
               timesteps 0%Z).
    reflexivity. }
  rewrite HW.
  rewrite (weighted_errors_by_position
             (sample_weight alphas_cumprod timesteps) (length timesteps)
             (numel [C; H; W]) (data model_output) (data clean_images) Hdp Hdc).
  now rewrite length_map, length_seq.
Qed.

Lemma sample_loss_is_snr_weighted_mse_witness :
  training_loss "sample" [1 # 2; 1 # 3; 1 # 4]%Q
                (mkT [2; 1; 1; 2] [1; 2; 3; 4]%Q) (mkT [] [])
                (mkT [2; 1; 1; 2] [0; 0; 0; 0]%Q) [0; 2]%Z
  = Ok (snr_weighted_mse [1 # 2; 1 # 3; 1 # 4]%Q [0; 2]%Z (numel [1; 1; 2])
                         [1; 2; 3; 4]%Q [0; 0; 0; 0]%Q).
Proof.
  apply (sample_loss_is_snr_weighted_mse [1 # 2; 1 # 3; 1 # 4]%Q
           (model_output := mkT [2; 1; 1; 2] [1; 2; 3; 4]%Q)
           (mkT [] [])
           (clean_images := mkT [2; 1; 1; 2] [0; 0; 0; 0]%Q)
           [0; 2]%Z (B := 2) (C := 1) (H := 1) (W := 2));
    try reflexivity.
  - intros t [<-|[<-|[]]]; simpl; lia.
  - intros a [<-|[<-|[<-|[]]]]; discriminate.
  - simpl; lia.
Defined.

(* ===================================================================== *)
(** ** Resuming from a checkpoint *)
(* ===================================================================== *)

Section SortFacts.
Context {A : Type}.

Lemma insert_keyed_perm (x : Z * A) l : Permutation (Py.insert_keyed x l) (x :: l).
Proof.
  induction l as [|y l IH]; simpl; [apply Permutation_refl|].
  destruct (fst x <=? fst y)%Z; [apply Permutation_refl|].
  eapply Permutation_trans; [apply perm_skip, IH | apply perm_swap].
Qed.

Lemma sort_keyed_perm (l : list (Z * A)) : Permutation (Py.sort_keyed l) l.
Proof.
  induction l as [|x l IH]; simpl; [constructor|].
  eapply Permutation_trans; [apply insert_keyed_perm | now apply perm_skip].
Qed.

Lemma insert_keyed_sorted (x : Z * A) l :
  StronglySorted Py.key_le l -> StronglySorted Py.key_le (Py.insert_keyed x l).
Proof.
  induction 1 as [|y l Hs IH Hy]; simpl.
  - constructor; constructor.
  - destruct (Z.leb_spec (fst x) (fst y)) as [Hle|Hgt].
    + constructor; [constructor; assumption|].
      constructor; [exact Hle|].
      eapply Forall_impl; [|exact Hy].
      intros z Hz. unfold Py.key_le in *. lia.
    + constructor; [exact IH|].
      apply Forall_forall. intros z Hz.
      apply (Permutation_in _ (insert_keyed_perm x l)) in Hz.
      destruct Hz as [<-|Hz].
      * unfold Py.key_le. lia.
      * rewrite Forall_forall in Hy. now apply Hy.
Qed.

Lemma sort_keyed_sorted (l : list (Z * A)) : StronglySorted Py.key_le (Py.sort_keyed l).
Proof.
  induction l as [|x l IH]; simpl; [constructor|].
  now apply insert_keyed_sorted.
Qed.

Lemma last_in (l : list (Z * A)) d : l <> [] -> In (last l d) l.
Proof.
  induction l as [|x l IH]; intros Hne; [congruence|].
  destruct l as [|y l]; [now left|].
  right. apply IH. discriminate.
Qed.

Lemma last_sorted_max (l : list (Z * A)) d y :
  StronglySorted Py.key_le l -> In y l -> Py.key_le y (last l d).
Proof.
  induction 1 as [|x l Hs IH Hx]; intros Hin; [easy|].
  destruct l as [|z l].
  - destruct Hin as [<-|[]]. unfold Py.key_le; simpl; lia.
  - destruct Hin as [<-|Hin].
    + rewrite Forall_forall in Hx. apply Hx.
      apply (last_in (l:=z :: l)). discriminate.
    + now apply IH.
Qed.

(** The last element of the sorted list carries a greatest key. *)
Lemma last_sort_keyed_max (l : list (Z * A)) d :
  l <> [] ->
  In (last (Py.sort_keyed l) d) l
  /\ forall y, In y l -> (fst y <= fst (last (Py.sort_keyed l) d))%Z.
Proof.
  intros Hne.
  assert (Hne' : Py.sort_keyed l <> []).
  { intros E. pose proof (sort_keyed_perm l) as Hp. rewrite E in Hp.
    apply Permutation_nil in Hp. congruence. }
  split.
  - apply (Permutation_in _ (sort_keyed_perm l)). now apply last_in.
  - intros y Hy. apply last_sorted_max; [apply sort_keyed_sorted|].
    apply (Permutation_in _ (Permutation_sym (sort_keyed_perm l))). exact Hy.
Qed.

Lemma mapR_keyed (key : A -> result Z) (l : list A) :
  (forall x, In x l -> exists n, key x = Ok n) ->
  exists keyed,
    mapR (fun x => rbind (key x) (fun k => Ok (k, x))) l = Ok keyed
    /\ map snd keyed = l
    /\ Forall (fun kx => key (snd kx) = Ok (fst kx)) keyed.
Proof.
  induction l as [|x l IH]; intros Hk.
  - exists []. repeat split; constructor.
  - destruct (Hk x) as [n Hn]; [now left|].
    destruct IH as [keyed [Hm [Hs Hf]]]; [intros; apply Hk; now right|].
    exists ((n, x) :: keyed). cbn [mapR]. rewrite Hn. cbn [rbind].
    rewrite Hm. cbn [rbind]. repeat split.
    + cbn [map snd]. now rewrite Hs.
    + constructor; assumption.
Qed.

Lemma mapR_raises (key : A -> result Z) (l1 l2 : list A) x e :
  (forall y, In y l1 -> exists n, key y = Ok n) -> key x = Raise e ->
  mapR (fun x => rbind (key x) (fun k => Ok (k, x))) (l1 ++ x :: l2) = Raise e.
Proof.
  intros Hok Hx. induction l1 as [|y l1 IH]; cbn [app mapR].
  - now rewrite Hx.
  - destruct (Hok y) as [n Hn]; [now left|]. rewrite Hn. cbn [rbind].
    rewrite IH by (intros; apply Hok; now right). reflexivity.
Qed.
End SortFacts.

Lemma last_map {A B} (f : A -> B) (l : list A) d :
  last (map f l) (f d) = f (last l d).
Proof.
  induction l as [|x l IH]; [reflexivity|].
  destruct l as [|y l]; [reflexivity|]. exact IH.
Qed.

(** The choice of the ["latest"] branch when every candidate has a number. *)
Lemma latest_checkpoint_greatest (listing : list string) :
  let dirs := filter (fun d => Py.startswith d "checkpoint") listing in
  dirs <> [] ->
  (forall d, In d dirs -> exists n, checkpoint_number d = Ok n) ->
  exists d n,
    latest_checkpoint listing = Ok (Some d)
    /\ In d dirs
    /\ checkpoint_number d = Ok n
    /\ forall d' n', In d' dirs -> checkpoint_number d' = Ok n' -> (n' <= n)%Z.
Proof.
  intros dirs Hne Hall.
  destruct (mapR_keyed checkpoint_number dirs Hall) as [keyed [Hm [Hs Hf]]].
  assert (Hkne : keyed <> []).
  { intros ->. simpl in Hs. congruence. }
  destruct (last_sort_keyed_max (0%Z, EmptyString) Hkne) as [Hin Hmax].
  set (top := last (Py.sort_keyed keyed) (0%Z, EmptyString)) in *.
  exists (snd top), (fst top).
  assert (Hlen : length (map snd (Py.sort_keyed keyed)) = length dirs).
  { rewrite length_map, <- Hs, length_map.
    apply Permutation_length, sort_keyed_perm. }
  assert (Hpos : 0 < length dirs).
  { destruct dirs; [congruence | simpl; lia]. }
  repeat split.
  - unfold latest_checkpoint, Py.sorted. fold dirs. rewrite Hm. cbn [rbind].
    rewrite Hlen.
    replace (0 <? length dirs) with true by (symmetry; apply Nat.ltb_lt; exact Hpos).
    change EmptyString with (snd (0%Z, EmptyString)) at 1.
    now rewrite last_map.
  - rewrite <- Hs. now apply in_map.
  - rewrite Forall_forall in Hf. now apply Hf.
  - intros d' n' Hd' Hn'.
    rewrite <- Hs in Hd'. apply in_map_iff in Hd'.
    destruct Hd' as [[k x] [Hx Hkx]]. simpl in Hx; subst x.
    rewrite Forall_forall in Hf. pose proof (Hf _ Hkx) as Hk. simpl in Hk.
    assert (k = n') by congruence. subst k.
    apply (Hmax _ Hkx).
Qed.

Lemma latest_checkpoint_none (listing : list string) :
  filter (fun d => Py.startswith d "checkpoint") listing = [] ->
  latest_checkpoint listing = Ok None.
Proof. intros H. unfold latest_checkpoint. now rewrite H. Qed.

Lemma ceil_div_ok (a b : Z) : b <> 0%Z -> Py.ceil_div a b = Ok (- (- a / b))%Z.
Proof.
  intros Hb. unfold Py.ceil_div.
  destruct (Z.eqb_spec b 0); [contradiction | reflexivity].
Qed.

(** The fresh run the ["latest"] branch falls back to. *)
Lemma resume_latest_fresh (load_state : string -> option exn) (listing : list string)
    (accum len : Z) :
  accum <> 0%Z ->
  filter (fun d => Py.startswith d "checkpoint") listing = [] ->
  resume_from load_state listing (Some "latest") accum len
  = Ok (mkResumed 0 0 None None [missing_checkpoint_warning "latest"] None).
Proof.
  intros Ha Hf. unfold resume_from.
  rewrite (ceil_div_ok len Ha). cbn [rbind Py.truthy].
  simpl String.eqb. cbn [negb].
  rewrite (latest_checkpoint_none listing Hf). reflexivity.
Qed.

(** What a resume that loaded a checkpoint has computed. *)
Lemma resume_loaded_inv (load_state : string -> option exn) (listing : list string)
    (rfc : option string) (accum len : Z) (r : resumed) (path : string) :
  resume_from load_state listing rfc accum len = Ok r ->
  r_loaded r = Some path ->
  exists nups,
    Py.ceil_div len accum = Ok nups
    /\ accum <> 0%Z /\ nups <> 0%Z
    /\ checkpoint_number path = Ok (r_global_step r)
    /\ r_first_epoch r = (r_global_step r / nups)%Z
    /\ r_resume_step r
       = Some ((r_global_step r * accum) mod (nups * accum))%Z
    /\ r_resume_from_checkpoint r = rfc
    /\ r_printed r = [("Resuming from checkpoint " ++ path)%string].
Proof.
  unfold resume_from. intros Hr Hl.
  unfold Py.ceil_div in *.
  destruct (Z.eqb_spec accum 0) as [|Ha]; [discriminate|].
  cbn [rbind] in Hr.
  set (nups := (- (- len / accum))%Z) in *.
  exists nups. split; [reflexivity|]. split; [assumption|].
  destruct (Py.truthy rfc); [|inversion Hr; subst; discriminate].
  match type of Hr with
  | rbind ?sel _ = _ => destruct sel as [[p|]|e]
  end; cbn [rbind] in Hr; try discriminate.
  2:{ inversion Hr; subst; discriminate. }
  destruct (load_state p); [discriminate|].
  destruct (checkpoint_number p) as [G|e] eqn:HG; cbn [rbind] in Hr;
    [|discriminate].
  unfold Py.floordiv, Py.pymod in Hr.
  destruct (Z.eqb_spec nups 0) as [|Hn]; [discriminate|]. cbn [rbind] in Hr.
  destruct (Z.eqb_spec (nups * accum) 0); [discriminate|]. cbn [rbind] in Hr.
  inversion Hr; subst r; cbn in *. inversion Hl; subst p.
  repeat split; assumption.
Qed.

Lemma resume_latest_loaded (load_state : string -> option exn) (listing : list string)
    (accum len : Z) (d : string) (r : resumed) :
  latest_checkpoint listing = Ok (Some d) ->
  resume_from load_state listing (Some "latest") accum len = Ok r ->
  r_loaded r = Some d.
Proof.
  intros Hsel. unfold resume_from.
  destruct (Py.ceil_div len accum) as [nups|]; cbn [rbind]; [|discriminate].
  cbn [Py.truthy]. simpl String.eqb. cbn [negb]. rewrite Hsel. cbn [rbind].
  destruct (load_state d); [discriminate|].
  destruct (checkpoint_number d); cbn [rbind]; [|discriminate].
  destruct (Py.floordiv _ _); cbn [rbind]; [|discriminate].
  destruct (Py.pymod _ _); cbn [rbind]; [|discriminate].
  intros H; inversion H; reflexivity.
Qed.

Lemma resume_explicit_loaded (load_state : string -> option exn)
    (listing : list string) (requested : string) (accum len : Z) (r : resumed) :
  requested <> "latest" -> Py.truthy (Some requested) = true ->
  resume_from load_state listing (Some requested) accum len = Ok r ->
  r_loaded r = Some (Py.basename requested).
Proof.
  intros Hne Htr. unfold resume_from.
  destruct (Py.ceil_div len accum) as [nups|]; cbn [rbind]; [|discriminate].
  rewrite Htr.
  destruct (String.eqb_spec requested "latest") as [|_]; [contradiction|].
  cbn [negb rbind].
  destruct (load_state (Py.basename requested)); [discriminate|].
  destruct (checkpoint_number _); cbn [rbind]; [|discriminate].
  destruct (Py.floordiv _ _); cbn [rbind]; [|discriminate].
  destruct (Py.pymod _ _); cbn [rbind]; [|discriminate].
  intros H; inversion H; reflexivity.
Qed.

(** C2, as stated, fails for an explicit path: with an empty output
    directory, [--resume_from_checkpoint checkpoint-500] is not turned into a
    fresh run.  If [load_state] raises on the missing directory the run ends
    with that error; if it returned, the run would go on from step 500. *)
Lemma explicit_missing_checkpoint_no_fallback :
  resume_from (fun _ => Some (ValueError "folder does not exist")) []
              (Some "checkpoint-500") 1 8
  = Raise (ValueError "folder does not exist")
  /\ resume_from (fun _ => None) [] (Some "checkpoint-500") 1 8
     = Ok (mkResumed 500 62 (Some 4%Z) (Some "checkpoint-500")
                     ["Resuming from checkpoint checkpoint-500"]
                     (Some "checkpoint-500")).
Proof. split; reflexivity. Qed.

(** C2 (amended): when the resume request is the sentinel ["latest"] and no
    entry of the output directory starts with ["checkpoint"], the program
    falls back to a fresh run ([global_step = 0], [first_epoch = 0]) after a
    warning that names the request.  For an explicit path nothing checks that
    the checkpoint exists: whenever the resume code completes, it has handed
    the base name of the path to [load_state], announced the resume and read
    [global_step] from the name; otherwise it has raised. *)
Theorem missing_checkpoint_fallback (load_state : string -> option exn)
    (listing : list string) (accum len : Z) :
  accum <> 0%Z ->
  (filter (fun d => Py.startswith d "checkpoint") listing = [] ->
   resume_from load_state listing (Some "latest") accum len
   = Ok (mkResumed 0 0 None None
                   ["Checkpoint 'latest' does not exist. Starting a new training run."]
                   None))
  /\
  (forall requested r,
     requested <> "latest" -> Py.truthy (Some requested) = true ->
     resume_from load_state listing (Some requested) accum len = Ok r ->
     r_loaded r = Some (Py.basename requested)
     /\ r_printed r
        = [("Resuming from checkpoint " ++ Py.basename requested)%string]
     /\ checkpoint_number (Py.basename requested) = Ok (r_global_step r)).
Proof.
  intros Ha. split.
  - intros Hf. now apply resume_latest_fresh.
  - intros requested r Hne Htr Hr.
    pose proof (resume_explicit_loaded _ _ _ _ Hne Htr Hr) as Hl.
    destruct (resume_loaded_inv _ _ _ _ _ Hr Hl)
      as [nups [_ [_ [_ [HG [_ [_ [_ Hp]]]]]]]].
    auto.
Qed.

Lemma missing_checkpoint_fallback_witness :
  resume_from (fun _ => None) ["logs"; "unet"] (Some "latest") 2 8
  = Ok (mkResumed 0 0 None None
                  ["Checkpoint 'latest' does not exist. Starting a new training run."]
                  None)
  /\ r_loaded (mkResumed 3 0 (Some 6%Z) (Some "out/checkpoint-3")
                         ["Resuming from checkpoint checkpoint-3"]
                         (Some "checkpoint-3"))
     = Some (Py.basename "out/checkpoint-3").
Proof.
  destruct (@missing_checkpoint_fallback (fun _ => None) ["logs"; "unet"] 2 8)
    as [Hfresh Hexplicit]; [lia|].
  split.
  - apply Hfresh. reflexivity.
  - apply (Hexplicit "out/checkpoint-3"); [discriminate | reflexivity | reflexivity].
Defined.

(** C3, as stated, fails: with 8 batches per epoch and 2 accumulation steps
    (4 optimizer steps per epoch), resuming from [checkpoint-3] gives
    [first_epoch = 3 // 4 = 0], not [3 * 2 // 4 = 1]. *)
Lemma first_epoch_ignores_accumulation :
  resume_from (fun _ => None) [] (Some "checkpoint-3") 2 8
  = Ok (mkResumed 3 0 (Some 6%Z) (Some "checkpoint-3")
                  ["Resuming from checkpoint checkpoint-3"] (Some "checkpoint-3"))
  /\ Py.ceil_div 8 2 = Ok 4%Z
  /\ (3 * 2 / 4 = 1)%Z.
Proof. repeat split. Qed.

(** C3 (amended): on every resume from a checkpoint with persisted
    [global_step] G, the program recomputes [first_epoch = G // steps_per_epoch]
    (the accumulation factor does not enter) and
    [resume_step = (G * accum_steps) mod (steps_per_epoch * accum_steps)],
    where [steps_per_epoch = ceil(len(train_dataloader) / accum_steps)];
    [resume_step] is [accum_steps] times the optimizer step inside the epoch,
    [G mod steps_per_epoch], so G and the pair (epoch, step inside the epoch)
    determine each other. *)
Theorem resume_position (load_state : string -> option exn) (listing : list string)
    (rfc : option string) (accum len : Z) (r : resumed) (path : string) :
  resume_from load_state listing rfc accum len = Ok r ->
  r_loaded r = Some path ->
  exists steps_per_epoch,
    Py.ceil_div len accum = Ok steps_per_epoch
    /\ checkpoint_number path = Ok (r_global_step r)
    /\ r_first_epoch r = (r_global_step r / steps_per_epoch)%Z
    /\ r_resume_step r
       = Some ((r_global_step r * accum) mod (steps_per_epoch * accum))%Z
    /\ ((r_global_step r * accum) mod (steps_per_epoch * accum)
        = (r_global_step r mod steps_per_epoch) * accum)%Z
    /\ (r_global_step r
        = r_first_epoch r * steps_per_epoch
          + r_global_step r mod steps_per_epoch)%Z.
Proof.
  intros Hr Hl.
  destruct (resume_loaded_inv _ _ _ _ _ Hr Hl)
    as [nups [Hc [Ha [Hn [HG [Hfe [Hrs _]]]]]]].
  exists nups. repeat split; try assumption.
  - now apply Z.mul_mod_distr_r.
  - rewrite Hfe. rewrite (Z.div_mod (r_global_step r) nups) at 1 by assumption.
    lia.
Qed.

Lemma resume_position_witness :
  exists steps_per_epoch,
    Py.ceil_div 9 2 = Ok steps_per_epoch
    /\ checkpoint_number "checkpoint-13" = Ok 13%Z
    /\ (2 = 13 / steps_per_epoch)%Z
    /\ Some 6%Z = Some ((13 * 2) mod (steps_per_epoch * 2))%Z.
Proof.
  destruct (@resume_position (fun _ => None) ["checkpoint-13"] (Some "latest") 2 9
              (mkResumed 13 2 (Some 6%Z) (Some "latest")
                         ["Resuming from checkpoint checkpoint-13"]
                         (Some "checkpoint-13"))
              "checkpoint-13" eq_refl eq_refl)
    as [spe [H1 [H2 [H3 [H4 _]]]]].
  exists spe. repeat split; assumption.
Defined.

(** C9, as stated, fails: one entry has the form [checkpoint-N], but another
    entry that starts with ["checkpoint"] has no number, and computing its
    sort key raises; nothing is selected. *)
Lemma latest_fails_on_unnumbered_entry :
  Py.startswith "checkpoint-5" "checkpoint" = true
  /\ checkpoint_number "checkpoint-5" = Ok 5%Z
  /\ latest_checkpoint ["checkpoint-5"; "checkpoints.txt"] = Raise IndexError
  /\ resume_from (fun _ => None) ["checkpoint-5"; "checkpoints.txt"]
                 (Some "latest") 1 8
     = Raise IndexError.
Proof. repeat split. Qed.

Example latest_is_numeric_not_lexicographic :
  latest_checkpoint ["checkpoint-9"; "logs"; "checkpoint-10"; "checkpoint-2"]
  = Ok (Some "checkpoint-10").
Proof. reflexivity. Qed.

(** C9 (amended): when [resume_from_checkpoint] is ["latest"] and every entry
    of the output directory whose name starts with ["checkpoint"] has an
    integer between its first and second dash, and there is such an entry,
    the checkpoint selected for loading is an entry with the greatest such
    integer; when no entry starts with ["checkpoint"], the run falls back to
    a fresh one. *)
Theorem latest_selects_greatest_number (listing : list string) :
  let dirs := filter (fun d => Py.startswith d "checkpoint") listing in
  (dirs = [] ->
   forall load_state accum len, accum <> 0%Z ->
     resume_from load_state listing (Some "latest") accum len
     = Ok (mkResumed 0 0 None None [missing_checkpoint_warning "latest"] None))
  /\
  (dirs <> [] ->
   (forall d, In d dirs -> exists n, checkpoint_number d = Ok n) ->
   exists d n,
     latest_checkpoint listing = Ok (Some d)
     /\ In d listing
     /\ Py.startswith d "checkpoint" = true
     /\ checkpoint_number d = Ok n
     /\ (forall d' n',
          In d' listing -> Py.startswith d' "checkpoint" = true ->
          checkpoint_number d' = Ok n' -> (n' <= n)%Z)
     /\ (forall load_state accum len r,
          resume_from load_state listing (Some "latest") accum len = Ok r ->
          r_loaded r = Some d)).
Proof.
  intros dirs. split.
  - intros Hd load_state accum len Ha. now apply resume_latest_fresh.
  - intros Hne Hall.
    destruct (latest_checkpoint_greatest listing Hne Hall)
      as [d [n [Hsel [Hin [Hn Hmax]]]]].
    exists d, n. apply filter_In in Hin. destruct Hin as [Hin Hpre].
    repeat split; try assumption.
    + intros d' n' Hd' Hp' Hn'. apply (Hmax d' n'); [|assumption].
      apply filter_In. now split.
    + intros load_state accum len r Hr.
      eapply resume_latest_loaded; eauto.
Qed.

Lemma latest_selects_greatest_number_witness :
  exists d n,
    latest_checkpoint ["checkpoint-9"; "logs"; "checkpoint-10"] = Ok (Some d)
    /\ checkpoint_number d = Ok n
    /\ (9 <= n)%Z.
Proof.
  destruct (latest_selects_greatest_number ["checkpoint-9"; "logs"; "checkpoint-10"])
    as [_ H].
  destruct H as [d [n [Hsel [_ [_ [Hn [Hmax _]]]]]]].
  - discriminate.
  - intros d [<-|[<-|[]]]; eexists; reflexivity.
  - exists d, n. repeat split; try assumption.
    apply (Hmax "checkpoint-9"); [now left | reflexivity | reflexivity].
Defined.

(* ===================================================================== *)
(** ** The training loop *)
(* ===================================================================== *)

Section LoopFacts.
Context {batch : Type}.
Variable a : args.
Variable is_main_process : bool.

Hypothesis accum_pos : (0 < gradient_accumulation_steps a)%Z.
Hypothesis checkpointing_nonzero : checkpointing_steps a <> 0%Z.
Hypothesis prediction_supported :
  supported_prediction_type (prediction_type a) = true.

(** One micro-step, run. *)
Lemma train_step_run (b : batch) (s : loop_state batch) :
  let n := (acc_step s + 1)%Z in
  let boundary := (n mod gradient_accumulation_steps a =? 0)%Z in
  train_step a is_main_process b s
  = (mkLoop (if boundary then global_step s + 1 else global_step s)%Z
            n boundary
            (trace s ++ micro_step_events a is_main_process b
                                          (global_step s) boundary),
     Ok tt).
Proof.
  intros n boundary. unfold train_step.
  rewrite prediction_supported.
  unfold accumulate, optimizer_step, lr_scheduler_step, optimizer_zero_grad,
    emit, bind, modify, get, when, ret, lift, Py.pymod.
  cbn [global_step acc_step sync_gradients trace].
  fold n. fold boundary.
  destruct (Z.eqb_spec (checkpointing_steps a) 0) as [|_]; [contradiction|].
  unfold micro_step_events, optimization_step_events.
  destruct boundary; cbn [global_step acc_step sync_gradients trace].
  - destruct (use_ema a);
      cbn [global_step acc_step sync_gradients trace];
      destruct (((global_step s + 1) mod checkpointing_steps a =? 0)%Z);
      destruct is_main_process;
      cbn [andb global_step acc_step sync_gradients trace];
      rewrite <- ?app_assoc; reflexivity.
  - rewrite <- ?app_assoc. reflexivity.
Qed.

Lemma forwarded_app (t1 t2 : list (event batch)) :
  forwarded (t1 ++ t2) = forwarded t1 ++ forwarded t2.
Proof.
  induction t1 as [|e t1 IH]; [reflexivity|].
  destruct e; cbn [app forwarded]; rewrite IH; reflexivity.
Qed.

Lemma forwarded_micro_step (b : batch) g boundary :
  forwarded (micro_step_events a is_main_process b g boundary) = [b].
Proof.
  unfold micro_step_events, optimization_step_events.
  destruct boundary; [|reflexivity].
  destruct (use_ema a);
    destruct (((g + 1) mod checkpointing_steps a =? 0)%Z && is_main_process);
    reflexivity.
Qed.

Lemma forwarded_no_training (t : list (event batch)) :
  Forall (fun e => is_training_event e = false) t -> forwarded t = [].
Proof.
  induction 1 as [|e t He _ IH]; [reflexivity|].
  destruct e; cbn [forwarded]; try exact IH; discriminate.
Qed.

(** Optimizer steps are counted by the multiples of the accumulation
    factor that the micro-step counter passes. *)
Lemma div_succ (c : Z) :
  let m := gradient_accumulation_steps a in
  ((c + 1) / m = c / m + (if (c + 1) mod m =? 0 then 1 else 0))%Z.
Proof.
  intros m. fold m in accum_pos.
  pose proof (Z.div_mod c m ltac:(lia)) as Hc.
  pose proof (Z.mod_pos_bound c m accum_pos) as Hcb.
  pose proof (Z.div_mod (c + 1) m ltac:(lia)) as Hc1.
  pose proof (Z.mod_pos_bound (c + 1) m accum_pos) as Hc1b.
  destruct (Z.eqb_spec ((c + 1) mod m) 0) as [E|E]; nia.
Qed.

(** The skipped prefix of the first resumed epoch. *)
Lemma epoch_loop_skip (epoch resume_step : Z) (bs rest : list batch)
    (step : Z) (s : loop_state batch) :
  Py.truthy (resume_from_checkpoint a) = true ->
  (step + Z.of_nat (length bs) <= resume_step)%Z ->
  exists skipped,
    Forall (fun e => is_training_event e = false) skipped
    /\ epoch_loop a is_main_process epoch epoch resume_step step (bs ++ rest) s
       = epoch_loop a is_main_process epoch epoch resume_step
                    (step + Z.of_nat (length bs))%Z rest
                    (mkLoop (global_step s) (acc_step s) (sync_gradients s)
                            (trace s ++ skipped)).
Proof.
  intros Htr. revert step s. induction bs as [|b bs IH]; intros step s Hle.
  - exists []. split; [constructor|]. cbn [app length Z.of_nat].
    rewrite Z.add_0_r, app_nil_r. now destruct s.
  - cbn [app epoch_loop]. rewrite Htr, Z.eqb_refl.
    cbn [length] in Hle.
    replace ((step <? resume_step)%Z) with true
      by (symmetry; apply Z.ltb_lt; lia).
    cbn [andb]. unfold Py.pymod.
    destruct (Z.eqb_spec (gradient_accumulation_steps a) 0) as [E|_]; [lia|].
    unfold bind at 1. unfold bind at 1. unfold lift.
    destruct ((step mod gradient_accumulation_steps a =? 0)%Z);
      cbn [when]; unfold emit, modify, ret.
    + destruct (IH (step + 1)%Z
                   (mkLoop (global_step s) (acc_step s) (sync_gradients s)
                           (trace s ++ [EvProgress])))
        as [skipped [Hsk Heq]]; [lia|].
      exists (EvProgress :: skipped). split; [constructor; [reflexivity|exact Hsk]|].
      rewrite Heq. cbn [global_step acc_step sync_gradients trace length].
      rewrite <- app_assoc. cbn [app].
      replace (step + 1 + Z.of_nat (length bs))%Z
        with (step + Z.of_nat (S (length bs)))%Z by lia.
      reflexivity.
    + destruct (IH (step + 1)%Z s) as [skipped [Hsk Heq]]; [lia|].
      exists skipped. split; [exact Hsk|].
      rewrite Heq. cbn [length].
      replace (step + 1 + Z.of_nat (length bs))%Z
        with (step + Z.of_nat (S (length bs)))%Z by lia.
      reflexivity.
Qed.

(** The batches that are trained on. *)
Lemma epoch_loop_train (epoch first_epoch resume_step : Z) (bs : list batch)
    (step : Z) (s : loop_state batch) :
  Py.truthy (resume_from_checkpoint a) && (epoch =? first_epoch)%Z = false
  \/ (resume_step <= step)%Z ->
  exists s' trained,
    epoch_loop a is_main_process epoch first_epoch resume_step step bs s
    = (s', Ok tt)
    /\ trace s' = trace s ++ trained
    /\ forwarded trained = bs
    /\ acc_step s' = (acc_step s + Z.of_nat (length bs))%Z
    /\ (global_step s' - global_step s
        = acc_step s' / gradient_accumulation_steps a
          - acc_step s / gradient_accumulation_steps a)%Z.
Proof.
  revert step s. induction bs as [|b bs IH]; intros step s Hno.
  - exists s, []. cbn [epoch_loop length Z.of_nat]. unfold ret.
    rewrite app_nil_r, Z.add_0_r. repeat split; lia.
  - cbn [epoch_loop].
    assert (Hcond : Py.truthy (resume_from_checkpoint a)
                    && (epoch =? first_epoch)%Z && (step <? resume_step)%Z
                    = false).
    { destruct Hno as [-> | Hle]; [reflexivity|].
      replace ((step <? resume_step)%Z) with false
        by (symmetry; apply Z.ltb_ge; lia).
      apply andb_false_r. }
    rewrite Hcond. unfold bind at 1. rewrite train_step_run.
    set (n := (acc_step s + 1)%Z).
    set (boundary := (n mod gradient_accumulation_steps a =? 0)%Z).
    set (s1 := mkLoop _ _ _ _).
    destruct (IH (step + 1)%Z s1) as [s' [trained [Hrun [Htr [Hfw [Hacc Hgs]]]]]].
    { destruct Hno as [H|H]; [now left | right; lia]. }
    exists s', (micro_step_events a is_main_process b (global_step s) boundary
                ++ trained).
    split; [exact Hrun|]. split.
    { rewrite Htr. subst s1. cbn [trace]. now rewrite app_assoc. }
    split.
    { rewrite forwarded_app, forwarded_micro_step, Hfw. reflexivity. }
    subst s1. cbn [acc_step global_step] in Hacc, Hgs.
    split.
    { rewrite Hacc. cbn [length]. subst n. lia. }
    rewrite Hacc in *. pose proof (div_succ (acc_step s)) as Hd.
    cbn zeta in Hd. fold n in Hd. fold boundary in Hd.
    destruct boundary; lia.
Qed.
End LoopFacts.

(** C7: a micro-step completes an optimization step exactly when the
    accelerator has then counted a multiple of [accum_steps] micro-steps.
    At such a boundary the loop, after the forward and backward pass, clips
    the gradient norm to 1.0, applies the optimizer step, advances the
    learning-rate schedule, zeroes the gradients, advances the EMA shadow
    (when EMA is enabled) and increments [global_step] by 1, in this order;
    at every other micro-step it does none of these. *)
Theorem optimization_step_boundary {batch : Type} (a : args)
    (is_main_process : bool) (b : batch) (s : loop_state batch) :
  (0 < gradient_accumulation_steps a)%Z ->
  checkpointing_steps a <> 0%Z ->
  supported_prediction_type (prediction_type a) = true ->
  exists s',
    train_step a is_main_process b s = (s', Ok tt)
    /\ acc_step s' = (acc_step s + 1)%Z
    /\ if ((acc_step s + 1) mod gradient_accumulation_steps a =? 0)%Z
       then
         global_step s' = (global_step s + 1)%Z
         /\ trace s'
            = trace s
              ++ [EvForward b; EvBackward b]
              ++ [EvClipGradNorm 1%Q; EvOptimizerStep; EvLrStep; EvZeroGrad]
              ++ (if use_ema a then [EvEmaStep] else [])
              ++ [EvProgress; EvGlobalStep (global_step s + 1)%Z]
              ++ (if ((global_step s + 1) mod checkpointing_steps a =? 0)%Z
                     && is_main_process
                  then [EvSaveState (global_step s + 1)%Z] else [])
              ++ [EvLog (global_step s + 1)%Z]
       else
         global_step s' = global_step s
         /\ trace s' = trace s ++ [EvForward b; EvBackward b; EvLog (global_step s)].
Proof.
  intros _ Hck Hpt.
  pose proof (@train_step_run batch a is_main_process Hck Hpt b s) as Hrun.
  cbn zeta in Hrun.
  eexists. split; [exact Hrun|]. cbn [acc_step global_step trace].
  split; [reflexivity|].
  unfold micro_step_events, optimization_step_events.
  destruct ((acc_step s + 1) mod gradient_accumulation_steps a =? 0)%Z.
  - split; [reflexivity|]. rewrite <- !app_assoc. reflexivity.
  - split; reflexivity.
Qed.

Lemma optimization_step_boundary_witness :
  train_step (mkArgs 2 true 500 "epsilon" None) true 7 (@mkLoop nat 4 1 false [])
  = (mkLoop 5 2 true
            [EvForward 7; EvBackward 7; EvClipGradNorm 1%Q; EvOptimizerStep;
             EvLrStep; EvZeroGrad; EvEmaStep; EvProgress; EvGlobalStep 5;
             EvLog 5],
     Ok tt).
Proof.
  destruct (@optimization_step_boundary nat (mkArgs 2 true 500 "epsilon" None)
              true 7 (@mkLoop nat 4 1 false []))
    as [s' [Hrun _]]; [reflexivity | discriminate | reflexivity |].
  reflexivity.
Defined.

(** Over any run of micro-steps the optimizer steps are as many as the
    multiples of [accum_steps] the micro-step counter passes: one per
    [accum_steps] micro-steps. *)
Lemma one_optimizer_step_per_accumulation {batch : Type} (a : args)
    (is_main_process : bool) (epoch : Z) (bs : list batch) (s : loop_state batch) :
  (0 < gradient_accumulation_steps a)%Z ->
  checkpointing_steps a <> 0%Z ->
  supported_prediction_type (prediction_type a) = true ->
  resume_from_checkpoint a = None ->
  exists s',
    run_epoch a is_main_process epoch 0 0 bs s = (s', Ok tt)
    /\ (global_step s' - global_step s
        = (acc_step s + Z.of_nat (length bs)) / gradient_accumulation_steps a
          - acc_step s / gradient_accumulation_steps a)%Z.
Proof.
  intros Ha Hck Hpt Hrfc.
  destruct (@epoch_loop_train batch a is_main_process Ha Hck Hpt epoch 0%Z 0%Z bs 0%Z s)
    as [s' [trained [Hrun [_ [_ [Hacc Hgs]]]]]].
  { left. now rewrite Hrfc. }
  exists s'. split; [exact Hrun|]. now rewrite <- Hacc.
Qed.

(** The first epoch of a resumed run, run. *)
Lemma run_epoch_resumed {batch : Type} (a : args)
    (is_main_process : bool) (epoch resume_step : Z) (batches : list batch)
    (s : loop_state batch) :
  Py.truthy (resume_from_checkpoint a) = true ->
  (0 < gradient_accumulation_steps a)%Z ->
  checkpointing_steps a <> 0%Z ->
  supported_prediction_type (prediction_type a) = true ->
  (0 <= resume_step <= Z.of_nat (length batches))%Z ->
  exists s' skipped trained,
    run_epoch a is_main_process epoch epoch resume_step batches s = (s', Ok tt)
    /\ trace s' = trace s ++ skipped ++ trained
    /\ Forall (fun e => is_training_event e = false) skipped
    /\ forwarded trained = skipn (Z.to_nat resume_step) batches.
Proof.
  intros Htr Ha Hck Hpt Hrs.
  set (k := Z.to_nat resume_step).
  assert (Hk : k <= length batches) by lia.
  destruct (@epoch_loop_skip batch a is_main_process Ha epoch resume_step
              (firstn k batches) (skipn k batches) 0%Z s Htr)
    as [skipped [Hsk Heq]].
  { rewrite length_firstn. lia. }
  rewrite firstn_skipn in Heq.
  destruct (@epoch_loop_train batch a is_main_process Ha Hck Hpt epoch epoch
              resume_step
              (skipn k batches) (0 + Z.of_nat (length (firstn k batches)))%Z
              (mkLoop (global_step s) (acc_step s) (sync_gradients s)
                      (trace s ++ skipped)))
    as [s' [trained [Hrun [Htrace [Hfw _]]]]].
  { right. rewrite length_firstn. lia. }
  exists s', skipped, trained.
  split; [unfold run_epoch; rewrite Heq; exact Hrun|].
  split; [rewrite Htrace; cbn [trace]; now rewrite app_assoc|].
  split; [exact Hsk | exact Hfw].
Qed.

(** The step the resume code computes lies inside the epoch. *)
Lemma resume_step_within_epoch (G accum len steps_per_epoch : Z) :
  (0 < accum)%Z -> (0 < len)%Z ->
  Py.ceil_div len accum = Ok steps_per_epoch ->
  (0 <= (G * accum) mod (steps_per_epoch * accum) < len)%Z.
Proof.
  intros Ha Hl Hc. rewrite ceil_div_ok in Hc by lia.
  inversion Hc as [Hs]; clear Hc.
  pose proof (Z.div_mod (- len) accum ltac:(lia)) as Hd.
  pose proof (Z.mod_pos_bound (- len) accum Ha) as Hb.
  set (q := (- len / accum)%Z) in *.
  assert (Hn : (0 < - q)%Z) by nia.
  rewrite Z.mul_mod_distr_r by lia.
  pose proof (Z.mod_pos_bound G (- q) Hn) as HG.
  nia.
Qed.

(** A run resumed from a checkpoint: the loop, fed with what the resume code
    computed, skips [resume_step] batches of the epoch [first_epoch] and
    trains on the others. *)
Lemma resumed_run_skips_resume_step {batch : Type}
    (load_state : string -> option exn) (listing : list string) (a : args)
    (is_main_process : bool) (batches : list batch) (r : resumed)
    (path : string) (s : loop_state batch) :
  (0 < gradient_accumulation_steps a)%Z ->
  checkpointing_steps a <> 0%Z ->
  supported_prediction_type (prediction_type a) = true ->
  batches <> [] ->
  resume_from load_state listing (resume_from_checkpoint a)
              (gradient_accumulation_steps a) (Z.of_nat (length batches)) = Ok r ->
  r_loaded r = Some path ->
  exists resume_step s' skipped trained,
    r_resume_step r = Some resume_step
    /\ (0 <= resume_step < Z.of_nat (length batches))%Z
    /\ run_epoch (mkArgs (gradient_accumulation_steps a) (use_ema a)
                         (checkpointing_steps a) (prediction_type a)
                         (r_resume_from_checkpoint r))
                 is_main_process (r_first_epoch r) (r_first_epoch r)
                 resume_step batches s
       = (s', Ok tt)
    /\ trace s' = trace s ++ skipped ++ trained
    /\ Forall (fun e => is_training_event e = false) skipped
    /\ forwarded trained = skipn (Z.to_nat resume_step) batches.
Proof.
  intros Ha Hck Hpt Hne Hr Hl.
  destruct (resume_loaded_inv _ _ _ _ _ Hr Hl)
    as [nups [Hc [_ [_ [_ [_ [Hrs [Hrfc _]]]]]]]].
  assert (Hlen : (0 < Z.of_nat (length batches))%Z).
  { destruct batches; [congruence | simpl; lia]. }
  pose proof (resume_step_within_epoch (r_global_step r) Ha Hlen Hc) as Hin.
  assert (Htr : Py.truthy (resume_from_checkpoint a) = true).
  { unfold resume_from in Hr. rewrite Hc in Hr. cbn [rbind] in Hr.
    destruct (Py.truthy (resume_from_checkpoint a)); [reflexivity|].
    inversion Hr; subst r; discriminate. }
  set (rs := ((r_global_step r * gradient_accumulation_steps a)
              mod (nups * gradient_accumulation_steps a))%Z) in *.
  destruct (@run_epoch_resumed batch
              (mkArgs (gradient_accumulation_steps a) (use_ema a)
                      (checkpointing_steps a) (prediction_type a)
                      (r_resume_from_checkpoint r))
              is_main_process (r_first_epoch r) rs batches s)
    as [s' [skipped [trained [Hrun [Htrace [Hsk Hfw]]]]]];
    [ cbn [resume_from_checkpoint]; rewrite Hrfc; exact Htr
    | exact Ha | exact Hck | exact Hpt | lia | ].
  exists rs, s', skipped, trained.
  split; [exact Hrs|]. split; [exact Hin|].
  repeat split; assumption.
Qed.

(* ===================================================================== *)
(** ** Sampling and saving with the EMA weights *)
(* ===================================================================== *)

Section EvaluationFacts.
Context {params images scheduler : Type}.
Variable pipeline_call :
  scheduler -> Z -> Z -> Z -> params -> params * result images.
Variable save_pretrained :
  scheduler -> string -> params -> params * result unit.

(** The sampling block with EMA, by the outcome of the pipeline. *)
Lemma sample_images_block_ema (sched : scheduler) (bs steps : Z)
    (s : net_state params) :
  sample_images_block pipeline_call true sched bs steps s
  = match pipeline_call sched 0%Z bs steps (shadow s) with
    | (_, Ok imgs) =>
        (mkNet (live s) (shadow s) None (torch_rng s) (epoch s), Ok imgs)
    | (p, Raise e) =>
        (mkNet p (shadow s) (Some (live s)) (torch_rng s) (epoch s), Raise e)
    end.
Proof.
  unfold sample_images_block, ema_store, ema_copy_to, ema_restore, on_live,
    manual_seed, when, bind, modify, get, ret, raise.
  cbn [live shadow temp_stored torch_rng epoch].
  destruct (pipeline_call sched 0%Z bs steps (shadow s)) as [p [imgs|e]];
    reflexivity.
Qed.

Lemma save_model_block_ema (sched : scheduler) (output_dir : string)
    (s : net_state params) :
  save_model_block save_pretrained true sched output_dir s
  = match save_pretrained sched output_dir (shadow s) with
    | (_, Ok u) =>
        (mkNet (live s) (shadow s) None (torch_rng s) (epoch s), Ok tt)
    | (p, Raise e) =>
        (mkNet p (shadow s) (Some (live s)) (torch_rng s) (epoch s), Raise e)
    end.
Proof.
  unfold save_model_block, ema_store, ema_copy_to, ema_restore, on_live,
    when, bind, modify, get, ret, raise.
  cbn [live shadow temp_stored torch_rng epoch].
  destruct (save_pretrained sched output_dir (shadow s)) as [p [[]|e]];
    reflexivity.
Qed.

Lemma sample_images_block_plain (sched : scheduler) (bs steps : Z)
    (s : net_state params) :
  snd (sample_images_block pipeline_call false sched bs steps s)
  = snd (pipeline_call sched 0%Z bs steps (live s)).
Proof.
  unfold sample_images_block, on_live, manual_seed, when, bind, ret.
  destruct (pipeline_call sched 0%Z bs steps (live s)) as [p [imgs|e]];
    reflexivity.
Qed.
End EvaluationFacts.

(** C1, as stated, fails on the error path: when the sampling pipeline (or
    the save) raises, the exception leaves the block before [restore]; the
    live parameters are then the EMA shadow (2), not the parameters before
    [store] (1), and the stored copy is still held by the tracker. *)
Lemma ema_not_restored_when_pipeline_raises :
  sample_images_block
    (fun (_ : unit) (_ _ _ : Z) (p : Z) =>
       (p, @Raise Z (RuntimeError "CUDA out of memory")))
    true tt 16 1000 (mkNet 1%Z 2%Z None 0 0)
  = (mkNet 2%Z 2%Z (Some 1%Z) 0 0, Raise (RuntimeError "CUDA out of memory"))
  /\ save_model_block
       (fun (_ : unit) (_ : string) (p : Z) =>
          (p, @Raise unit (RuntimeError "No space left on device")))
       true tt "ddpm-model-64" (mkNet 1%Z 2%Z None 0 0)
     = (mkNet 2%Z 2%Z (Some 1%Z) 0 0,
        Raise (RuntimeError "No space left on device")).
Proof. split; reflexivity. Qed.

(** C1 (amended): whenever EMA is enabled and the loop swaps the EMA shadow
    into the live network for image sampling or model saving ([store] then
    [copy_to]), the original live parameters are restored ([restore]) on the
    exit path where the pipeline or the save returns, whatever these did to
    the parameters: after the block the live parameters are those before
    [store].  When the pipeline or the save raises, the exception leaves the
    block at once: [restore] is not run and the network keeps the
    swapped-in parameters. *)
Theorem ema_swap_restored_on_return {params images scheduler : Type}
    (pipeline_call : scheduler -> Z -> Z -> Z -> params -> params * result images)
    (save_pretrained : scheduler -> string -> params -> params * result unit)
    (sched : scheduler) (bs steps : Z) (output_dir : string)
    (s : net_state params) :
  (forall p imgs,
     pipeline_call sched 0%Z bs steps (shadow s) = (p, Ok imgs) ->
     sample_images_block pipeline_call true sched bs steps s
     = (mkNet (live s) (shadow s) None (torch_rng s) (epoch s), Ok imgs))
  /\ (forall p,
        save_pretrained sched output_dir (shadow s) = (p, Ok tt) ->
        save_model_block save_pretrained true sched output_dir s
        = (mkNet (live s) (shadow s) None (torch_rng s) (epoch s), Ok tt))
  /\ (forall p e,
        pipeline_call sched 0%Z bs steps (shadow s) = (p, Raise e) ->
        sample_images_block pipeline_call true sched bs steps s
        = (mkNet p (shadow s) (Some (live s)) (torch_rng s) (epoch s), Raise e))
  /\ (forall p e,
        save_pretrained sched output_dir (shadow s) = (p, Raise e) ->
        save_model_block save_pretrained true sched output_dir s
        = (mkNet p (shadow s) (Some (live s)) (torch_rng s) (epoch s), Raise e)).
Proof.
  repeat split; intros.
  - rewrite sample_images_block_ema. now rewrite H.
  - rewrite save_model_block_ema. now rewrite H.
  - rewrite sample_images_block_ema. now rewrite H.
  - rewrite save_model_block_ema. now rewrite H.
Qed.

Lemma ema_swap_restored_on_return_witness :
  sample_images_block
    (fun (_ : unit) (seed batch_size steps : Z) (p : Z) =>
       ((p + 100)%Z, Ok (p + seed + batch_size + steps)%Z))
    true tt 16 1000 (mkNet 1%Z 2%Z None 5 3)
  = (mkNet 1%Z 2%Z None 5 3, Ok 1018%Z).
Proof.
  destruct (@ema_swap_restored_on_return Z Z unit
              (fun (_ : unit) (seed batch_size steps : Z) (p : Z) =>
                 ((p + 100)%Z, Ok (p + seed + batch_size + steps)%Z))
              (fun (_ : unit) (_ : string) (p : Z) => (p, Ok tt))
              tt 16%Z 1000%Z "ddpm-model-64" (mkNet 1%Z 2%Z None 5 3))
    as [Hsample _].
  apply (Hsample 102%Z 1018%Z). reflexivity.
Defined.

(** C10: the sampling run draws from a generator seeded anew with 0 at every
    invocation; two invocations with the same network parameters (live and
    EMA shadow), scheduler, eval batch size and number of inference steps
    produce the same outcome, whatever the epoch, the state of the global
    random generator or what the EMA tracker holds in store. *)
Theorem sampling_is_reproducible {params images scheduler : Type}
    (pipeline_call : scheduler -> Z -> Z -> Z -> params -> params * result images)
    (use_ema : bool) (sched : scheduler) (eval_batch_size steps : Z)
    (s1 s2 : net_state params) :
  live s1 = live s2 -> shadow s1 = shadow s2 ->
  snd (sample_images_block pipeline_call use_ema sched eval_batch_size steps s1)
  = snd (pipeline_call sched 0%Z eval_batch_size steps
                       (if use_ema then shadow s1 else live s1))
  /\ snd (sample_images_block pipeline_call use_ema sched eval_batch_size steps s1)
     = snd (sample_images_block pipeline_call use_ema sched eval_batch_size steps s2).
Proof.
  intros Hl Hs.
  assert (Hone : forall s : net_state params,
             snd (sample_images_block pipeline_call use_ema sched
                                      eval_batch_size steps s)
             = snd (pipeline_call sched 0%Z eval_batch_size steps
                                  (if use_ema then shadow s else live s))).
  { intros s. destruct use_ema.
    - rewrite sample_images_block_ema.
      destruct (pipeline_call sched 0%Z eval_batch_size steps (shadow s))
        as [p [imgs|e]]; reflexivity.
    - apply sample_images_block_plain. }
  split; [apply Hone|]. rewrite !Hone, Hl, Hs. reflexivity.
Qed.

Lemma sampling_is_reproducible_witness :
  snd (sample_images_block
         (fun (_ : unit) (seed batch_size steps : Z) (p : Z) =>
            (p, Ok (p + seed + batch_size + steps)%Z))
         true tt 16 1000 (mkNet 1%Z 2%Z None 5 3))
  = snd (sample_images_block
           (fun (_ : unit) (seed batch_size steps : Z) (p : Z) =>
              (p, Ok (p + seed + batch_size + steps)%Z))
           true tt 16 1000 (mkNet 1%Z 2%Z (Some 9%Z) 77 40)).
Proof.
  apply (@sampling_is_reproducible Z Z unit
           (fun (_ : unit) (seed batch_size steps : Z) (p : Z) =>
              (p, Ok (p + seed + batch_size + steps)%Z))
           true tt 16%Z 1000%Z
           (mkNet 1%Z 2%Z None 5 3) (mkNet 1%Z 2%Z (Some 9%Z) 77 40));
    reflexivity.
Defined.


(* ===================================================================== *)
(** ** Checkpoint names and what the resume code reads from them *)
(* ===================================================================== *)

Lemma digit_val_digit_char (d : Z) :
  (0 <= d < 10)%Z -> Py.digit_val (digit_char d) = Some d.
Proof.
  intros Hd.
  assert (H : (d = 0 \/ d = 1 \/ d = 2 \/ d = 3 \/ d = 4 \/ d = 5 \/ d = 6
               \/ d = 7 \/ d = 8 \/ d = 9)%Z) by lia.
  repeat (destruct H as [-> | H]; [reflexivity|]). subst; reflexivity.
Qed.

Lemma digit_val_range (c : ascii) (d : Z) :
  Py.digit_val c = Some d -> (0 <= d <= 9)%Z.
Proof.
  unfold Py.digit_val.
  destruct (Nat.leb_spec 48 (nat_of_ascii c)); cbn [andb]; [|discriminate].
  destruct (Nat.leb_spec (nat_of_ascii c) 57); [|discriminate].
  intros E; inversion E. lia.
Qed.

Lemma digit_not_space (c : ascii) (d : Z) :
  Py.digit_val c = Some d -> Py.is_space c = false.
Proof.
  unfold Py.digit_val, Py.is_space.
  destruct (Nat.leb_spec 48 (nat_of_ascii c)); cbn [andb]; [|discriminate].
  intros _.
  destruct (Nat.leb_spec (nat_of_ascii c) 13); [lia|].
  rewrite andb_false_r. cbn [orb].
  apply Nat.eqb_neq. lia.
Qed.

Lemma log2_div10_lt (n : Z) :
  (10 <= n)%Z -> Z.to_nat (Z.log2 (n / 10)) < Z.to_nat (Z.log2 n).
Proof.
  intros Hn.
  assert (Hk : (0 < Z.log2 n)%Z) by (apply Z.log2_pos; lia).
  destruct (Z.log2_spec n ltac:(lia)) as [_ Hup].
  replace (Z.succ (Z.log2 n)) with (Z.log2 n - 1 + 1 + 1)%Z in Hup by lia.
  rewrite !Z.pow_add_r in Hup by lia.
  replace (Z.log2 n) with (Z.log2 n - 1 + 1)%Z at 2 by lia.
  assert (Hq : (0 < n / 10)%Z) by (apply Z.div_str_pos; lia).
  assert (Hlt : (n / 10 < 2 ^ (Z.log2 n - 1 + 1))%Z).
  { rewrite Z.pow_add_r by lia.
    apply Z.div_lt_upper_bound; [lia|].
    change (2 ^ 1)%Z with 2%Z in *. nia. }
  apply Z.log2_lt_pow2 in Hlt; [|assumption].
  pose proof (Z.log2_nonneg (n / 10)). lia.
Qed.

(** The digits written by [str_digits] are read back by [Py.int_body]. *)
Lemma str_digits_value (fuel : nat) (n : Z) (tail : list ascii) (b : bool) :
  (0 <= n)%Z -> Z.to_nat (Z.log2 n) < fuel ->
  Py.int_body 0 b (str_digits fuel n tail) = Py.int_body n true tail.
Proof.
  revert n tail b. induction fuel as [|fuel IH]; intros n tail b Hn Hf; [lia|].
  cbn [str_digits].
  assert (Hm : (0 <= n mod 10 < 10)%Z) by (apply Z.mod_pos_bound; lia).
  destruct (Z.ltb_spec n 10) as [Hlt|Hge].
  - cbn [Py.int_body]. rewrite digit_val_digit_char by assumption.
    rewrite Z.mod_small by lia. f_equal.
  - rewrite IH; [| apply Z.div_pos; lia
                 | pose proof (log2_div10_lt Hge); lia ].
    cbn [Py.int_body]. rewrite digit_val_digit_char by assumption.
    f_equal. pose proof (Z.div_mod n 10 ltac:(lia)). lia.
Qed.

Lemma str_digits_all_digits (fuel : nat) (n : Z) (tail : list ascii) :
  (0 <= n)%Z ->
  Forall (fun c => exists d, Py.digit_val c = Some d) tail ->
  Forall (fun c => exists d, Py.digit_val c = Some d) (str_digits fuel n tail).
Proof.
  revert n tail. induction fuel as [|fuel IH]; intros n tail Hn Ht; [exact Ht|].
  cbn [str_digits].
  assert (Hm : (0 <= n mod 10 < 10)%Z) by (apply Z.mod_pos_bound; lia).
  assert (Hd : exists d, Py.digit_val (digit_char (n mod 10)) = Some d)
    by (eexists; apply digit_val_digit_char; assumption).
  destruct (n <? 10)%Z.
  - constructor; assumption.
  - apply IH; [apply Z.div_pos; lia | constructor; assumption].
Qed.

Lemma str_digits_nonempty (fuel : nat) (n : Z) (tail : list ascii) :
  str_digits (S fuel) n tail <> [].
Proof.
  revert n tail. induction fuel as [|fuel IH]; intros n tail.
  - cbn [str_digits]. destruct (n <? 10)%Z; discriminate.
  - change (str_digits (S (S fuel)) n tail)
      with (if (n <? 10)%Z then digit_char (n mod 10) :: tail
            else str_digits (S fuel) (n / 10)%Z (digit_char (n mod 10) :: tail)).
    destruct (n <? 10)%Z; [discriminate | apply IH].
Qed.

Lemma lstrip_head (c : ascii) (cs : list ascii) :
  Py.is_space c = false -> Py.lstrip (c :: cs) = c :: cs.
Proof. intros H. cbn [Py.lstrip]. now rewrite H. Qed.

Lemma strip_no_space (cs : list ascii) :
  Forall (fun c => Py.is_space c = false) cs -> Py.strip cs = cs.
Proof.
  intros H. unfold Py.strip.
  assert (H1 : Py.lstrip cs = cs).
  { destruct H; [reflexivity | now apply lstrip_head]. }
  rewrite H1.
  assert (H2 : Forall (fun c => Py.is_space c = false) (rev cs))
    by (apply Forall_rev; exact H).
  assert (H3 : Py.lstrip (rev cs) = rev cs).
  { destruct H2; [reflexivity | now apply lstrip_head]. }
  rewrite H3. apply rev_involutive.
Qed.

(** The sign test of [int], by comparison of the first character. *)
Lemma int_by_first_char (s : string) :
  Py.int s
  = match Py.strip (list_ascii_of_string s) with
    | [] => None
    | c :: cs =>
        if Ascii.eqb c "-" then option_map Z.opp (Py.int_body 0 false cs)
        else if Ascii.eqb c "+" then Py.int_body 0 false cs
        else Py.int_body 0 false (c :: cs)
    end.
Proof.
  unfold Py.int. destruct (Py.strip (list_ascii_of_string s)) as [|c cs];
    [reflexivity|].
  destruct c as [[] [] [] [] [] [] [] []]; reflexivity.
Qed.

Lemma digit_not_sign (c : ascii) (d : Z) :
  Py.digit_val c = Some d -> Ascii.eqb c "-" = false /\ Ascii.eqb c "+" = false.
Proof.
  intros H. split.
  - destruct (Ascii.eqb_spec c "-"); [subst; discriminate | reflexivity].
  - destruct (Ascii.eqb_spec c "+"); [subst; discriminate | reflexivity].
Qed.

(** [int(str(n)) = n] for a number that is not negative. *)
Lemma int_py_str (n : Z) : (0 <= n)%Z -> Py.int (py_str n) = Some n.
Proof.
  intros Hn. unfold py_str.
  replace ((n <? 0)%Z) with false by (symmetry; apply Z.ltb_ge; lia).
  set (ds := str_digits (S (Z.to_nat (Z.log2 n))) n []).
  assert (Hall : Forall (fun c => exists d, Py.digit_val c = Some d) ds)
    by (apply str_digits_all_digits; [assumption | constructor]).
  rewrite int_by_first_char, list_ascii_of_string_of_list_ascii.
  rewrite strip_no_space.
  2:{ eapply Forall_impl; [|exact Hall]. intros c [d Hd].
      eapply digit_not_space; eauto. }
  assert (Hval : Py.int_body 0 false ds = Some n).
  { unfold ds. rewrite str_digits_value by lia. reflexivity. }
  destruct ds as [|c cs] eqn:E.
  - exfalso. eapply str_digits_nonempty. exact E.
  - inversion Hall as [|? ? [d Hd] _]; subst.
    destruct (digit_not_sign _ Hd) as [-> ->]. exact Hval.
Qed.

Lemma split_nonempty (sep : ascii) (s : string) : Py.split sep s <> [].
Proof.
  induction s as [|c s IH]; cbn [Py.split]; [discriminate|].
  destruct (Ascii.eqb c sep); [discriminate|].
  destruct (Py.split sep s); [congruence | discriminate].
Qed.

Lemma split_no_sep (sep : ascii) (s : string) :
  ~ In sep (list_ascii_of_string s) -> Py.split sep s = [s].
Proof.
  induction s as [|c s IH]; intros Hno; [reflexivity|].
  cbn [Py.split list_ascii_of_string] in *.
  destruct (Ascii.eqb_spec c sep) as [->|Hc]; [exfalso; apply Hno; now left|].
  rewrite IH by (intros H; apply Hno; now right). reflexivity.
Qed.

Lemma split_app_sep (sep : ascii) (s1 s2 : string) :
  ~ In sep (list_ascii_of_string s1) ->
  Py.split sep (s1 ++ String sep s2)%string = s1 :: Py.split sep s2.
Proof.
  induction s1 as [|c s1 IH]; intros Hno.
  - cbn [append Py.split]. now rewrite Ascii.eqb_refl.
  - cbn [append Py.split list_ascii_of_string] in *.
    destruct (Ascii.eqb_spec c sep) as [->|Hc]; [exfalso; apply Hno; now left|].
    rewrite IH by (intros H; apply Hno; now right). reflexivity.
Qed.

Lemma py_str_no_dash (n : Z) :
  (0 <= n)%Z -> ~ In "-"%char (list_ascii_of_string (py_str n)).
Proof.
  intros Hn Hin. unfold py_str in Hin.
  replace ((n <? 0)%Z) with false in Hin by (symmetry; apply Z.ltb_ge; lia).
  rewrite list_ascii_of_string_of_list_ascii in Hin.
  assert (Hall : Forall (fun c => exists d, Py.digit_val c = Some d)
                        (str_digits (S (Z.to_nat (Z.log2 n))) n []))
    by (apply str_digits_all_digits; [assumption | constructor]).
  rewrite Forall_forall in Hall. destruct (Hall _ Hin) as [d Hd]. discriminate.
Qed.

Lemma checkpoint_number_of_name (g : Z) :
  (0 <= g)%Z -> checkpoint_number (checkpoint_name g) = Ok g.
Proof.
  intros Hg. unfold checkpoint_number, checkpoint_name.
  change ("checkpoint-" ++ py_str g)%string
    with ("checkpoint" ++ String "-" (py_str g))%string.
  rewrite split_app_sep by (simpl; intuition discriminate).
  rewrite split_no_sep by (apply py_str_no_dash; assumption).
  cbn [nth_error of_option rbind]. now rewrite int_py_str.
Qed.

Lemma checkpoint_name_prefix (g : Z) :
  Py.startswith (checkpoint_name g) "checkpoint" = true.
Proof. reflexivity. Qed.

Lemma split_pieces_no_sep (sep : ascii) (s piece : string) :
  In piece (Py.split sep s) -> ~ In sep (list_ascii_of_string piece).
Proof.
  revert piece. induction s as [|c s IH]; intros piece Hin.
  - destruct Hin as [<-|[]]. simpl. tauto.
  - cbn [Py.split] in Hin.
    destruct (Ascii.eqb_spec c sep) as [->|Hc].
    + destruct Hin as [<-|Hin]; [simpl; tauto | now apply IH].
    + destruct (Py.split sep s) as [|q rest] eqn:E.
      * destruct Hin as [<-|[]]. simpl. intuition congruence.
      * destruct Hin as [<-|Hin].
        -- cbn [list_ascii_of_string]. intros [H|H]; [congruence|].
           apply (IH q); [now left | exact H].
        -- apply IH. now right.
Qed.

Lemma in_lstrip (c : ascii) (cs : list ascii) : In c (Py.lstrip cs) -> In c cs.
Proof.
  induction cs as [|x cs IH]; [easy|]. cbn [Py.lstrip].
  destruct (Py.is_space x); [intros H; right; now apply IH | easy].
Qed.

Lemma in_strip (c : ascii) (cs : list ascii) : In c (Py.strip cs) -> In c cs.
Proof.
  unfold Py.strip. intros H. apply in_rev in H. apply in_lstrip in H.
  apply in_rev in H. now apply in_lstrip.
Qed.

Lemma int_body_nonneg (acc : Z) (b : bool) (cs : list ascii) (v : Z) :
  (0 <= acc)%Z -> Py.int_body acc b cs = Some v -> (0 <= v)%Z.
Proof.
  revert acc b. induction cs as [|c cs IH]; intros acc b Hacc H.
  - cbn [Py.int_body] in H. destruct b; [inversion H; lia | discriminate].
  - cbn [Py.int_body] in H. destruct (Py.digit_val c) as [d|] eqn:Ed.
    + apply digit_val_range in Ed. eapply IH; [|exact H]. lia.
    + destruct (Ascii.eqb c "_" && b); [|discriminate].
      eapply IH; [|exact H]. exact Hacc.
Qed.

(** A string without a minus sign is never read as a negative number. *)
Lemma int_nonneg (s : string) (v : Z) :
  ~ In "-"%char (list_ascii_of_string s) -> Py.int s = Some v -> (0 <= v)%Z.
Proof.
  intros Hno. rewrite int_by_first_char.
  destruct (Py.strip (list_ascii_of_string s)) as [|c cs] eqn:E; [discriminate|].
  destruct (Ascii.eqb_spec c "-") as [->|_].
  - exfalso. apply Hno. apply in_strip. rewrite E. now left.
  - destruct (Ascii.eqb c "+"); intros H; eapply int_body_nonneg; eauto; lia.
Qed.

Lemma checkpoint_number_nonneg (x : string) (g : Z) :
  checkpoint_number x = Ok g -> (0 <= g)%Z.
Proof.
  unfold checkpoint_number.
  destruct (nth_error (Py.split "-" x) 1) as [piece|] eqn:E;
    cbn [of_option rbind]; [|discriminate].
  destruct (Py.int piece) as [v|] eqn:Ev; cbn [of_option]; [|discriminate].
  intros H; inversion H; subst v.
  eapply int_nonneg; [|exact Ev].
  eapply split_pieces_no_sep. eapply nth_error_In. exact E.
Qed.

Lemma resume_fresh_inv (load_state : string -> option exn) (listing : list string)
    (rfc : option string) (accum len : Z) (r : resumed) :
  resume_from load_state listing rfc accum len = Ok r ->
  r_loaded r = None ->
  r_global_step r = 0%Z /\ r_first_epoch r = 0%Z /\ r_resume_step r = None
  /\ Py.truthy (r_resume_from_checkpoint r) = false.
Proof.
  unfold resume_from. intros Hr Hl.
  destruct (Py.ceil_div len accum) as [nups|]; cbn [rbind] in Hr; [|discriminate].
  destruct (Py.truthy rfc) eqn:Htr.
  2:{ inversion Hr; subst r. cbn. auto. }
  match type of Hr with
  | rbind ?sel _ = _ => destruct sel as [[p|]|e]
  end; cbn [rbind] in Hr; try discriminate.
  - destruct (load_state p); [discriminate|].
    destruct (checkpoint_number p); cbn [rbind] in Hr; [|discriminate].
    destruct (Py.floordiv _ _); cbn [rbind] in Hr; [|discriminate].
    destruct (Py.pymod _ _); cbn [rbind] in Hr; [|discriminate].
    inversion Hr; subst r. discriminate.
  - inversion Hr; subst r. cbn. auto.
Qed.

(** X1.  A checkpoint saved at step [g] is named so that the resume code
    recognises it and reads [g] back from the name. *)
Theorem checkpoint_name_round_trip (g : Z) :
  (0 <= g)%Z ->
  Py.startswith (checkpoint_name g) "checkpoint" = true
  /\ checkpoint_number (checkpoint_name g) = Ok g.
Proof.
  intros Hg. split; [apply checkpoint_name_prefix | now apply checkpoint_number_of_name].
Qed.

Lemma checkpoint_name_round_trip_witness :
  checkpoint_number (checkpoint_name 1500) = Ok 1500%Z.
Proof.
  destruct (@checkpoint_name_round_trip 1500%Z) as [_ H]; [lia | exact H].
Defined.

(** X2.  After checkpoints were saved at the steps [steps], a resume with
    ["latest"] continues from the greatest of these steps, whatever the order
    of the directory listing and whatever other entries (not starting with
    ["checkpoint"]) the output directory holds. *)
Theorem latest_resumes_from_last_saved (load_state : string -> option exn)
    (listing : list string) (steps : list Z) (accum len : Z) :
  steps <> [] ->
  (forall g, In g steps -> (0 <= g)%Z /\ In (checkpoint_name g) listing) ->
  (forall d, In d listing -> Py.startswith d "checkpoint" = true ->
             exists g, In g steps /\ d = checkpoint_name g) ->
  (forall g, In g steps -> load_state (checkpoint_name g) = None) ->
  (0 < accum)%Z -> (0 < len)%Z ->
  exists g r,
    In g steps /\ (forall g', In g' steps -> (g' <= g)%Z)
    /\ latest_checkpoint listing = Ok (Some (checkpoint_name g))
    /\ resume_from load_state listing (Some "latest") accum len = Ok r
    /\ r_global_step r = g
    /\ r_loaded r = Some (checkpoint_name g).
Proof.
  intros Hne Hsaved Hothers Hload Ha Hl.
  set (dirs := filter (fun d => Py.startswith d "checkpoint") listing).
  assert (Hdirs : forall d, In d dirs -> exists g, In g steps /\ d = checkpoint_name g).
  { intros d Hd. apply filter_In in Hd. destruct Hd. now apply Hothers. }
  assert (Hin : forall g, In g steps -> In (checkpoint_name g) dirs).
  { intros g Hg. apply filter_In. split; [now apply Hsaved | reflexivity]. }
  destruct (latest_checkpoint_greatest listing) as [d [n [Hsel [Hd [Hn Hmax]]]]].
  - fold dirs. destruct steps as [|g0 ?]; [congruence|].
    intros E. specialize (Hin g0 (or_introl eq_refl)). rewrite E in Hin. exact Hin.
  - fold dirs. intros d Hd. destruct (Hdirs d Hd) as [g [Hg ->]].
    exists g. apply checkpoint_number_of_name. now apply Hsaved.
  - fold dirs in Hd, Hmax.
    destruct (Hdirs d Hd) as [g [Hg ->]].
    assert (Hgn : n = g).
    { rewrite checkpoint_number_of_name in Hn by (now apply Hsaved). congruence. }
    subst n.
    assert (Hgmax : forall g', In g' steps -> (g' <= g)%Z).
    { intros g' Hg'. apply (Hmax (checkpoint_name g') g'); [now apply Hin|].
      apply checkpoint_number_of_name. now apply Hsaved. }
    unfold resume_from. rewrite ceil_div_ok by lia. cbn [rbind Py.truthy].
    simpl String.eqb. cbn [negb]. rewrite Hsel. cbn [rbind].
    rewrite (Hload g Hg), Hn. cbn [rbind].
    assert (Hnups : (- (- len / accum) <> 0)%Z).
    { pose proof (Z.div_mod (- len) accum ltac:(lia)).
      pose proof (Z.mod_pos_bound (- len) accum Ha). nia. }
    unfold Py.floordiv, Py.pymod.
    destruct (Z.eqb_spec (- (- len / accum)) 0); [contradiction|].
    destruct (Z.eqb_spec (- (- len / accum) * accum) 0); [nia|].
    cbn [rbind]. eexists g, _. repeat split; try eassumption; reflexivity.
Qed.

Lemma latest_resumes_from_last_saved_witness :
  exists r,
    resume_from (fun _ => None)
                ["logs"; checkpoint_name 1000; "unet"; checkpoint_name 500]
                (Some "latest") 2 100 = Ok r
    /\ r_global_step r = 1000%Z.
Proof.
  destruct (@latest_resumes_from_last_saved (fun _ => None)
              ["logs"; checkpoint_name 1000; "unet"; checkpoint_name 500]
              [500; 1000]%Z 2 100)
    as [g [r [Hg [Hmax [_ [Hr [Hgs _]]]]]]].
  - discriminate.
  - intros g [<-|[<-|[]]]; split; try lia; simpl; auto.
  - intros d [<-|[<-|[<-|[<-|[]]]]] Hp; try discriminate Hp.
    + exists 1000%Z. split; [simpl; auto | reflexivity].
    + exists 500%Z. split; [simpl; auto | reflexivity].
  - reflexivity.
  - lia.
  - lia.
  - exists r. split; [exact Hr|].
    rewrite Hgs. pose proof (Hmax 1000%Z ltac:(simpl; auto)).
    destruct Hg as [<-|[<-|[]]]; lia.
Defined.

(** X3.  Whatever the request, the listing and the persistence layer, a
    resume that completes leaves a position inside the run: [global_step]
    and [first_epoch] are not negative and [resume_step] is an index into
    the epoch's batches; without a loaded checkpoint all of them are the
    fresh run's. *)
Theorem resume_position_in_range (load_state : string -> option exn)
    (listing : list string) (rfc : option string) (accum len : Z) (r : resumed) :
  (0 < accum)%Z -> (0 < len)%Z ->
  resume_from load_state listing rfc accum len = Ok r ->
  (0 <= r_global_step r)%Z /\ (0 <= r_first_epoch r)%Z
  /\ match r_loaded r, r_resume_step r with
     | Some _, Some resume_step => (0 <= resume_step < len)%Z
     | None, None => r_global_step r = 0%Z /\ r_first_epoch r = 0%Z
     | _, _ => False
     end.
Proof.
  intros Ha Hl Hr.
  destruct (r_loaded r) as [path|] eqn:Hp.
  - destruct (resume_loaded_inv _ _ _ _ _ Hr Hp)
      as [nups [Hc [_ [Hn [HG [Hfe [Hrs _]]]]]]].
    pose proof (checkpoint_number_nonneg _ HG) as Hg0.
    pose proof (resume_step_within_epoch (r_global_step r) Ha Hl Hc) as Hin.
    rewrite Hrs. split; [exact Hg0|]. split; [|exact Hin].
    rewrite Hfe. apply Z.div_pos; [exact Hg0|].
    rewrite ceil_div_ok in Hc by lia. inversion Hc as [Hq].
    pose proof (Z.div_mod (- len) accum ltac:(lia)).
    pose proof (Z.mod_pos_bound (- len) accum Ha). nia.
  - destruct (resume_fresh_inv _ _ _ _ _ Hr Hp) as [-> [-> [-> _]]].
    repeat split; lia.
Qed.

Lemma resume_position_in_range_witness :
  (0 <= r_global_step (mkResumed 13 2 (Some 6%Z) (Some "latest")
                                 ["Resuming from checkpoint checkpoint-13"]
                                 (Some "checkpoint-13")))%Z.
Proof.
  destruct (@resume_position_in_range (fun _ => None) ["checkpoint-13"]
              (Some "latest") 2 9
              (mkResumed 13 2 (Some 6%Z) (Some "latest")
                         ["Resuming from checkpoint checkpoint-13"]
                         (Some "checkpoint-13")))
    as [H _]; [lia | lia | reflexivity | exact H].
Defined.

Lemma split_trailing_sep (sep : ascii) (s : string) :
  Py.split sep (s ++ String sep EmptyString)%string
  = Py.split sep s ++ [EmptyString].
Proof.
  induction s as [|c s IH].
  - cbn [append Py.split]. now rewrite Ascii.eqb_refl.
  - cbn [append Py.split]. rewrite IH.
    destruct (Ascii.eqb c sep); [reflexivity|].
    destruct (Py.split sep s) as [|q rest] eqn:E;
      [exfalso; eapply split_nonempty; eauto | reflexivity].
Qed.

Lemma basename_trailing_slash (p : string) :
  Py.basename (p ++ "/")%string = EmptyString.
Proof.
  unfold Py.basename. rewrite split_trailing_sep. apply last_last.
Qed.

(** X4.  Of an explicit checkpoint path only the last component is used: two
    requests with the same last component have the same outcome, whatever
    directories they name.  (The checkpoint is looked up inside the output
    directory.) *)
Theorem explicit_path_directory_ignored (load_state : string -> option exn)
    (listing : list string) (p1 p2 : string) (accum len : Z) :
  p1 <> "latest" -> p2 <> "latest" ->
  Py.truthy (Some p1) = true -> Py.truthy (Some p2) = true ->
  Py.basename p1 = Py.basename p2 ->
  match resume_from load_state listing (Some p1) accum len,
        resume_from load_state listing (Some p2) accum len with
  | Ok r1, Ok r2 =>
      r_global_step r1 = r_global_step r2
      /\ r_first_epoch r1 = r_first_epoch r2
      /\ r_resume_step r1 = r_resume_step r2
      /\ r_printed r1 = r_printed r2
      /\ r_loaded r1 = r_loaded r2
      /\ r_loaded r1 = Some (Py.basename p1)
  | Raise e1, Raise e2 => e1 = e2
  | _, _ => False
  end.
Proof.
  intros H1 H2 T1 T2 Hb. unfold resume_from.
  destruct (Py.ceil_div len accum) as [nups|e]; cbn [rbind]; [|reflexivity].
  rewrite T1, T2.
  destruct (String.eqb_spec p1 "latest") as [|_]; [contradiction|].
  destruct (String.eqb_spec p2 "latest") as [|_]; [contradiction|].
  cbn [negb rbind]. rewrite <- Hb.
  destruct (load_state (Py.basename p1)); [reflexivity|].
  destruct (checkpoint_number (Py.basename p1)); cbn [rbind]; [|reflexivity].
  destruct (Py.floordiv _ _); cbn [rbind]; [|reflexivity].
  destruct (Py.pymod _ _); cbn [rbind]; [|reflexivity].
  cbn. repeat split; reflexivity.
Qed.

Lemma explicit_path_directory_ignored_witness :
  match resume_from (fun _ => None) [] (Some "runs/a/checkpoint-40") 1 16,
        resume_from (fun _ => None) [] (Some "checkpoint-40") 1 16 with
  | Ok r1, Ok r2 =>
      r_global_step r1 = r_global_step r2
      /\ r_first_epoch r1 = r_first_epoch r2
      /\ r_resume_step r1 = r_resume_step r2
      /\ r_printed r1 = r_printed r2
      /\ r_loaded r1 = r_loaded r2
      /\ r_loaded r1 = Some (Py.basename "runs/a/checkpoint-40")
  | Raise e1, Raise e2 => e1 = e2
  | _, _ => False
  end.
Proof.
  apply (@explicit_path_directory_ignored (fun _ => None) []
           "runs/a/checkpoint-40" "checkpoint-40" 1 16);
    (discriminate || reflexivity).
Defined.

(** X5.  An explicit checkpoint path that ends with a slash never resumes:
    its last component is empty, so [load_state] is given the output
    directory itself and, if that returns, reading the step number raises
    [IndexError]. *)
Theorem explicit_path_trailing_slash (load_state : string -> option exn)
    (listing : list string) (p : string) (accum len : Z) :
  accum <> 0%Z ->
  resume_from load_state listing (Some (p ++ "/")%string) accum len
  = Raise (match load_state EmptyString with
           | Some e => e
           | None => IndexError
           end).
Proof.
  intros Ha. unfold resume_from. rewrite ceil_div_ok by assumption.
  cbn [rbind].
  assert (Htr : Py.truthy (Some (p ++ "/")%string) = true)
    by (destruct p; reflexivity).
  rewrite Htr.
  destruct (String.eqb_spec (p ++ "/")%string "latest") as [E|_].
  { pose proof (basename_trailing_slash p) as Hb. rewrite E in Hb. discriminate. }
  cbn [negb rbind]. rewrite basename_trailing_slash.
  destruct (load_state EmptyString); reflexivity.
Qed.

Lemma explicit_path_trailing_slash_witness :
  resume_from (fun _ => None) ["checkpoint-500"] (Some "out/checkpoint-500/") 1 8
  = Raise IndexError.
Proof.
  apply (@explicit_path_trailing_slash (fun _ => None) ["checkpoint-500"]
           "out/checkpoint-500" 1 8).
  discriminate.
Defined.

(* ===================================================================== *)
(** ** Epochs: skipping, checkpoint cadence, the final step *)
(* ===================================================================== *)

Section EpochFacts.
Context {batch : Type}.
Variable a : args.
Variable is_main_process : bool.
Hypothesis accum_pos : (0 < gradient_accumulation_steps a)%Z.

Lemma train_step_without_resume (b : batch) :
  train_step (without_resume a) is_main_process b
  = train_step a is_main_process b.
Proof. reflexivity. Qed.

Lemma epoch_loop_without_resume (epoch : Z) (bs : list batch)
    (fe fe' rs rs' step step' : Z) (s : loop_state batch) :
  epoch_loop (without_resume a) is_main_process epoch fe rs step bs s
  = epoch_loop (without_resume a) is_main_process epoch fe' rs' step' bs s.
Proof.
  revert step step' s. induction bs as [|b bs IH]; intros step step' s;
    [reflexivity|].
  cbn [epoch_loop without_resume resume_from_checkpoint Py.truthy andb].
  unfold bind. destruct (train_step _ _ _ s) as [s1 [[]|e]]; [|reflexivity].
  apply IH.
Qed.

(** Outside the skipped prefix the loop does not look at the resume data. *)
Lemma epoch_loop_plain (epoch first_epoch resume_step step : Z)
    (bs : list batch) (s : loop_state batch) :
  Py.truthy (resume_from_checkpoint a) && (epoch =? first_epoch)%Z = false
  \/ (resume_step <= step)%Z ->
  epoch_loop a is_main_process epoch first_epoch resume_step step bs s
  = epoch_loop (without_resume a) is_main_process epoch 0 0 0 bs s.
Proof.
  revert step s. induction bs as [|b bs IH]; intros step s Hno; [reflexivity|].
  cbn [epoch_loop].
  assert (Hcond : Py.truthy (resume_from_checkpoint a)
                  && (epoch =? first_epoch)%Z && (step <? resume_step)%Z
                  = false).
  { destruct Hno as [-> | Hle]; [reflexivity|].
    replace ((step <? resume_step)%Z) with false
      by (symmetry; apply Z.ltb_ge; lia).
    apply andb_false_r. }
  rewrite Hcond. cbn [without_resume resume_from_checkpoint Py.truthy andb].
  rewrite train_step_without_resume.
  unfold bind. destruct (train_step a is_main_process b s) as [s1 [[]|e]];
    [|reflexivity].
  rewrite IH by (destruct Hno; [now left | right; lia]).
  apply epoch_loop_without_resume.
Qed.

Lemma ceil_steps_succ (x : Z) :
  ceil_steps a (x + 1)
  = (ceil_steps a x
     + (if (x mod gradient_accumulation_steps a =? 0) then 1 else 0))%Z.
Proof.
  unfold ceil_steps.
  pose proof (@div_succ a accum_pos (x + gradient_accumulation_steps a - 1)%Z) as H.
  cbn zeta in H.
  replace (x + gradient_accumulation_steps a - 1 + 1)%Z
    with (x + 1 + gradient_accumulation_steps a - 1)%Z in H by lia.
  rewrite H. f_equal.
  replace (x + 1 + gradient_accumulation_steps a - 1)%Z
    with (x + 1 * gradient_accumulation_steps a)%Z by lia.
  now rewrite Z.mod_add by lia.
Qed.

Lemma ceil_steps_mono (x : Z) (n : nat) :
  (ceil_steps a x <= ceil_steps a (x + Z.of_nat n))%Z.
Proof.
  induction n as [|n IH]; [rewrite Z.add_0_r; lia|].
  replace (x + Z.of_nat (S n))%Z with (x + Z.of_nat n + 1)%Z by lia.
  rewrite ceil_steps_succ.
  destruct ((x + Z.of_nat n) mod gradient_accumulation_steps a =? 0)%Z; lia.
Qed.

(** The skipped prefix moves the progress bar once per accumulation group
    and does nothing else. *)
Lemma epoch_loop_skip_progress (epoch resume_step : Z) (bs rest : list batch)
    (step : Z) (s : loop_state batch) :
  Py.truthy (resume_from_checkpoint a) = true ->
  (step + Z.of_nat (length bs) <= resume_step)%Z ->
  epoch_loop a is_main_process epoch epoch resume_step step (bs ++ rest) s
  = epoch_loop a is_main_process epoch epoch resume_step
               (step + Z.of_nat (length bs))%Z rest
               (mkLoop (global_step s) (acc_step s) (sync_gradients s)
                       (trace s
                        ++ repeat EvProgress
                             (Z.to_nat
                                (ceil_steps a (step + Z.of_nat (length bs))
                                 - ceil_steps a step)))).
Proof.
  intros Htr. revert step s. induction bs as [|b bs IH]; intros step s Hle.
  - cbn [app length Z.of_nat]. rewrite Z.add_0_r, Z.sub_diag.
    cbn [Z.to_nat repeat]. rewrite app_nil_r. now destruct s.
  - cbn [app epoch_loop]. rewrite Htr, Z.eqb_refl.
    cbn [length] in Hle.
    replace ((step <? resume_step)%Z) with true
      by (symmetry; apply Z.ltb_lt; lia).
    cbn [andb]. unfold Py.pymod.
    destruct (Z.eqb_spec (gradient_accumulation_steps a) 0) as [E|_]; [lia|].
    unfold bind at 1. unfold bind at 1. unfold lift.
    cbn [length].
    replace (step + Z.of_nat (S (length bs)))%Z
      with (step + 1 + Z.of_nat (length bs))%Z by lia.
    pose proof (ceil_steps_succ step) as Hs.
    pose proof (ceil_steps_mono (step + 1) (length bs)) as Hm.
    destruct ((step mod gradient_accumulation_steps a =? 0)%Z);
      cbn [when]; unfold emit, modify, ret.
    + rewrite IH by (cbn [length]; lia).
      cbn [global_step acc_step sync_gradients trace].
      rewrite <- app_assoc. cbn [app].
      change (EvProgress :: repeat EvProgress ?k)
        with (repeat (@EvProgress batch) (S k)).
      assert (Hn : S (Z.to_nat (ceil_steps a (step + 1 + Z.of_nat (length bs))
                                - ceil_steps a (step + 1)))
                   = Z.to_nat (ceil_steps a (step + 1 + Z.of_nat (length bs))
                               - ceil_steps a step)) by lia.
      rewrite Hn. reflexivity.
    + rewrite IH by lia.
      replace (ceil_steps a (step + 1)) with (ceil_steps a step) by lia.
      reflexivity.
Qed.
End EpochFacts.

Lemma ceil_steps_multiple (a : args) (k : Z) :
  (0 < gradient_accumulation_steps a)%Z ->
  ceil_steps a (k * gradient_accumulation_steps a) = k.
Proof.
  intros Ha. unfold ceil_steps.
  replace (k * gradient_accumulation_steps a + gradient_accumulation_steps a - 1)%Z
    with (gradient_accumulation_steps a - 1 + k * gradient_accumulation_steps a)%Z
    by lia.
  rewrite Z.div_add by lia. rewrite Z.div_small by lia. lia.
Qed.

(** X6.  The first epoch of a resumed run is an ordinary epoch over the
    batches from position [resume_step] on, preceded only by updates of the
    progress bar: one per accumulation group of the skipped batches, which
    is the number of optimizer steps already taken in the epoch. *)
Theorem resumed_epoch_is_plain_epoch_on_rest {batch : Type} (a : args)
    (is_main_process : bool) (epoch resume_step : Z) (batches : list batch)
    (s : loop_state batch) :
  Py.truthy (resume_from_checkpoint a) = true ->
  (0 < gradient_accumulation_steps a)%Z ->
  (0 <= resume_step <= Z.of_nat (length batches))%Z ->
  run_epoch a is_main_process epoch epoch resume_step batches s
  = run_epoch (without_resume a) is_main_process epoch 0 0
              (skipn (Z.to_nat resume_step) batches)
              (mkLoop (global_step s) (acc_step s) (sync_gradients s)
                      (trace s
                       ++ repeat EvProgress (Z.to_nat (ceil_steps a resume_step))))
  /\ forall k, resume_step = (k * gradient_accumulation_steps a)%Z ->
               ceil_steps a resume_step = k.
Proof.
  intros Htr Ha Hrs. split.
  - unfold run_epoch.
    rewrite <- (firstn_skipn (Z.to_nat resume_step) batches) at 1.
    rewrite (@epoch_loop_skip_progress batch a is_main_process Ha epoch
               resume_step _ _ 0%Z s Htr)
      by (rewrite length_firstn; lia).
    rewrite epoch_loop_plain by (right; rewrite length_firstn; lia).
    rewrite length_firstn.
    replace (0 + Z.of_nat (Nat.min (Z.to_nat resume_step) (length batches)))%Z
      with resume_step by lia.
    replace (ceil_steps a 0) with 0%Z
      by (unfold ceil_steps; rewrite Z.div_small; lia).
    now rewrite Z.sub_0_r.
  - intros k ->. now apply ceil_steps_multiple.
Qed.

Lemma resumed_epoch_is_plain_epoch_on_rest_witness :
  run_epoch (mkArgs 2 true 500 "epsilon" (Some "latest")) true 3 3 4
            [10; 11; 12; 13; 14; 15] (@mkLoop nat 7 0 false [])
  = run_epoch (mkArgs 2 true 500 "epsilon" None) true 3 0 0 [14; 15]
              (@mkLoop nat 7 0 false [EvProgress; EvProgress]).
Proof.
  destruct (@resumed_epoch_is_plain_epoch_on_rest nat
              (mkArgs 2 true 500 "epsilon" (Some "latest")) true 3 4
              [10; 11; 12; 13; 14; 15] (@mkLoop nat 7 0 false []))
    as [H _]; [reflexivity | reflexivity | simpl; lia | exact H].
Defined.

Section CadenceFacts.
Context {batch : Type}.
Variable a : args.
Variable is_main_process : bool.
Hypothesis accum_pos : (0 < gradient_accumulation_steps a)%Z.
Hypothesis checkpointing_nonzero : checkpointing_steps a <> 0%Z.
Hypothesis prediction_supported :
  supported_prediction_type (prediction_type a) = true.

Lemma saved_steps_app (t1 t2 : list (event batch)) :
  saved_steps (t1 ++ t2) = saved_steps t1 ++ saved_steps t2.
Proof.
  induction t1 as [|e t1 IH]; [reflexivity|].
  destruct e; cbn [app saved_steps]; rewrite IH; reflexivity.
Qed.

Lemma saved_steps_micro_step (b : batch) (g : Z) (boundary : bool) :
  saved_steps (micro_step_events a is_main_process b g boundary)
  = if boundary
       && ((g + 1) mod checkpointing_steps a =? 0)%Z && is_main_process
    then [(g + 1)%Z] else [].
Proof.
  unfold micro_step_events, optimization_step_events.
  destruct boundary; [|reflexivity].
  destruct (use_ema a);
    destruct (((g + 1) mod checkpointing_steps a =? 0)%Z);
    destruct is_main_process; reflexivity.
Qed.

(** Which steps an epoch without skipping saves a checkpoint at. *)
Lemma epoch_loop_saves (epoch first_epoch resume_step : Z) (bs : list batch)
    (step : Z) (s : loop_state batch) :
  Py.truthy (resume_from_checkpoint a) = false ->
  exists s' new,
    epoch_loop a is_main_process epoch first_epoch resume_step step bs s
    = (s', Ok tt)
    /\ trace s' = trace s ++ new
    /\ (global_step s <= global_step s')%Z
    /\ forall g, In g (saved_steps new)
                 <-> (is_main_process = true
                      /\ (global_step s < g <= global_step s')%Z
                      /\ (g mod checkpointing_steps a = 0)%Z).
Proof.
  intros Htr. revert step s. induction bs as [|b bs IH]; intros step s.
  - exists s, []. cbn [epoch_loop]. unfold ret. rewrite app_nil_r.
    split; [reflexivity|]. split; [reflexivity|]. split; [lia|].
    intros g. cbn [saved_steps In]. split; [easy | intros [_ [H _]]; lia].
  - cbn [epoch_loop]. rewrite Htr. cbn [andb].
    unfold bind at 1.
    rewrite (@train_step_run batch a is_main_process checkpointing_nonzero
               prediction_supported b s).
    set (boundary := ((acc_step s + 1) mod gradient_accumulation_steps a =? 0)%Z).
    set (s1 := mkLoop _ _ _ _).
    destruct (IH (step + 1)%Z s1) as [s' [new [Hrun [Htrace [Hle Hsaved]]]]].
    exists s', (micro_step_events a is_main_process b (global_step s) boundary
                ++ new).
    split; [exact Hrun|].
    split; [rewrite Htrace; subst s1; cbn [trace]; now rewrite app_assoc|].
    assert (Hg1 : global_step s1
                  = (if boundary then global_step s + 1 else global_step s)%Z)
      by reflexivity.
    split; [destruct boundary; lia|].
    intros g. rewrite saved_steps_app, in_app_iff, Hsaved,
      saved_steps_micro_step.
    rewrite Hg1. clear Hsaved Hrun Htrace.
    destruct boundary; cbn [andb]; [|cbn [In]; tauto].
    destruct (Z.eqb_spec ((global_step s + 1) mod checkpointing_steps a) 0)
      as [E|E]; destruct is_main_process; cbn [andb In].
    + split.
      * intros [[H|[]]|[H1 [H2 H3]]].
        -- subst g. repeat split; (lia || assumption).
        -- repeat split; (lia || assumption).
      * intros [H1 [H2 H3]].
        destruct (Z.eq_dec g (global_step s + 1)) as [->|Hne];
          [left; left; reflexivity|].
        right. repeat split; (lia || assumption).
    + split.
      * intros [[]|[H1 _]]. discriminate.
      * intros [H1 _]. discriminate.
    + split.
      * intros [[]|[H1 [H2 H3]]]. repeat split; (lia || assumption).
      * intros [H1 [H2 H3]]. right.
        destruct (Z.eq_dec g (global_step s + 1)) as [->|Hne]; [contradiction|].
        repeat split; (lia || assumption).
    + split.
      * intros [[]|[H1 _]]. discriminate.
      * intros [H1 _]. discriminate.
Qed.
End CadenceFacts.

(** X7.  In an epoch without skipping, [global_step] never decreases, and a
    checkpoint is saved exactly at the steps reached in the epoch that are
    multiples of [checkpointing_steps], and only by the main process. *)
Theorem checkpoints_saved_at_cadence {batch : Type} (a : args)
    (is_main_process : bool) (epoch first_epoch resume_step : Z)
    (batches : list batch) (s : loop_state batch) :
  (0 < gradient_accumulation_steps a)%Z ->
  checkpointing_steps a <> 0%Z ->
  supported_prediction_type (prediction_type a) = true ->
  Py.truthy (resume_from_checkpoint a) = false ->
  exists s' new,
    run_epoch a is_main_process epoch first_epoch resume_step batches s
    = (s', Ok tt)
    /\ trace s' = trace s ++ new
    /\ (global_step s <= global_step s')%Z
    /\ forall g, In g (saved_steps new)
                 <-> (is_main_process = true
                      /\ (global_step s < g <= global_step s')%Z
                      /\ (g mod checkpointing_steps a = 0)%Z).
Proof.
  intros _ Hck Hpt Htr. unfold run_epoch.
  apply (@epoch_loop_saves batch a is_main_process Hck Hpt epoch first_epoch
           resume_step batches 0%Z s Htr).
Qed.

Lemma checkpoints_saved_at_cadence_witness :
  exists s' new,
    run_epoch (mkArgs 1 false 2 "epsilon" None) true 0 0 0 [10; 11; 12; 13; 14]
              (@mkLoop nat 0 0 false [])
    = (s', Ok tt)
    /\ trace s' = [] ++ new
    /\ (In 4%Z (saved_steps new) <-> (true = true /\ (0 < 4 <= global_step s')%Z
                                      /\ (4 mod 2 = 0)%Z)).
Proof.
  destruct (@checkpoints_saved_at_cadence nat (mkArgs 1 false 2 "epsilon" None)
              true 0 0 0 [10; 11; 12; 13; 14] (@mkLoop nat 0 0 false []))
    as [s' [new [Hrun [Htrace [_ Hsaved]]]]];
    [reflexivity | discriminate | reflexivity | reflexivity |].
  exists s', new. split; [exact Hrun|]. split; [exact Htrace|].
  apply (Hsaved 4%Z).
Defined.

Section RunFacts.
Context {batch : Type}.
Variable loader : Z -> list batch.
Variable epoch_tail : Z -> loop_state batch -> option exn.
Variable a : args.
Variable is_main_process : bool.
Variable k : Z.

Hypothesis accum_pos : (0 < gradient_accumulation_steps a)%Z.
Hypothesis checkpointing_nonzero : checkpointing_steps a <> 0%Z.
Hypothesis prediction_supported :
  supported_prediction_type (prediction_type a) = true.
Hypothesis loader_length :
  forall e, Z.of_nat (length (loader e)) = (k * gradient_accumulation_steps a)%Z.
Hypothesis tail_returns : forall e s, epoch_tail e s = None.

(** An epoch over [n] further batches, from a micro-step counter that is a
    multiple of the accumulation factor. *)
Lemma epoch_loop_steps (epoch first_epoch resume_step step : Z)
    (bs : list batch) (j : Z) (s : loop_state batch) :
  Py.truthy (resume_from_checkpoint a) && (epoch =? first_epoch)%Z = false
  \/ (resume_step <= step)%Z ->
  (acc_step s mod gradient_accumulation_steps a = 0)%Z ->
  Z.of_nat (length bs) = (j * gradient_accumulation_steps a)%Z ->
  exists s',
    epoch_loop a is_main_process epoch first_epoch resume_step step bs s
    = (s', Ok tt)
    /\ global_step s' = (global_step s + j)%Z
    /\ (acc_step s' mod gradient_accumulation_steps a = 0)%Z.
Proof.
  intros Hno Hacc Hlen.
  destruct (@epoch_loop_train batch a is_main_process accum_pos
              checkpointing_nonzero prediction_supported epoch first_epoch
              resume_step bs step s Hno)
    as [s' [trained [Hrun [_ [_ [Ha' Hgs]]]]]].
  exists s'. split; [exact Hrun|].
  set (m := gradient_accumulation_steps a) in *.
  apply Z.mod_divide in Hacc; [|lia]. destruct Hacc as [i Hi].
  rewrite Ha', Hlen, Hi in *.
  replace (i * m + j * m)%Z with ((i + j) * m)%Z in * by lia.
  rewrite !Z.div_mul in Hgs by lia.
  split; [lia | apply Z.mod_mul; lia].
Qed.

(** Epochs after the first resumed one (or all epochs of a fresh run). *)
Lemma epochs_from_steps (first_epoch resume_step : Z) (n : nat) (epoch : Z)
    (s : loop_state batch) :
  Py.truthy (resume_from_checkpoint a) = false \/ (first_epoch < epoch)%Z ->
  (acc_step s mod gradient_accumulation_steps a = 0)%Z ->
  exists s',
    epochs_from loader epoch_tail a is_main_process first_epoch resume_step
                epoch n s
    = (s', Ok tt)
    /\ global_step s' = (global_step s + Z.of_nat n * k)%Z
    /\ (acc_step s' mod gradient_accumulation_steps a = 0)%Z.
Proof.
  revert epoch s. induction n as [|n IH]; intros epoch s Hno Hacc.
  - exists s. cbn [epochs_from]. unfold ret. repeat split; [lia | exact Hacc].
  - destruct (@epoch_loop_steps epoch first_epoch resume_step 0%Z (loader epoch) k s)
      as [s1 [Hrun [Hgs1 Hacc1]]]; [| exact Hacc | apply loader_length |].
    { left. destruct Hno as [-> | Hlt]; [reflexivity|].
      replace ((epoch =? first_epoch)%Z) with false
        by (symmetry; apply Z.eqb_neq; lia).
      apply andb_false_r. }
    destruct (IH (epoch + 1)%Z s1) as [s' [Hrest [Hgs' Hacc']]];
      [destruct Hno; [now left | right; lia] | exact Hacc1 |].
    exists s'. cbn [epochs_from]. unfold run_epoch.
    unfold bind at 1. rewrite Hrun.
    unfold bind at 1. unfold get.
    unfold bind at 1. rewrite tail_returns. unfold ret.
    split; [exact Hrest|]. split; [lia | exact Hacc'].
Qed.
End RunFacts.

(** X8.  A fresh run over [num_epochs] epochs whose loader yields a multiple
    [k * accum_steps] of the accumulation factor in every epoch ends, provided
    nothing after the inner loop raises, with [global_step] equal to the
    ["Total optimization steps"] computed before training,
    [num_epochs * ceil(len / accum_steps)]. *)
Theorem fresh_run_ends_at_max_train_steps {batch : Type}
    (loader : Z -> list batch)
    (epoch_tail : Z -> loop_state batch -> option exn)
    (a : args) (is_main_process : bool) (num_epochs k : Z) :
  (0 < gradient_accumulation_steps a)%Z ->
  checkpointing_steps a <> 0%Z ->
  supported_prediction_type (prediction_type a) = true ->
  Py.truthy (resume_from_checkpoint a) = false ->
  (forall e, Z.of_nat (length (loader e)) = (k * gradient_accumulation_steps a)%Z) ->
  (forall e s, epoch_tail e s = None) ->
  (0 <= num_epochs)%Z ->
  exists s',
    training_epochs loader epoch_tail a is_main_process num_epochs 0 0
                    (mkLoop 0 0 false [])
    = (s', Ok tt)
    /\ max_train_steps num_epochs (k * gradient_accumulation_steps a)
                       (gradient_accumulation_steps a)
       = Ok (global_step s').
Proof.
  intros Ha Hck Hpt Htr Hlen Htail HE.
  destruct (@epochs_from_steps batch loader epoch_tail a is_main_process k
              Ha Hck Hpt Hlen Htail 0%Z 0%Z (Z.to_nat (num_epochs - 0)) 0%Z
              (mkLoop 0 0 false []))
    as [s' [Hrun [Hgs _]]]; [now left | reflexivity |].
  exists s'. split; [exact Hrun|].
  unfold max_train_steps. rewrite ceil_div_ok by lia. cbn [rbind].
  rewrite Hgs. cbn [global_step]. f_equal.
  rewrite <- Z.mul_opp_l, Z.div_mul by lia.
  rewrite Z.sub_0_r, Z2Nat.id by lia. ring.
Qed.

Lemma fresh_run_ends_at_max_train_steps_witness :
  exists s',
    training_epochs (fun e : Z => [Z.to_nat e; 7; 8; 9]) (fun _ _ => None)
                    (mkArgs 2 true 500 "epsilon" None) true 3 0 0
                    (mkLoop 0 0 false [])
    = (s', Ok tt)
    /\ max_train_steps 3 (2 * 2) 2 = Ok (global_step s').
Proof.
  apply (@fresh_run_ends_at_max_train_steps nat
           (fun e : Z => [Z.to_nat e; 7; 8; 9]) (fun _ _ => None)
           (mkArgs 2 true 500 "epsilon" None) true 3 2);
    try reflexivity; try discriminate; lia.
Defined.

(** X9.  A run resumed from a checkpoint taken at step [G] (the
    accelerator's micro-step counter at a multiple of the accumulation
    factor), with the position the resume code computes from [G], ends at the same
    [global_step] as the uninterrupted run, [num_epochs * k] (every epoch
    having [k * accum_steps] batches, [k] optimizer steps); and a run whose
    checkpoint is at or past that step executes no epoch at all: no training
    and nothing of what follows the inner loop (no sampling, no saving). *)
Theorem resumed_run_ends_at_same_step {batch : Type}
    (loader : Z -> list batch)
    (epoch_tail : Z -> loop_state batch -> option exn)
    (a : args) (is_main_process : bool) (num_epochs k G acc0 : Z)
    (tr : list (event batch)) :
  (0 < gradient_accumulation_steps a)%Z ->
  checkpointing_steps a <> 0%Z ->
  supported_prediction_type (prediction_type a) = true ->
  Py.truthy (resume_from_checkpoint a) = true ->
  (forall e, Z.of_nat (length (loader e)) = (k * gradient_accumulation_steps a)%Z) ->
  (0 < k)%Z -> (0 <= G)%Z ->
  (acc0 mod gradient_accumulation_steps a = 0)%Z ->
  let first_epoch := (G / k)%Z in
  let resume_step :=
    ((G * gradient_accumulation_steps a)
     mod (k * gradient_accumulation_steps a))%Z in
  ((forall e s, epoch_tail e s = None) ->
   (G <= num_epochs * k)%Z ->
   exists s',
     training_epochs loader epoch_tail a is_main_process num_epochs first_epoch
                     resume_step (mkLoop G acc0 false tr)
     = (s', Ok tt)
     /\ global_step s' = (num_epochs * k)%Z)
  /\ ((num_epochs * k <= G)%Z ->
      training_epochs loader epoch_tail a is_main_process num_epochs first_epoch
                      resume_step (mkLoop G acc0 false tr)
      = (mkLoop G acc0 false tr, Ok tt)).
Proof.
  intros Ha Hck Hpt Htr Hlen Hk HG Hacc0 first_epoch resume_step.
  set (m := gradient_accumulation_steps a) in *.
  pose proof (Z.div_mod G k ltac:(lia)) as Hdm.
  pose proof (Z.mod_pos_bound G k Hk) as Hmb.
  assert (Hrs : resume_step = (G mod k * m)%Z).
  { unfold resume_step. apply Z.mul_mod_distr_r; lia. }
  split.
  - intros Htail Hle. unfold training_epochs.
    destruct (Z_le_gt_dec num_epochs first_epoch) as [Hdone|Hmore].
    + replace (Z.to_nat (num_epochs - first_epoch)) with 0 by lia.
      exists (mkLoop G acc0 false tr). split; [reflexivity|].
      cbn [global_step]. unfold first_epoch in Hdone. nia.
    + destruct (Z.to_nat (num_epochs - first_epoch)) as [|n] eqn:En; [lia|].
      cbn [epochs_from].
      set (bs := loader first_epoch).
      assert (Hbs : Z.of_nat (length bs) = (k * m)%Z) by apply Hlen.
      assert (Hin : (0 <= resume_step <= Z.of_nat (length bs))%Z) by nia.
      destruct (@epoch_loop_skip batch a is_main_process Ha first_epoch
                  resume_step (firstn (Z.to_nat resume_step) bs)
                  (skipn (Z.to_nat resume_step) bs) 0%Z (mkLoop G acc0 false tr) Htr)
        as [skipped [_ Heq]].
      { rewrite length_firstn. lia. }
      rewrite firstn_skipn in Heq. cbn [global_step acc_step sync_gradients trace] in Heq.
      destruct (@epoch_loop_steps batch a is_main_process Ha Hck Hpt
                  first_epoch first_epoch resume_step
                  (0 + Z.of_nat (length (firstn (Z.to_nat resume_step) bs)))%Z
                  (skipn (Z.to_nat resume_step) bs) (k - G mod k)%Z
                  (mkLoop G acc0 false (tr ++ skipped)))
        as [s1 [Hrun1 [Hgs1 Hacc1]]].
      { right. rewrite length_firstn. lia. }
      { exact Hacc0. }
      { rewrite length_skipn. nia. }
      destruct (@epochs_from_steps batch loader epoch_tail a is_main_process k
                  Ha Hck Hpt Hlen Htail first_epoch resume_step n
                  (first_epoch + 1)%Z s1)
        as [s' [Hrest [Hgs' _]]]; [right; lia | exact Hacc1 |].
      exists s'. unfold run_epoch. fold bs.
      unfold bind at 1. rewrite Heq, Hrun1.
      unfold bind at 1. unfold get.
      unfold bind at 1. rewrite Htail. unfold ret.
      split; [exact Hrest|].
      rewrite Hgs', Hgs1. cbn [global_step].
      assert (Hn : Z.of_nat n = (num_epochs - first_epoch - 1)%Z) by lia.
      rewrite Hn. unfold first_epoch. nia.
  - intros Hge. unfold training_epochs.
    assert (Hfe : (num_epochs <= first_epoch)%Z).
    { unfold first_epoch. apply Z.div_le_lower_bound; lia. }
    replace (Z.to_nat (num_epochs - first_epoch)) with 0 by lia.
    reflexivity.
Qed.

Lemma resumed_run_ends_at_same_step_witness :
  exists s',
    training_epochs (fun e : Z => [Z.to_nat e; 7; 8; 9]) (fun _ _ => None)
                    (mkArgs 2 true 500 "epsilon" (Some "latest")) true 3
                    (3 / 2) ((3 * 2) mod (2 * 2)) (mkLoop 3 0 false [])
    = (s', Ok tt)
    /\ global_step s' = (3 * 2)%Z.
Proof.
  destruct (@resumed_run_ends_at_same_step nat
              (fun e : Z => [Z.to_nat e; 7; 8; 9]) (fun _ _ => None)
              (mkArgs 2 true 500 "epsilon" (Some "latest")) true 3 2 3 0 [])
    as [H _]; try reflexivity; try discriminate; try lia.
  apply H; [reflexivity | lia].
Defined.

(* ===================================================================== *)
(** ** A resumed run beside the uninterrupted one *)
(* ===================================================================== *)







Section RunTraceFacts.
Context {batch : Type}.
Variable a : args.
Variable is_main_process : bool.
Hypothesis accum_pos : (0 < gradient_accumulation_steps a)%Z.
Hypothesis checkpointing_nonzero : checkpointing_steps a <> 0%Z.
Hypothesis prediction_supported :
  supported_prediction_type (prediction_type a) = true.




End RunTraceFacts.


Section WholeRunFacts.
Context {batch : Type}.
Variable loader : Z -> list batch.
Variable epoch_tail : Z -> loop_state batch -> option exn.
Variable a : args.
Variable is_main_process : bool.

Hypothesis accum_pos : (0 < gradient_accumulation_steps a)%Z.
Hypothesis checkpointing_nonzero : checkpointing_steps a <> 0%Z.
Hypothesis prediction_supported :
  supported_prediction_type (prediction_type a) = true.
Hypothesis tail_returns : forall e s, epoch_tail e s = None.

End WholeRunFacts.

Section CutFacts.
Context {batch : Type}.
Variable a : args.
Variable is_main_process : bool.
Hypothesis accum_pos : (0 < gradient_accumulation_steps a)%Z.




End CutFacts.



Section ResumedRunFacts.
Context {batch : Type}.
Variable loader : Z -> list batch.
Variable epoch_tail : Z -> loop_state batch -> option exn.
Variable a : args.
Variable is_main_process : bool.
Variables num_epochs len G acc0 first_epoch resume_step : Z.

Hypothesis accum_pos : (0 < gradient_accumulation_steps a)%Z.
Hypothesis checkpointing_nonzero : checkpointing_steps a <> 0%Z.
Hypothesis prediction_supported :
  supported_prediction_type (prediction_type a) = true.
Hypothesis resume_requested : Py.truthy (resume_from_checkpoint a) = true.
Hypothesis loader_length : forall e, Z.of_nat (length (loader e)) = len.
Hypothesis tail_returns : forall e s, epoch_tail e s = None.
Hypothesis acc0_aligned : (acc0 mod gradient_accumulation_steps a = 0)%Z.
Hypothesis epoch_in_run : (0 <= first_epoch <= num_epochs)%Z.
Hypothesis step_in_epoch : (0 <= resume_step <= len)%Z.
Hypothesis last_epoch_whole : first_epoch = num_epochs -> resume_step = 0%Z.
(** The resume position is where the uninterrupted run stood after
    optimizer step [G]. *)
Hypothesis position :
  (first_epoch * len + resume_step = G * gradient_accumulation_steps a)%Z.




End ResumedRunFacts.




(* ===================================================================== *)
(** ** More on the objectives; the validation pass *)
(* ===================================================================== *)

Lemma epsilon_loss_value (alphas_cumprod : list Q)
    (model_output noise clean_images : tensor Q) (timesteps : list Z) :
  shape model_output = shape noise ->
  well_formed model_output -> well_formed noise ->
  training_loss "epsilon" alphas_cumprod model_output noise clean_images timesteps
  = Ok (mean_squared_error (data model_output) (data noise)).
Proof.
  intros Hs Hp Hn.
  unfold training_loss. simpl String.eqb. cbv iota.
  unfold mse_loss, mse_loss_none.
  rewrite (binop_same_shape sq_err Hs Hp Hn). cbn [of_option].
  assert (Hlen : length (data model_output) = length (data noise)).
  { unfold well_formed in *. congruence. }
  unfold mean, mean_squared_error. cbn [data].
  rewrite sq_err_by_position by assumption.
  now rewrite length_map, length_seq.
Qed.

Lemma sample_loss_value (alphas_cumprod : list Q)
    (model_output noise clean_images : tensor Q) (timesteps : list Z)
    (B C H W : nat) :
  shape model_output = [B; C; H; W] ->
  shape clean_images = [B; C; H; W] ->
  well_formed model_output -> well_formed clean_images ->
  length timesteps = B ->
  (forall t, In t timesteps -> (0 <= t < Z.of_nat (length alphas_cumprod))%Z) ->
  training_loss "sample" alphas_cumprod model_output noise clean_images timesteps
  = Ok (snr_weighted_mse alphas_cumprod timesteps (numel [C; H; W])
                         (data model_output) (data clean_images)).
Proof.
  intros Hsp Hsc Hwp Hwc Hlen Hts.
  unfold training_loss. simpl String.eqb. cbv iota.
  rewrite Hsc. cbn [nth_error of_option rbind].
  subst B.
  rewrite (extract_value (fun a : Q => a) alphas_cumprod timesteps [1; 1; 1]
             (mapM_index1_nonneg alphas_cumprod 0%Q timesteps Hts)).
  cbn [of_option rbind].
  set (vs := map (fun t => nth (Z.to_nat t) alphas_cumprod 0%Q) timesteps).
  assert (Hflat : flat_map (fun x : Q => repeat x (numel [1; 1; 1])) vs = vs).
  { change (numel [1; 1; 1]) with 1.
    rewrite (flat_map_repeat_1 (fun x : Q => x)). apply map_id. }
  rewrite Hflat.
  assert (Hvs : length vs = length timesteps) by (unfold vs; apply length_map).
  (* snr_weights = alpha_t / (1 - alpha_t) *)
  rewrite binop_same_shape;
    [ | reflexivity
      | unfold well_formed; cbn [shape data numel fold_right]; lia
      | unfold well_formed, map_t; cbn [shape data numel fold_right];
        rewrite length_map; lia ].
  cbn [of_option rbind shape data map_t].
  rewrite map2_map_r.
  change (map (fun a : Q => (a / (1 - a))%Q) vs) with (map snr_weight vs).
  (* the squared errors *)
  unfold mse_loss_none.
  rewrite (binop_same_shape sq_err (x:=model_output) (y:=clean_images))
    by (congruence || assumption).
  cbn [of_option rbind].
  (* the broadcast product *)
  assert (Hws : length (map snr_weight vs) = length timesteps)
    by (rewrite length_map; exact Hvs).
  rewrite <- Hws at 1.
  rewrite (@binop_batch_column Q Q Q Qmult (map snr_weight vs)
             (mkT (shape model_output)
                  (map2 sq_err (data model_output) (data clean_images)))
             [C; H; W]);
    [ | reflexivity
      | cbn [shape]; rewrite Hsp; f_equal; symmetry; exact Hws
      | unfold well_formed in *; cbn [shape data];
        rewrite length_map2, Hwp, Hwc, Hsp, Hsc; apply Nat.min_id ].
  cbn [of_option rbind]. f_equal.
  unfold mean, snr_weighted_mse. cbn [data].
  assert (Hdp : length (data model_output) = length timesteps * numel [C; H; W]).
  { unfold well_formed in Hwp. rewrite Hwp, Hsp. reflexivity. }
  assert (Hdc : length (data clean_images) = length timesteps * numel [C; H; W]).
  { unfold well_formed in Hwc. rewrite Hwc, Hsc. reflexivity. }
  assert (HW : map snr_weight vs
               = map (sample_weight alphas_cumprod timesteps)
                     (seq 0 (length timesteps))).
  { unfold vs. rewrite map_map.
    rewrite (map_by_position
               (fun t => snr_weight (nth (Z.to_nat t) alphas_cumprod 0%Q))
               timesteps 0%Z).
    reflexivity. }
  rewrite HW.
  rewrite (weighted_errors_by_position
             (sample_weight alphas_cumprod timesteps) (length timesteps)
             (numel [C; H; W]) (data model_output) (data clean_images) Hdp Hdc).
  now rewrite length_map, length_seq.
Qed.


Lemma Qsquare_nonneg (x : Q) : (0 <= x * x)%Q.
Proof. unfold Qle, Qmult; simpl. nia. Qed.

Lemma Qsum_nonneg (l : list Q) :
  Forall (fun x => 0 <= x)%Q l -> (0 <= Qsum l)%Q.
Proof.
  induction 1 as [|x l Hx _ IH]; simpl; [apply Qle_refl|].
  replace 0%Q with (0 + 0)%Q by reflexivity. now apply Qplus_le_compat.
Qed.

Lemma Qsum_nonneg_zero (l : list Q) :
  Forall (fun x => 0 <= x)%Q l -> (Qsum l == 0)%Q -> Forall (fun x => x == 0)%Q l.
Proof.
  induction 1 as [|x l Hx Hl IH]; simpl; intros Hz; [constructor|].
  pose proof (Qsum_nonneg Hl) as Hs.
  assert (Hx0 : (x == 0)%Q).
  { apply Qle_antisym; [|exact Hx].
    rewrite <- Hz. rewrite <- (Qplus_0_r x) at 1.
    apply Qplus_le_compat; [apply Qle_refl | exact Hs]. }
  constructor; [exact Hx0|]. apply IH.
  rewrite Hx0, Qplus_0_l in Hz. exact Hz.
Qed.

Lemma Qdiv_nat_nonneg (x : Q) (n : nat) : (0 <= x)%Q -> (0 <= x / inject_Z (Z.of_nat n))%Q.
Proof.
  intros Hx. unfold Qdiv. apply Qmult_le_0_compat; [exact Hx|].
  apply Qinv_le_0_compat. unfold Qle; simpl. lia.
Qed.

Lemma Qdiv_nat_zero (x : Q) (n : nat) :
  0 < n -> (x / inject_Z (Z.of_nat n) == 0)%Q -> (x == 0)%Q.
Proof.
  intros Hn Hz.
  assert (Hne : ~ (inject_Z (Z.of_nat n) == 0)%Q).
  { unfold Qeq; simpl. lia. }
  assert (E : (x == inject_Z (Z.of_nat n) * (x / inject_Z (Z.of_nat n)))%Q)
    by (symmetry; apply Qmult_div_r; exact Hne).
  rewrite E, Hz. ring.
Qed.

Lemma mean_squared_error_nonneg (dp dt : list Q) :
  (0 <= mean_squared_error dp dt)%Q.
Proof.
  unfold mean_squared_error. apply Qdiv_nat_nonneg, Qsum_nonneg.
  apply Forall_forall. intros x Hx. apply in_map_iff in Hx.
  destruct Hx as [p [<- _]]. apply Qsquare_nonneg.
Qed.

Lemma mean_squared_error_zero (dp dt : list Q) :
  0 < length dp ->
  ((mean_squared_error dp dt == 0)%Q
   <-> forall p, p < length dp -> (nth p dp 0 == nth p dt 0)%Q).
Proof.
  intros Hn. unfold mean_squared_error. split.
  - intros Hz p Hp. apply Qdiv_nat_zero in Hz; [|exact Hn].
    apply Qsum_nonneg_zero in Hz.
    + rewrite Forall_forall in Hz.
      assert (Hsq : ((nth p dp 0 - nth p dt 0) * (nth p dp 0 - nth p dt 0) == 0)%Q).
      { apply Hz. apply in_map_iff. exists p. split; [reflexivity|].
        apply in_seq. lia. }
      apply Qmult_integral in Hsq.
      assert (Hd : (nth p dp 0 - nth p dt 0 == 0)%Q) by tauto.
      assert (E : (nth p dp 0 == (nth p dp 0 - nth p dt 0) + nth p dt 0)%Q)
        by ring.
      rewrite E, Hd. ring.
    + apply Forall_forall. intros x Hx. apply in_map_iff in Hx.
      destruct Hx as [q [<- _]]. apply Qsquare_nonneg.
  - intros Heq.
    assert (Hs : (Qsum (map (fun p => (nth p dp 0 - nth p dt 0)
                                      * (nth p dp 0 - nth p dt 0))
                            (seq 0 (length dp))) == 0)%Q).
    { apply Qsum_all_zero. apply Forall_forall. intros x Hx.
      apply in_map_iff in Hx. destruct Hx as [p [<- Hp]].
      apply in_seq in Hp. rewrite (Heq p) by lia. ring. }
    rewrite Hs. unfold Qdiv. ring.
Qed.

(** X10.  In noise mode the loss of a batch is never negative, and it is zero
    exactly when the prediction equals the noise element by element. *)
Theorem epsilon_loss_zero_iff_equal (alphas_cumprod : list Q)
    (model_output noise clean_images : tensor Q) (timesteps : list Z) :
  shape model_output = shape noise ->
  well_formed model_output -> well_formed noise ->
  0 < numel (shape model_output) ->
  exists loss,
    training_loss "epsilon" alphas_cumprod model_output noise clean_images timesteps
    = Ok loss
    /\ (0 <= loss)%Q
    /\ ((loss == 0)%Q
        <-> forall p, p < numel (shape model_output) ->
                      (nth p (data model_output) 0 == nth p (data noise) 0)%Q).
Proof.
  intros Hs Hp Hn Hpos.
  rewrite (@epsilon_loss_value alphas_cumprod model_output noise clean_images
             timesteps Hs Hp Hn).
  eexists. split; [reflexivity|]. split; [apply mean_squared_error_nonneg|].
  unfold well_formed in Hp. rewrite <- Hp in *.
  now apply mean_squared_error_zero.
Qed.

Lemma epsilon_loss_zero_iff_equal_witness :
  exists loss,
    training_loss "epsilon" [] (mkT [2; 1] [1 # 2; 3 # 1]%Q)
                  (mkT [2; 1] [1 # 2; 1 # 1]%Q) (mkT [] []) []
    = Ok loss
    /\ (0 <= loss)%Q.
Proof.
  destruct (@epsilon_loss_zero_iff_equal [] (mkT [2; 1] [1 # 2; 3 # 1]%Q)
              (mkT [2; 1] [1 # 2; 1 # 1]%Q) (mkT [] []) [])
    as [loss [H1 [H2 _]]];
    [reflexivity | reflexivity | reflexivity | simpl; lia |].
  exists loss. split; assumption.
Defined.

Lemma snr_weight_nonneg (a : Q) : (0 <= a)%Q -> (a < 1)%Q -> (0 <= snr_weight a)%Q.
Proof.
  intros H0 H1. unfold snr_weight, Qdiv.
  apply Qmult_le_0_compat; [exact H0|].
  apply Qinv_le_0_compat. apply Qlt_le_weak.
  apply Qlt_minus_iff in H1. exact H1.
Qed.

Lemma sample_weight_nonneg (alphas_cumprod : list Q) (timesteps : list Z) (i : nat) :
  (forall a, In a alphas_cumprod -> (0 <= a)%Q /\ (a < 1)%Q) ->
  (0 <= sample_weight alphas_cumprod timesteps i)%Q.
Proof.
  intros Hall. unfold sample_weight.
  destruct (nth_in_or_default (Z.to_nat (nth i timesteps 0%Z)) alphas_cumprod 0%Q)
    as [Hin | ->].
  - destruct (Hall _ Hin). now apply snr_weight_nonneg.
  - apply snr_weight_nonneg; [apply Qle_refl | reflexivity].
Qed.

(** X11.  In direct-sample mode, with every [alpha_bar_t] of the schedule in
    [[0, 1)], the loss of a batch is never negative, and it is zero when the
    prediction equals the clean images. *)
Theorem sample_loss_nonneg (alphas_cumprod : list Q)
    (model_output noise clean_images : tensor Q) (timesteps : list Z)
    (B C H W : nat) :
  shape model_output = [B; C; H; W] ->
  shape clean_images = [B; C; H; W] ->
  well_formed model_output -> well_formed clean_images ->
  length timesteps = B ->
  (forall t, In t timesteps -> (0 <= t < Z.of_nat (length alphas_cumprod))%Z) ->
  (forall a, In a alphas_cumprod -> (0 <= a)%Q /\ (a < 1)%Q) ->
  0 < B * numel [C; H; W] ->
  exists loss,
    training_loss "sample" alphas_cumprod model_output noise clean_images timesteps
    = Ok loss
    /\ (0 <= loss)%Q
    /\ (data model_output = data clean_images -> (loss == 0)%Q).
Proof.
  intros Hsp Hsc Hwp Hwc Hlen Hts Hall _.
  rewrite (@sample_loss_value alphas_cumprod model_output noise clean_images
             timesteps B C H W Hsp Hsc Hwp Hwc Hlen Hts).
  eexists. split; [reflexivity|]. unfold snr_weighted_mse. split.
  - apply Qdiv_nat_nonneg, Qsum_nonneg.
    apply Forall_forall. intros x Hx. apply in_map_iff in Hx.
    destruct Hx as [p [<- _]].
    apply Qmult_le_0_compat;
      [now apply sample_weight_nonneg | apply Qsquare_nonneg].
  - intros ->.
    assert (Hs : (Qsum (map (fun p =>
                       sample_weight alphas_cumprod timesteps (p / numel [C; H; W])
                       * ((nth p (data clean_images) 0 - nth p (data clean_images) 0)
                          * (nth p (data clean_images) 0
                             - nth p (data clean_images) 0)))%Q
                    (seq 0 (length (data clean_images)))) == 0)%Q).
    { apply Qsum_all_zero. apply Forall_forall. intros x Hx.
      apply in_map_iff in Hx. destruct Hx as [p [<- _]]. ring. }
    rewrite Hs. unfold Qdiv. ring.
Qed.

Lemma sample_loss_nonneg_witness :
  exists loss,
    training_loss "sample" [1 # 2; 1 # 3; 1 # 4]%Q
                  (mkT [2; 1; 1; 2] [1; 2; 3; 4]%Q) (mkT [] [])
                  (mkT [2; 1; 1; 2] [0; 0; 0; 0]%Q) [0; 2]%Z
    = Ok loss
    /\ (0 <= loss)%Q.
Proof.
  destruct (@sample_loss_nonneg [1 # 2; 1 # 3; 1 # 4]%Q
              (mkT [2; 1; 1; 2] [1; 2; 3; 4]%Q) (mkT [] [])
              (mkT [2; 1; 1; 2] [0; 0; 0; 0]%Q) [0; 2]%Z 2 1 1 2)
    as [loss [H1 [H2 _]]]; try reflexivity.
  - intros t [<-|[<-|[]]]; simpl; lia.
  - intros a [<-|[<-|[<-|[]]]]; split; reflexivity || discriminate.
  - simpl; lia.
  - exists loss. split; assumption.
Defined.

Lemma validation_totals_sum (pt : string) (alphas_cumprod : list Q)
    (L : eval_batch -> Q) (batches : list eval_batch) (total : Q) (n : Z) :
  (forall b, In b batches ->
     training_loss pt alphas_cumprod (ev_model_output b) (ev_noise b)
                   (ev_test_images b) (ev_timesteps b) = Ok (L b)) ->
  exists total',
    validation_totals pt alphas_cumprod batches total n
    = Ok (total', (n + Z.of_nat (length batches))%Z)
    /\ (total' == total + Qsum (map L batches))%Q.
Proof.
  revert total n. induction batches as [|b rest IH]; intros total n Hall.
  - exists total. cbn [validation_totals length Z.of_nat map Qsum fold_right].
    rewrite Z.add_0_r. split; [reflexivity | ring].
  - cbn [validation_totals]. rewrite (Hall b) by now left. cbn [rbind].
    destruct (IH (total + L b)%Q (n + 1)%Z) as [t' [Hrun Ht']];
      [intros; apply Hall; now right|].
    exists t'. split.
    + rewrite Hrun. do 2 f_equal. cbn [length]. lia.
    + rewrite Ht'. cbn [map]. unfold Qsum; cbn [fold_right]. ring.
Qed.

(** X12.  The validation pass raises [ZeroDivisionError] when the evaluation
    loader yields no batch; otherwise, in noise mode, the validation loss is
    the mean over the batches of their mean squared errors (each batch
    weighing the same, whatever its size), and it is never negative. *)
Theorem validation_loss_is_mean_of_batch_losses (prediction_type : string)
    (alphas_cumprod : list Q) (batches : list eval_batch) :
  (forall b, In b batches ->
     shape (ev_model_output b) = shape (ev_noise b)
     /\ well_formed (ev_model_output b) /\ well_formed (ev_noise b)) ->
  validation_loss prediction_type alphas_cumprod [] = Raise ZeroDivisionError
  /\ (batches <> [] ->
      exists v,
        validation_loss "epsilon" alphas_cumprod batches = Ok v
        /\ (v == Qsum (map (fun b => mean_squared_error (data (ev_model_output b))
                                                        (data (ev_noise b)))
                           batches)
                 / inject_Z (Z.of_nat (length batches)))%Q
        /\ (0 <= v)%Q).
Proof.
  intros Hall. split; [reflexivity|]. intros Hne.
  set (L := fun b => mean_squared_error (data (ev_model_output b))
                                        (data (ev_noise b))).
  destruct (@validation_totals_sum "epsilon" alphas_cumprod L batches 0%Q 0%Z)
    as [total [Hrun Htotal]].
  { intros b Hb. destruct (Hall b Hb) as [Hs [Hp Hn]].
    now apply epsilon_loss_value. }
  unfold validation_loss. rewrite Hrun. cbn [rbind fst snd].
  assert (Hlen : (0 < Z.of_nat (length batches))%Z).
  { destruct batches; [congruence | simpl; lia]. }
  destruct (Z.eqb_spec (0 + Z.of_nat (length batches)) 0) as [E|_]; [lia|].
  eexists. split; [reflexivity|].
  assert (Hv : (total / inject_Z (0 + Z.of_nat (length batches))
                == Qsum (map L batches) / inject_Z (Z.of_nat (length batches)))%Q).
  { rewrite Htotal, Z.add_0_l, Qplus_0_l. reflexivity. }
  split; [exact Hv|].
  rewrite Hv. apply Qdiv_nat_nonneg, Qsum_nonneg.
  apply Forall_forall. intros x Hx. apply in_map_iff in Hx.
  destruct Hx as [b [<- _]]. apply mean_squared_error_nonneg.
Qed.

Lemma validation_loss_is_mean_of_batch_losses_witness :
  exists v,
    validation_loss "epsilon" []
      [mkEval (mkT [2] [1; 3]%Q) (mkT [2] [1; 1]%Q) (mkT [] []) [];
       mkEval (mkT [1] [5]%Q) (mkT [1] [4]%Q) (mkT [] []) []]
    = Ok v
    /\ (0 <= v)%Q.
Proof.
  destruct (@validation_loss_is_mean_of_batch_losses "epsilon" []
              [mkEval (mkT [2] [1; 3]%Q) (mkT [2] [1; 1]%Q) (mkT [] []) [];
               mkEval (mkT [1] [5]%Q) (mkT [1] [4]%Q) (mkT [] []) []])
    as [_ H].
  - intros b [<-|[<-|[]]]; repeat split.
  - destruct H as [v [H1 [_ H3]]]; [discriminate|].
    exists v. split; assumption.
Defined.

(* ===================================================================== *)
(** ** Edge cases of [_extract_into_tensor] *)
(* ===================================================================== *)

Lemma expandable_mismatch (n B : nat) (src tgt : list nat) :
  n <> B -> n <> 1 -> expandable (n :: src) (B :: tgt) = false.
Proof.
  intros H1 H2. cbn [expandable].
  destruct (Nat.eqb_spec n B); [contradiction|].
  destruct (Nat.eqb_spec n 1); [contradiction|]. reflexivity.
Qed.

(** X13.  The first dimension of [broadcast_shape] must be the batch length.
    A batch of one timestep is the exception: its coefficient fills the
    whole shape.  Any other mismatch, and an empty [broadcast_shape], makes
    [expand] fail with a [RuntimeError] (the lookups having succeeded). *)
Theorem extract_batch_dimension {A F : Type} (float : A -> F) (arr : list A)
    (timesteps : list Z) (B : nat) (dims : list nat) :
  (forall t, In t timesteps -> in_bounds arr t) ->
  (forall t, timesteps = [t] ->
     exists v,
       nth_error arr (position arr t) = Some v
       /\ _extract_into_tensor float arr timesteps (B :: dims)
          = Ok (mkT (B :: dims) (repeat (float v) (numel (B :: dims)))))
  /\ (length timesteps <> B -> length timesteps <> 1 ->
      _extract_into_tensor float arr timesteps (B :: dims)
      = Raise (RuntimeError "expand"))
  /\ _extract_into_tensor float arr timesteps [] = Raise (RuntimeError "expand").
Proof.
  intros Hin.
  destruct (mapM_total (index1 arr) timesteps) as [vs Hvs].
  { intros t Ht. destruct (index1_in_bounds (Hin t Ht)) as [v [Hv _]]. eauto. }
  pose proof (mapM_length _ _ Hvs) as Hlen.
  split; [|split].
  - intros t ->.
    destruct (@index1_in_bounds A arr t) as [v [Hv Hpos]];
      [apply Hin; now left|].
    exists v. split; [exact Hpos|].
    unfold _extract_into_tensor, index_select. cbn [mapM]. rewrite Hv.
    rewrite pad_rank_shape by (unfold rank, map_t; cbn; lia).
    unfold expand, rank, map_t. cbn [shape data length map].
    rewrite length_app, repeat_length. cbn [length].
    replace (S (length dims) - 1) with (length dims) by lia.
    replace (S (length dims) <? 1 + length dims) with false
      by (symmetry; apply Nat.ltb_ge; lia).
    replace (S (length dims) - (1 + length dims)) with 0 by lia.
    cbn [repeat app].
    change (1 :: repeat 1 (length dims)) with (repeat 1 (length (B :: dims))).
    rewrite expandable_ones, expand_data_ones. reflexivity.
  - intros HB H1.
    unfold _extract_into_tensor, index_select. rewrite Hvs.
    rewrite pad_rank_shape by (unfold rank, map_t; cbn; lia).
    unfold expand, rank, map_t. cbn [shape data length].
    rewrite length_app, repeat_length. cbn [length].
    replace (S (length dims) - 1) with (length dims) by lia.
    replace (S (length dims) <? 1 + length dims) with false
      by (symmetry; apply Nat.ltb_ge; lia).
    replace (S (length dims) - (1 + length dims)) with 0 by lia.
    cbn [repeat app].
    rewrite expandable_mismatch by assumption. reflexivity.
  - unfold _extract_into_tensor, index_select. rewrite Hvs. reflexivity.
Qed.

Lemma extract_batch_dimension_witness :
  _extract_into_tensor (fun x : Z => x) [10; 20; 30]%Z [1]%Z [3; 2]
  = Ok (mkT [3; 2] [20; 20; 20; 20; 20; 20]%Z)
  /\ _extract_into_tensor (fun x : Z => x) [10; 20; 30]%Z [1; 2]%Z [3; 2]
     = Raise (RuntimeError "expand").
Proof.
  split.
  - destruct (@extract_batch_dimension Z Z (fun x : Z => x) [10; 20; 30]%Z
                [1]%Z 3 [2]) as [H _].
    + intros t [<-|[]]. unfold in_bounds; simpl; lia.
    + destruct (H 1%Z eq_refl) as [v [Hv Hr]].
      simpl in Hv. inversion Hv; subst v. exact Hr.
  - destruct (@extract_batch_dimension Z Z (fun x : Z => x) [10; 20; 30]%Z
                [1; 2]%Z 3 [2]) as [_ [H _]].
    + intros t [<-|[<-|[]]]; unfold in_bounds; simpl; lia.
    + apply H; simpl; lia.
Defined.

(* ===================================================================== *)
(** ** The end of an epoch *)
(* ===================================================================== *)

Section EpochEndFacts.
Context {params images scheduler : Type}.
Variable pipeline_call :
  scheduler -> Z -> Z -> Z -> params -> params * result images.
Variable save_pretrained : scheduler -> string -> params -> params * result unit.
Variable c : end_args.
Variable sched : scheduler.
Variable s : net_state params.
Hypothesis ema_on : e_use_ema c = true.

Abbreviation kept := (network_kept pipeline_call save_pretrained c sched s).

(** Commands that keep the network compose. *)
Lemma kept_bind {A B : Type} (m : M (net_state params) A)
    (k : A -> M (net_state params) B) (s1 : net_state params) :
  kept (m s1) ->
  (forall x s2, live s2 = live s -> shadow s2 = shadow s -> kept (k x s2)) ->
  kept (bind m k s1).
Proof.
  unfold bind. destruct (m s1) as [s2 [x|e]]; intros [Hs Hl] Hk.
  - cbn [fst snd] in *. apply Hk; [|exact Hs].
    destruct Hl as [Hl|[p [e [He _]]]]; [exact Hl | discriminate].
  - cbn [fst snd] in *. split; [exact Hs|].
    destruct Hl as [Hl|[p [e' [He Hc]]]]; [left; exact Hl|].
    right. exists p, e'. split; [inversion He; reflexivity | exact Hc].
Qed.

Lemma kept_unchanged {A : Type} (r : result A) (s1 : net_state params) :
  live s1 = live s -> shadow s1 = shadow s -> kept (s1, r).
Proof. intros Hl Hs. split; [exact Hs | left; exact Hl]. Qed.

Lemma kept_outside (o : option exn) (s1 : net_state params) :
  live s1 = live s -> shadow s1 = shadow s -> kept (outside o s1).
Proof. intros Hl Hs. destruct o; now apply kept_unchanged. Qed.

Lemma kept_when (b : bool) (m : M (net_state params) unit) (s1 : net_state params) :
  live s1 = live s -> shadow s1 = shadow s -> kept (m s1) -> kept (when b m s1).
Proof. intros Hl Hs Hm. destruct b; [exact Hm | now apply kept_unchanged]. Qed.

Lemma kept_sample (s1 : net_state params) :
  live s1 = live s -> shadow s1 = shadow s ->
  kept (sample_images_block pipeline_call true sched (e_eval_batch_size c)
                            (e_ddpm_num_inference_steps c) s1).
Proof.
  intros Hl Hs. rewrite sample_images_block_ema, Hs.
  destruct (pipeline_call sched 0%Z (e_eval_batch_size c)
                          (e_ddpm_num_inference_steps c) (shadow s))
    as [p [imgs|e]] eqn:E.
  - split; [reflexivity | left; exact Hl].
  - split; [reflexivity|]. right. exists p, e. auto.
Qed.

Lemma kept_save (s1 : net_state params) :
  live s1 = live s -> shadow s1 = shadow s ->
  kept (save_model_block save_pretrained true sched (e_output_dir c) s1).
Proof.
  intros Hl Hs. rewrite save_model_block_ema, Hs.
  destruct (save_pretrained sched (e_output_dir c) (shadow s))
    as [p [u|e]] eqn:E.
  - split; [reflexivity | left; exact Hl].
  - split; [reflexivity|]. right. exists p, e. auto.
Qed.
End EpochEndFacts.

(** X14.  With EMA enabled, the end of an epoch never changes the EMA
    shadow, and it leaves the live parameters as they were before it, whether
    it returns or raises (a zero cadence, a tracker or the hub upload
    failing), with one exception: an error raised by the sampling pipeline or
    by the save itself, on the swapped-in shadow parameters. *)
Theorem epoch_end_keeps_parameters {params images scheduler : Type}
    (pipeline_call : scheduler -> Z -> Z -> Z -> params -> params * result images)
    (save_pretrained : scheduler -> string -> params -> params * result unit)
    (to_uint8 : images -> images)
    (tensorboard_add_images : images -> Z -> option exn)
    (wandb_log : images -> Z -> Z -> option exn)
    (push_to_hub : Z -> option exn)
    (c : end_args) (is_main_process : bool) (sched : scheduler)
    (epoch global_step : Z) (s : net_state params) :
  e_use_ema c = true ->
  network_kept pipeline_call save_pretrained c sched s
    (epoch_end pipeline_call save_pretrained to_uint8 tensorboard_add_images
               wandb_log push_to_hub c is_main_process sched epoch global_step s).
Proof.
  intros Hema. unfold epoch_end. rewrite Hema.
  apply kept_when; try reflexivity.
  apply kept_bind; [now apply kept_unchanged|]. intros r s1 Hl1 Hs1.
  apply kept_bind.
  - apply kept_when; try assumption.
    apply kept_bind; [now apply kept_sample|]. intros imgs s2 Hl2 Hs2.
    destruct (String.eqb (e_logger c) "tensorboard");
      [now apply kept_outside|].
    destruct (String.eqb (e_logger c) "wandb");
      [now apply kept_outside | now apply kept_unchanged].
  - intros [] s2 Hl2 Hs2.
    apply kept_bind; [now apply kept_unchanged|]. intros r' s3 Hl3 Hs3.
    apply kept_when; try assumption.
    apply kept_bind; [now apply kept_save|]. intros [] s4 Hl4 Hs4.
    apply kept_when; try assumption. now apply kept_outside.
Qed.

Lemma epoch_end_keeps_parameters_witness :
  live (fst (epoch_end
               (fun (_ : unit) (seed batch_size steps : Z) (p : Z) =>
                  ((p + 100)%Z, Ok (p + seed)%Z))
               (fun (_ : unit) (_ : string) (p : Z) => ((p + 7)%Z, Ok tt))
               (fun i : Z => i)
               (fun _ _ => Some (RuntimeError "tracker")) (fun _ _ _ => None)
               (fun _ => None)
               (mkEndArgs true "tensorboard" false 10 10 100 16 1000 "out")
               true tt 20 4000 (mkNet 1%Z 2%Z None 5 20)))
  = 1%Z.
Proof.
  destruct (@epoch_end_keeps_parameters Z Z unit
              (fun (_ : unit) (seed batch_size steps : Z) (p : Z) =>
                 ((p + 100)%Z, Ok (p + seed)%Z))
              (fun (_ : unit) (_ : string) (p : Z) => ((p + 7)%Z, Ok tt))
              (fun i : Z => i)
              (fun _ _ => Some (RuntimeError "tracker")) (fun _ _ _ => None)
              (fun _ => None)
              (mkEndArgs true "tensorboard" false 10 10 100 16 1000 "out")
              true tt 20%Z 4000%Z (mkNet 1%Z 2%Z None 5 20) eq_refl)
    as [_ [H|[p [e [_ [H|H]]]]]]; [exact H | discriminate H | discriminate H].
Defined.

(* ===================================================================== *)
(** ** The checkpoint hooks *)
(* ===================================================================== *)

Section HookFacts.
Context {params weight : Type}.
Variable not_found : exn.

Lemma write_file_same (d sub : string) (p : params) fs :
  write_file d sub p fs d sub = Some p.
Proof. unfold write_file. now rewrite !String.eqb_refl. Qed.

Lemma write_file_other (d sub d' sub' : string) (p : params) fs :
  d' <> d \/ sub' <> sub -> write_file d sub p fs d' sub' = fs d' sub'.
Proof.
  intros H. unfold write_file.
  destruct (String.eqb_spec d' d), (String.eqb_spec sub' sub); cbn [andb];
    try reflexivity. tauto.
Qed.

(** The loop of the save hook when the [weights] list is long enough. *)
Lemma save_each_ok (d : string) (ms : list nat) (st : hook_state params weight) :
  length ms <= length (weights st) ->
  exists st',
    save_each d ms st = (st', Ok tt)
    /\ objects st' = objects st /\ ema_shadow st' = ema_shadow st
    /\ models st' = models st
    /\ weights st' = firstn (length (weights st) - length ms) (weights st)
    /\ (forall m0, ms <> [] -> files st' d "unet" = Some (objects st (last ms m0)))
    /\ (forall d' sub', d' <> d \/ sub' <> "unet" ->
                         files st' d' sub' = files st d' sub')
    /\ (ms = [] -> files st' = files st).
Proof.
  revert st. induction ms as [|m ms IH]; intros st Hlen.
  - exists st. cbn [save_each length]. unfold ret. rewrite Nat.sub_0_r, firstn_all.
    repeat split; try reflexivity. intros m0 H; congruence.
  - cbn [save_each]. unfold bind at 1. unfold modify at 1.
    unfold bind at 1. unfold pop_weights, bind at 1, get.
    cbn [weights]. cbn [length] in Hlen.
    destruct (weights st) as [|w ws] eqn:Ew; [cbn in Hlen; lia|].
    unfold modify. cbn [weights objects ema_shadow files models].
    set (st1 := mkHook _ _ _ _ _).
    destruct (IH st1) as [st' [Hrun [Ho [Hs [Hm [Hw [Hf [Hother Hnil]]]]]]]].
    { subst st1. cbn [weights]. rewrite removelast_firstn_len, length_firstn.
      cbn [length] in *. lia. }
    exists st'. split; [exact Hrun|]. subst st1.
    cbn [objects ema_shadow models weights files] in *.
    repeat split; try assumption.
    + rewrite Hw, removelast_firstn_len, length_firstn, firstn_firstn.
      f_equal. cbn [length] in *. lia.
    + intros m0 _. destruct ms as [|m' ms'].
      * rewrite (Hnil eq_refl). cbn [last]. apply write_file_same.
      * rewrite (Hf m0) by discriminate. reflexivity.
    + intros d' sub' Hne. rewrite Hother by assumption.
      now apply write_file_other.
    + discriminate.
Qed.

(** The loop of the save hook when the [weights] list is too short. *)
Lemma save_each_short (d : string) (ms : list nat) (st : hook_state params weight) :
  length (weights st) < length ms ->
  snd (save_each d ms st) = Raise IndexError.
Proof.
  revert st. induction ms as [|m ms IH]; intros st Hlen; [cbn in Hlen; lia|].
  cbn [save_each]. unfold bind at 1. unfold modify at 1.
  unfold bind at 1. unfold pop_weights, bind at 1, get.
  cbn [weights]. cbn [length] in Hlen.
  destruct (weights st) as [|w ws] eqn:Ew; [reflexivity|].
  unfold modify. apply IH. cbn [weights].
  rewrite removelast_firstn_len, length_firstn. cbn [length] in *. lia.
Qed.

(** The loop of the load hook. *)
Lemma load_each_ok (d : string) (p : params) (n : nat)
    (st : hook_state params weight) :
  n = length (models st) ->
  files st d "unet" = Some p ->
  exists st',
    load_each not_found d n st = (st', Ok tt)
    /\ models st' = []
    /\ (forall m, In m (models st) -> objects st' m = p)
    /\ (forall m, ~ In m (models st) -> objects st' m = objects st m)
    /\ ema_shadow st' = ema_shadow st /\ files st' = files st
    /\ weights st' = weights st.
Proof.
  revert st. induction n as [|n IH]; intros st Hn Hfile.
  - exists st. cbn [load_each]. unfold ret.
    destruct (models st); [|discriminate].
    repeat split; try reflexivity. intros m [].
  - cbn [load_each]. unfold bind at 1. unfold pop_models, bind at 1, get.
    destruct (models st) as [|m0 ms0] eqn:Em; [discriminate|].
    unfold bind at 1. unfold modify at 1. unfold ret at 1.
    unfold bind at 1. unfold read_file, bind at 1, get.
    cbn [files]. rewrite Hfile. unfold ret at 1.
    unfold bind at 1. unfold modify at 1.
    cbn [objects ema_shadow files models weights].
    rewrite Em.
    set (model := last (m0 :: ms0) m0).
    set (st1 := mkHook _ _ _ _ _).
    destruct (IH st1) as [st' [Hrun [Hm [Hin [Hout [Hs [Hf Hw]]]]]]].
    { subst st1. cbn [models]. rewrite removelast_firstn_len, length_firstn.
      cbn [length] in *. lia. }
    { exact Hfile. }
    exists st'. split; [exact Hrun|]. subst st1.
    cbn [objects ema_shadow models weights files] in *.
    split; [exact Hm|].
    assert (Hsplit : m0 :: ms0 = removelast (m0 :: ms0) ++ [model])
      by (apply app_removelast_last; discriminate).
    split; [|split; [|repeat split; assumption]].
    + intros m Hmin. rewrite Hsplit in Hmin. apply in_app_or in Hmin.
      destruct (in_dec Nat.eq_dec m (removelast (m0 :: ms0))) as [Hi|Hni].
      * now apply Hin.
      * rewrite Hout by assumption. unfold set_object.
        destruct Hmin as [Hmin|[<-|[]]]; [contradiction|].
        now rewrite Nat.eqb_refl.
    + intros m Hnot. rewrite Hout.
      * unfold set_object. destruct (Nat.eqb_spec m model) as [->|_];
          [|reflexivity].
        exfalso. apply Hnot. rewrite Hsplit. apply in_or_app. right. now left.
      * intros Hi. apply Hnot. rewrite Hsplit. apply in_or_app. now left.
Qed.
End HookFacts.

(** What the save hook leaves behind. *)
Lemma save_model_hook_run {params weight : Type} (use_ema : bool) (d : string)
    (st : hook_state params weight) (m0 : nat) :
  length (models st) <= length (weights st) -> models st <> [] ->
  exists st',
    save_model_hook use_ema d st = (st', Ok tt)
    /\ objects st' = objects st /\ ema_shadow st' = ema_shadow st
    /\ models st' = models st
    /\ weights st'
       = firstn (length (weights st) - length (models st)) (weights st)
    /\ files st' d "unet" = Some (objects st (last (models st) m0))
    /\ files st' d "unet_ema"
       = (if use_ema then Some (ema_shadow st) else files st d "unet_ema")
    /\ (forall d' sub',
          d' <> d \/ (sub' <> "unet" /\ sub' <> "unet_ema") ->
          files st' d' sub' = files st d' sub').
Proof.
  intros Hlen Hne. unfold save_model_hook.
  unfold bind at 1.
  set (st0 := fst (when use_ema
                     (modify (fun st1 : hook_state params weight =>
                        mkHook (objects st1) (ema_shadow st1)
                               (write_file d "unet_ema" (ema_shadow st1) (files st1))
                               (models st1) (weights st1))) st)).
  assert (H0 : when use_ema
                 (modify (fun st1 : hook_state params weight =>
                    mkHook (objects st1) (ema_shadow st1)
                           (write_file d "unet_ema" (ema_shadow st1) (files st1))
                           (models st1) (weights st1))) st
               = (st0, Ok tt)) by (subst st0; destruct use_ema; reflexivity).
  rewrite H0. unfold bind at 1. unfold get.
  assert (Hst0 : objects st0 = objects st /\ ema_shadow st0 = ema_shadow st
                 /\ models st0 = models st /\ weights st0 = weights st)
    by (subst st0; destruct use_ema; cbn; auto).
  destruct Hst0 as [Ho0 [Hs0 [Hm0 Hw0]]].
  destruct (@save_each_ok params weight d (models st0) st0)
    as [st' [Hrun [Ho [Hs [Hm [Hw [Hf [Hother _]]]]]]]].
  { rewrite Hm0, Hw0. exact Hlen. }
  exists st'. split; [exact Hrun|].
  rewrite Ho, Hs, Hm, Hw, Ho0, Hs0, Hm0, Hw0.
  repeat split.
  - rewrite (Hf m0) by (rewrite Hm0; exact Hne). now rewrite Ho0, Hm0.
  - rewrite Hother by (right; discriminate).
    subst st0. destruct use_ema; cbn; [apply write_file_same | reflexivity].
  - intros d' sub' Hne'. rewrite Hother by tauto.
    subst st0. destruct use_ema; cbn; [|reflexivity].
    apply write_file_other. tauto.
Qed.

(** X15.  The save hook writes the model to [output_dir/unet] (of several
    models the last one: each overwrites the one before), the EMA weights to
    [output_dir/unet_ema] exactly when EMA is enabled, touches no other file,
    no model and not the EMA tracker, and pops one entry of [weights] per
    model from the end of the list; with fewer entries than models it raises
    [IndexError]. *)
Theorem save_model_hook_effect {params weight : Type} (use_ema : bool)
    (output_dir : string) (st : hook_state params weight) (m0 : nat) :
  (length (models st) <= length (weights st) -> models st <> [] ->
   exists st',
     save_model_hook use_ema output_dir st = (st', Ok tt)
     /\ objects st' = objects st /\ ema_shadow st' = ema_shadow st
     /\ models st' = models st
     /\ weights st'
        = firstn (length (weights st) - length (models st)) (weights st)
     /\ files st' output_dir "unet" = Some (objects st (last (models st) m0))
     /\ files st' output_dir "unet_ema"
        = (if use_ema then Some (ema_shadow st)
           else files st output_dir "unet_ema")
     /\ (forall d' sub',
           d' <> output_dir \/ (sub' <> "unet" /\ sub' <> "unet_ema") ->
           files st' d' sub' = files st d' sub'))
  /\ (length (weights st) < length (models st) ->
      snd (save_model_hook use_ema output_dir st) = Raise IndexError).
Proof.
  split.
  - intros Hlen Hne. now apply save_model_hook_run.
  - intros Hshort. unfold save_model_hook.
    unfold bind at 1. destruct use_ema; cbn [when]; unfold modify, ret;
      unfold bind at 1; unfold get; apply save_each_short; exact Hshort.
Qed.

Lemma save_model_hook_effect_witness :
  snd (save_model_hook true "out/checkpoint-500"
         (@mkHook Z nat (fun m => Z.of_nat m) 42%Z (fun _ _ => None) [3; 5] [0]))
  = Raise IndexError
  /\ exists st',
       save_model_hook true "out/checkpoint-500"
         (@mkHook Z nat (fun m => Z.of_nat m) 42%Z (fun _ _ => None) [3; 5] [7; 8; 9])
       = (st', Ok tt)
       /\ weights st' = [7] /\ files st' "out/checkpoint-500" "unet" = Some 5%Z.
Proof.
  split.
  - destruct (@save_model_hook_effect Z nat true "out/checkpoint-500"
                (@mkHook Z nat (fun m => Z.of_nat m) 42%Z (fun _ _ => None)
                         [3; 5] [0]) 0) as [_ H].
    apply H. simpl. lia.
  - destruct (@save_model_hook_effect Z nat true "out/checkpoint-500"
                (@mkHook Z nat (fun m => Z.of_nat m) 42%Z (fun _ _ => None)
                         [3; 5] [7; 8; 9]) 0) as [H _].
    destruct H as [st' [Hrun [_ [_ [_ [Hw [Hf _]]]]]]];
      [simpl; lia | discriminate |].
    exists st'. repeat split; assumption.
Defined.

(** X16.  Save hook, then load hook on the same directory: whatever became
    of the models and of the EMA tracker in between, the load hook puts the
    saved weights back (into every model of its list, which it empties), and
    the saved EMA weights back into the tracker exactly when EMA is enabled;
    models outside the list are not touched.  With one model this is a round
    trip. *)
Theorem checkpoint_hooks_round_trip {params weight : Type} (not_found : exn)
    (use_ema : bool) (dir : string) (st st2 : hook_state params weight)
    (m0 : nat) :
  length (models st) <= length (weights st) -> models st <> [] ->
  (forall d' sub',
     files st2 d' sub' = files (fst (save_model_hook use_ema dir st)) d' sub') ->
  exists st3,
    load_model_hook not_found use_ema dir st2 = (st3, Ok tt)
    /\ models st3 = []
    /\ (forall m, In m (models st2) ->
                  objects st3 m = objects st (last (models st) m0))
    /\ (forall m, ~ In m (models st2) -> objects st3 m = objects st2 m)
    /\ ema_shadow st3 = (if use_ema then ema_shadow st else ema_shadow st2).
Proof.
  intros Hlen Hne Hfiles.
  destruct (save_model_hook_run use_ema dir st m0 Hlen Hne)
    as [st1 [Hsave [_ [_ [_ [_ [Hunet [Hema _]]]]]]]].
  rewrite Hsave in Hfiles. cbn [fst] in Hfiles.
  unfold load_model_hook. unfold bind at 1.
  set (st2' := mkHook (objects st2)
                      (if use_ema then ema_shadow st else ema_shadow st2)
                      (files st2) (models st2) (weights st2)).
  assert (H0 : when use_ema
                 (load_model <- read_file not_found dir "unet_ema" ;;
                  modify (fun s : hook_state params weight =>
                            mkHook (objects s) load_model (files s) (models s)
                                   (weights s))) st2
               = (st2', Ok tt)).
  { subst st2'. destruct use_ema; cbn [when].
    - unfold bind, read_file, bind, get.
      rewrite Hfiles, Hema. reflexivity.
    - unfold ret. now destruct st2. }
  rewrite H0. unfold bind at 1. unfold get.
  destruct (@load_each_ok params weight not_found dir
              (objects st (last (models st) m0)) (length (models st2')) st2')
    as [st3 [Hrun [Hm [Hin [Hout [Hs _]]]]]].
  { reflexivity. }
  { subst st2'. cbn [files]. now rewrite Hfiles, Hunet. }
  exists st3. split; [exact Hrun|]. subst st2'.
  cbn [models objects ema_shadow] in *. repeat split; assumption.
Qed.

Lemma checkpoint_hooks_round_trip_witness :
  exists st3,
    load_model_hook (RuntimeError "not found") true "out/checkpoint-500"
      (@mkHook Z nat (fun _ => 0%Z) 0%Z
         (files (fst (save_model_hook true "out/checkpoint-500"
                        (@mkHook Z nat (fun _ => 11%Z) 42%Z (fun _ _ => None)
                                 [0] [7]))))
         [0] [])
    = (st3, Ok tt)
    /\ objects st3 0 = 11%Z /\ ema_shadow st3 = 42%Z.
Proof.
  destruct (@checkpoint_hooks_round_trip Z nat (RuntimeError "not found") true
              "out/checkpoint-500"
              (@mkHook Z nat (fun _ => 11%Z) 42%Z (fun _ _ => None) [0] [7])
              (@mkHook Z nat (fun _ => 0%Z) 0%Z
                 (files (fst (save_model_hook true "out/checkpoint-500"
                                (@mkHook Z nat (fun _ => 11%Z) 42%Z
                                         (fun _ _ => None) [0] [7]))))
                 [0] [])
              0)
    as [st3 [Hrun [_ [Hin [_ Hs]]]]];
    [simpl; lia | discriminate | reflexivity |].
  exists st3. split; [exact Hrun|]. split; [|exact Hs].
  apply (Hin 0). now left.
Defined.

(** X17.  A checkpoint written by the save hook without EMA, into a
    directory that held no EMA weights, cannot be loaded with EMA enabled:
    the load hook raises what [from_pretrained] raises for the missing
    [unet_ema] folder, before it touches any model, the tracker or its list
    of models. *)
Theorem load_hook_needs_saved_ema {params weight : Type} (not_found : exn)
    (dir : string) (st st2 : hook_state params weight) :
  length (models st) <= length (weights st) -> models st <> [] ->
  files st dir "unet_ema" = None ->
  (forall d' sub',
     files st2 d' sub' = files (fst (save_model_hook false dir st)) d' sub') ->
  load_model_hook not_found true dir st2 = (st2, Raise not_found).
Proof.
  intros Hlen Hne Hnone Hfiles.
  destruct (save_model_hook_run false dir st 0 Hlen Hne)
    as [st1 [Hsave [_ [_ [_ [_ [_ [Hema _]]]]]]]].
  rewrite Hsave in Hfiles. cbn [fst] in Hfiles.
  unfold load_model_hook, when, bind, read_file, bind, get.
  rewrite Hfiles, Hema, Hnone. reflexivity.
Qed.

Lemma load_hook_needs_saved_ema_witness :
  load_model_hook (RuntimeError "not found") true "out/checkpoint-500"
    (@mkHook Z nat (fun _ => 0%Z) 0%Z
       (files (fst (save_model_hook false "out/checkpoint-500"
                      (@mkHook Z nat (fun _ => 11%Z) 42%Z (fun _ _ => None)
                               [0] [7]))))
       [0] [])
  = (@mkHook Z nat (fun _ => 0%Z) 0%Z
       (files (fst (save_model_hook false "out/checkpoint-500"
                      (@mkHook Z nat (fun _ => 11%Z) 42%Z (fun _ _ => None)
                               [0] [7]))))
       [0] [],
     Raise (RuntimeError "not found")).
Proof.
  apply (@load_hook_needs_saved_ema Z nat (RuntimeError "not found")
           "out/checkpoint-500"
           (@mkHook Z nat (fun _ => 11%Z) 42%Z (fun _ _ => None) [0] [7]));
    [simpl; lia | discriminate | reflexivity | reflexivity].
Defined.
